(** * SATOSA SAML2 backend: a shallow embedding of satosa/backends/saml2.py

    The module [satosa.backends.saml2] is embedded function by function.
    Python [str] values are lists of Unicode code points, [bytes] values
    are lists of octets, dictionaries with string keys are finite maps,
    and exceptions are values of an explicit result type threaded through
    a small state-and-exception monad. *)

From stdpp Require Import base numbers option list strings gmap fin_maps.


(** ** Python values *)

(** A Python [str]: a sequence of code points. *)
Abbreviation pystr := (list N).
(** A Python [bytes] object: a sequence of octets (each below 256). *)
Abbreviation pybytes := (list N).

(** Turn an ASCII literal of the source into a [str]. *)
Fixpoint lit (s : string) : pystr :=
  match s with
  | EmptyString => []
  | String a r => Ascii.N_of_ascii a :: lit r
  end.

(** ** Exceptions *)

Inductive exn : Type :=
| KeyError
| IndexError
| AttributeError
| ValueError
| BinasciiError
| UnicodeEncodeError
| UnicodeDecodeError
| SATOSAAuthenticationError (message : string)
| ExternalError (code : nat).

Global Instance exn_eq_dec : EqDecision exn.
Proof. solve_decision. Defined.

Inductive result (A : Type) : Type :=
| Ok (a : A)
| Raise (e : exn).
Arguments Ok {A} a.
Arguments Raise {A} e.

Definition rbind {A B} (r : result A) (k : A -> result B) : result B :=
  match r with
  | Ok a => k a
  | Raise e => Raise e
  end.

Definition rmap {A B} (f : A -> B) (r : result A) : result B :=
  rbind r (fun a => Ok (f a)).

Global Instance result_ret : MRet result := @Ok.
Global Instance result_bind : MBind result := fun A B k r => rbind r k.

(** ** Codecs of the Python standard library used by the backend *)

Module Utf8.
Local Open Scope N_scope.

Definition is_surrogate (c : N) : bool := (0xD800 <=? c) && (c <=? 0xDFFF).

(** [chr.encode("utf-8")] for one code point; a lone surrogate is not
    encodable. *)
Definition encode_cp (c : N) : result pybytes :=
  if c <? 0x80 then Ok [c]
  else if c <? 0x800 then Ok [0xC0 + c / 64; 0x80 + c mod 64]
  else if c <? 0x10000 then
    if is_surrogate c then Raise UnicodeEncodeError
    else Ok [0xE0 + c / 4096; 0x80 + (c / 64) mod 64; 0x80 + c mod 64]
  else if c <? 0x110000 then
    Ok [0xF0 + c / 262144; 0x80 + (c / 4096) mod 64;
        0x80 + (c / 64) mod 64; 0x80 + c mod 64]
  else Raise UnicodeEncodeError.

(** [s.encode("utf-8")] *)
Fixpoint encode (s : pystr) : result pybytes :=
  match s with
  | [] => Ok []
  | c :: r =>
      rbind (encode_cp c) (fun bs => rmap (app bs) (encode r))
  end.

Definition is_cont (b : N) : bool := (0x80 <=? b) && (b <? 0xC0).

(** [bs.decode("utf-8")] with the default strict error handler. *)
Fixpoint decode (bs : pybytes) : result pystr :=
  match bs with
  | [] => Ok []
  | b0 :: r0 =>
      if b0 <? 0x80 then rmap (cons b0) (decode r0)
      else if b0 <? 0xC2 then Raise UnicodeDecodeError
      else if b0 <? 0xE0 then
        match r0 with
        | b1 :: r1 =>
            if is_cont b1
            then rmap (cons ((b0 - 0xC0) * 64 + (b1 - 0x80))) (decode r1)
            else Raise UnicodeDecodeError
        | _ => Raise UnicodeDecodeError
        end
      else if b0 <? 0xF0 then
        match r0 with
        | b1 :: b2 :: r2 =>
            let c := (b0 - 0xE0) * 4096 + (b1 - 0x80) * 64 + (b2 - 0x80) in
            if is_cont b1 && is_cont b2 && negb (c <? 0x800)
               && negb (is_surrogate c)
            then rmap (cons c) (decode r2)
            else Raise UnicodeDecodeError
        | _ => Raise UnicodeDecodeError
        end
      else if b0 <? 0xF5 then
        match r0 with
        | b1 :: b2 :: b3 :: r3 =>
            let c := (b0 - 0xF0) * 262144 + (b1 - 0x80) * 4096
                     + (b2 - 0x80) * 64 + (b3 - 0x80) in
            if is_cont b1 && is_cont b2 && is_cont b3
               && negb (c <? 0x10000) && (c <? 0x110000)
            then rmap (cons c) (decode r3)
            else Raise UnicodeDecodeError
        | _ => Raise UnicodeDecodeError
        end
      else Raise UnicodeDecodeError
  end.

End Utf8.

Module Base64.
Local Open Scope N_scope.

(** The standard alphabet of [binascii.b2a_base64]. *)
Definition table_b2a (i : N) : N :=
  if i <? 26 then 65 + i
  else if i <? 52 then 71 + i
  else if i <? 62 then i - 4
  else if i =? 62 then 43
  else 47.

Definition BASE64_PAD : N := 61.

Fixpoint b2a_base64 (bs : pybytes) : pybytes :=
  match bs with
  | [] => []
  | [a] => [table_b2a (a / 4); table_b2a ((a mod 4) * 16);
            BASE64_PAD; BASE64_PAD]
  | [a; b] => [table_b2a (a / 4); table_b2a ((a mod 4) * 16 + b / 16);
               table_b2a ((b mod 16) * 4); BASE64_PAD]
  | a :: b :: c :: r =>
      table_b2a (a / 4) :: table_b2a ((a mod 4) * 16 + b / 16)
      :: table_b2a ((b mod 16) * 4 + c / 64) :: table_b2a (c mod 64)
      :: b2a_base64 r
  end.

(** [_urlsafe_encode_translation]: '+' becomes '-', '/' becomes '_'. *)
Definition urlsafe_encode_translation (c : N) : N :=
  if c =? 43 then 45 else if c =? 47 then 95 else c.

(** [_urlsafe_decode_translation]: '-' becomes '+', '_' becomes '/'. *)
Definition urlsafe_decode_translation (c : N) : N :=
  if c =? 45 then 43 else if c =? 95 then 47 else c.

(** [base64.urlsafe_b64encode] *)
Definition urlsafe_b64encode (bs : pybytes) : pybytes :=
  map urlsafe_encode_translation (b2a_base64 bs).

(** The decoding table of [binascii]: the value of a character of the
    standard alphabet, nothing for any other character. *)
Definition table_a2b (c : N) : option N :=
  if (65 <=? c) && (c <=? 90) then Some (c - 65)
  else if (97 <=? c) && (c <=? 122) then Some (c - 71)
  else if (48 <=? c) && (c <=? 57) then Some (c + 4)
  else if c =? 43 then Some 62
  else if c =? 47 then Some 63
  else None.

(** The loop of [binascii.a2b_base64] in its default, lenient mode:
    characters outside the alphabet are skipped, a complete pad sequence
    ends the input, and leftover characters of an incomplete quad are an
    error. *)
Fixpoint a2b_loop (s : pybytes) (quad_pos leftchar pads : N)
  : result pybytes :=
  match s with
  | [] => if quad_pos =? 0 then Ok [] else Raise BinasciiError
  | this_ch :: r =>
      if this_ch =? BASE64_PAD then
        if (2 <=? quad_pos) && (4 <=? quad_pos + (pads + 1)) then Ok []
        else a2b_loop r quad_pos leftchar
                      (if 2 <=? quad_pos then pads + 1 else pads)
      else
        match table_a2b this_ch with
        | None => a2b_loop r quad_pos leftchar pads
        | Some v =>
            if quad_pos =? 0 then a2b_loop r 1 v 0
            else if quad_pos =? 1 then
              rmap (cons (leftchar * 4 + v / 16)) (a2b_loop r 2 (v mod 16) 0)
            else if quad_pos =? 2 then
              rmap (cons (leftchar * 16 + v / 4)) (a2b_loop r 3 (v mod 4) 0)
            else
              rmap (cons (leftchar * 64 + v)) (a2b_loop r 0 0 0)
        end
  end.

Definition a2b_base64 (s : pybytes) : result pybytes := a2b_loop s 0 0 0.

(** [_bytes_from_decode_types] on a [str] argument: only ASCII is
    accepted. *)
Definition bytes_from_decode_types (s : pystr) : result pybytes :=
  if forallb (fun c => c <? 128) s then Ok s else Raise ValueError.

(** [base64.urlsafe_b64decode] applied to a [str]. *)
Definition urlsafe_b64decode (s : pystr) : result pybytes :=
  rbind (bytes_from_decode_types s)
        (fun b => a2b_base64 (map urlsafe_decode_translation b)).

End Base64.

(** ** Dictionary and sequence access *)

(** [d[key]] on a dictionary with string keys. *)
Definition getitem {V} (d : gmap string V) (key : string) : result V :=
  match d !! key with
  | Some v => Ok v
  | None => Raise KeyError
  end.

(** [d[key]] where the key may be missing from a record-shaped
    dictionary. *)
Definition key {V} (field : option V) : result V :=
  match field with
  | Some v => Ok v
  | None => Raise KeyError
  end.

(** [l[i]] on a list. *)
Definition index {V} (l : list V) (i : nat) : result V :=
  match l !! i with
  | Some v => Ok v
  | None => Raise IndexError
  end.

(** ** The world a request handler runs in *)

(** Modelled from the spec: [satosa.internal_data.AuthenticationInformation]
    is missing; section 3 gives its three fields. *)
Record AuthenticationInformation := {
  auth_class_ref : pystr;
  timestamp : pystr;
  issuer : pystr
}.

(** Modelled from the spec: [satosa.internal_data.InternalResponse] is
    missing; section 3 gives its content (user id, attributes,
    authentication information). *)
Record InternalResponse := {
  auth_info : AuthenticationInformation;
  user_id : pystr;
  attributes : list (pystr * list pystr)
}.

(** Modelled from the spec: [satosa.internal_data.InternalRequest] is
    missing; it is built from a hash type and a requestor, both of which
    may be [None]. *)
Record InternalRequest := {
  user_id_hash_type : option pystr;
  requestor : option pystr
}.

(** Calls to the collaborators, in the order they happen. *)
Inductive event : Type :=
| EvLog (message : string)
| EvPickBinding (entity_id : pystr)
| EvCreateAuthnRequest (destination : pystr)
| EvApplyBinding (binding relay_state : pystr)
| EvParseResponse (payload binding : pystr)
| EvDiscoveryRequest (return_url : pystr)
| EvCallback (internal_resp : InternalResponse).

Definition is_discovery (e : event) : bool :=
  match e with EvDiscoveryRequest _ => true | _ => false end.

Definition is_callback (e : event) : bool :=
  match e with EvCallback _ => true | _ => false end.

(** The mutable part of a request: the session state object
    [context.state] shared by everyone holding the context, the calls
    made so far, and the number of random strings drawn. *)
Record world := {
  w_state : gmap string pystr;
  w_trace : list event;
  w_rnd : nat
}.

(** The session state class [satosa.state.State] is not among the
    sources; section 4.3 of the spec fixes what is needed of it. *)
Module State.
(** Modelled from the spec: [State.add] is missing; it stores the value
    under the key, replacing any previous one. *)
Definition add (k : string) (data : pystr) (st : gmap string pystr)
  : gmap string pystr := <[k := data]> st.
(** Modelled from the spec: [State.get] is missing; it gives the stored
    value, or nothing when no value is stored under the key. *)
Definition get (k : string) (st : gmap string pystr) : option pystr :=
  st !! k.
(** Modelled from the spec: [State.remove] is missing; it clears the
    key. *)
Definition remove (k : string) (st : gmap string pystr)
  : gmap string pystr := delete k st.
End State.

(** ** The monad of request handlers: state and exceptions *)

Definition M (A : Type) : Type := world -> result A * world.

Definition ret {A} (a : A) : M A := fun w => (Ok a, w).

Definition raise {A} (e : exn) : M A := fun w => (Raise e, w).

Definition bind {A B} (m : M A) (k : A -> M B) : M B :=
  fun w =>
    match m w with
    | (Ok a, w') => k a w'
    | (Raise e, w') => (Raise e, w')
    end.

Global Instance M_ret : MRet M := @ret.
Global Instance M_bind : MBind M := fun A B k m => bind m k.

(** A pure computation that may raise. *)
Definition lift {A} (r : result A) : M A := fun w => (r, w).

(** [try: body except <handled>: handler]; what the body did to the
    world before raising stays done. *)
Definition try_except {A} (body : M A) (handled : exn -> bool)
    (handler : exn -> M A) : M A :=
  fun w =>
    match body w with
    | (Ok a, w') => (Ok a, w')
    | (Raise e, w') => if handled e then handler e w' else (Raise e, w')
    end.

Definition except_KeyError (e : exn) : bool := bool_decide (e = KeyError).
Definition except_Exception (e : exn) : bool := true.

Definition emit (e : event) : M unit :=
  fun w => (Ok tt, {| w_state := w_state w;
                      w_trace := w_trace w ++ [e];
                      w_rnd := w_rnd w |}).

(** Modelled from the spec: [satosa.logging_util.satosa_logging] is not
    among the sources; per section 4.2 it records a diagnostic line for
    the session. The line is kept as an event and the session state is
    left as it is. *)
Definition satosa_logging (message : string) : M unit :=
  emit (EvLog message).

Definition state_add (k : string) (data : pystr) : M unit :=
  fun w => (Ok tt, {| w_state := State.add k data (w_state w);
                      w_trace := w_trace w;
                      w_rnd := w_rnd w |}).

Definition state_get (k : string) : M (option pystr) :=
  fun w => (Ok (State.get k (w_state w)), w).

Definition state_remove (k : string) : M unit :=
  fun w => (Ok tt, {| w_state := State.remove k (w_state w);
                      w_trace := w_trace w;
                      w_rnd := w_rnd w |}).

(** ** The objects of the backend *)

(** [satosa.context.Context]: the request parameters and the data the
    proxy attached to the request. The session state [context.state] is
    the shared object held in the world. *)
Record Context := {
  request : gmap string pystr;
  internal_data : gmap string pystr
}.

(** Modelled from the spec: the classes of [satosa.response] are missing;
    a handler returns a redirect, a response with a body and headers, a
    metadata document, or what the callback answered. *)
Inductive Response : Type :=
| SeeOther (location : pystr)
| PlainResponse (data : pystr) (headers : list (pystr * pystr))
| MetadataResponse (entityid : pystr)
| CallbackResponse (code : nat).

Definition BINDING_HTTP_REDIRECT : pystr :=
  lit "urn:oasis:names:tc:SAML:2.0:bindings:HTTP-Redirect".
Definition BINDING_HTTP_POST : pystr :=
  lit "urn:oasis:names:tc:SAML:2.0:bindings:HTTP-POST".

(** [saml2.samlp.NameIDPolicy(format=...)] *)
Record NameIDPolicy := { format : pystr }.

(** The dictionary returned by [sp.apply_binding]. *)
Record http_args := {
  ht_headers : list (pystr * pystr);
  ht_data : pystr
}.

(** [saml2.response.AuthnResponse], as far as [_translate_response]
    reads it. *)
Record AuthnResponse := {
  authn_info : list (pystr * list pystr);
  authn_statement : list pystr;
  response_issuer : pystr;
  subject : pystr;
  ava : list (pystr * list pystr)
}.

(** The metadata dictionaries of pysaml2 that [get_metadata_desc] walks.
    Every key of a dictionary may be missing. *)
Module Md.
(** A localized element: [{"text": ..., "lang": ...}] *)
Record localized := { text : option pystr; lang : option pystr }.

Record organization_info := {
  organization_name : option (list localized);
  organization_display_name : option (list localized);
  organization_url : option (list localized)
}.

Record contact_person := {
  contact_type : option pystr;
  email_address : option (list localized);
  given_name : option localized;
  sur_name : option localized
}.

Record logo := {
  logo_text : option pystr;
  logo_width : option pystr;
  logo_height : option pystr;
  logo_lang : option pystr
}.

Record element := {
  class : option pystr;
  el_description : option (list localized);
  el_display_name : option (list localized);
  el_logo : option (list logo)
}.

Record extensions := { extension_elements : option (list element) }.

Record idpsso_descriptor := { idpsso_extensions : option extensions }.

(** The value of [metadata_file.entity[entity_id]]. *)
Record entity_info := {
  organization : option organization_info;
  contact_persons : option (list contact_person);
  idpsso_descriptors : option (list idpsso_descriptor)
}.

Record EntityDescriptor := { entity_id : pystr }.
Record EntitiesDescriptor := { entity_descriptor : list EntityDescriptor }.

(** One metadata source held by [sp.metadata.metadata]. *)
Record metadata_file := {
  entity_descr : option EntityDescriptor;
  entities_descr : option EntitiesDescriptor;
  entity : gmap pystr entity_info
}.
End Md.

(** The pysaml2 client [self.sp] and its configuration. *)
Record SP := {
  (** [sp.metadata.identity_providers()] *)
  identity_providers : list pystr;
  (** [sp.config.entityid] *)
  entityid : pystr;
  (** [sp.config.getattr("endpoints", "sp")]: lists of
      (location, binding) pairs per service *)
  endpoints : gmap string (list (pystr * pystr));
  (** [sp.pick_binding("single_sign_on_service", bindings, "idpsso",
      entity_id=...)] *)
  pick_binding : list pystr -> pystr -> result (pystr * pystr);
  (** [sp.create_authn_request(destination, binding=..., name_id_policy=...)] *)
  create_authn_request : pystr -> pystr -> NameIDPolicy -> result (pystr * pystr);
  (** [sp.apply_binding(binding, msg, destination, relay_state=...)] *)
  apply_binding : pystr -> pystr -> pystr -> pystr -> result http_args;
  (** [sp.parse_authn_request_response(payload, binding)] *)
  parse_authn_request_response : pystr -> pystr -> result AuthnResponse;
  (** [sp.create_discovery_service_request(url, entity_id, return=...)] *)
  create_discovery_service_request :
    option pystr -> pystr -> pystr -> result pystr;
  (** [sp.metadata.metadata], in iteration order *)
  metadata : list (string * Md.metadata_file)
}.

(** [SamlBackend]: the attributes set by [__init__] and by the base
    class, with the helpers of [satosa.util] the methods call. *)
Record SamlBackend := {
  name : string;
  sp : SP;
  (** [config.get("hash_type")] *)
  config_hash_type : option pystr;
  (** [config.get("attribute_profile", "saml")] *)
  attribute_profile : pystr;
  (** [config.get("disco_srv")] *)
  discosrv : option pystr;
  (** the callback [outgoing]: it is given the context, so it may read
      and change the session state *)
  auth_callback_func :
    Context -> InternalResponse -> gmap string pystr ->
    result Response * gmap string pystr;
  (** [self.converter.to_internal(profile, ava)] *)
  to_internal : pystr -> list (pystr * list pystr) -> list (pystr * list pystr);
  (** [satosa.util.get_saml_name_id_format] *)
  get_saml_name_id_format : pystr -> pystr;
  (** [satosa.util.rndstr]: the n-th random string drawn *)
  rndstr_source : nat -> pystr
}.

(** [self.bindings], set once in [__init__]. *)
Definition bindings : list pystr :=
  [BINDING_HTTP_REDIRECT; BINDING_HTTP_POST].

Definition rndstr (self : SamlBackend) : M pystr :=
  fun w => (Ok (rndstr_source self (w_rnd w)),
            {| w_state := w_state w;
               w_trace := w_trace w;
               w_rnd := S (w_rnd w) |}).

(** Calling the downstream callback with the context. *)
Definition call_auth_callback_func (self : SamlBackend) (context : Context)
    (internal_resp : InternalResponse) : M Response :=
  fun w =>
    let '(r, st) := auth_callback_func self context internal_resp (w_state w) in
    (r, {| w_state := st;
           w_trace := w_trace w ++ [EvCallback internal_resp];
           w_rnd := w_rnd w |}).

(** ** The methods of [SamlBackend] *)

Definition _create_name_id_policy (self : SamlBackend)
    (usr_id_hash_type : pystr) : NameIDPolicy :=
  let nameid_format := get_saml_name_id_format self usr_id_hash_type in
  {| format := nameid_format |}.

(** The [for ... else] over [ht_args["headers"]]: the value of the first
    header named Location, if any. *)
Fixpoint find_location (headers : list (pystr * pystr)) : option pystr :=
  match headers with
  | [] => None
  | (param, value) :: rest =>
      if bool_decide (param = lit "Location") then Some value
      else find_location rest
  end.

(** The [try] block of [authn_request] (lines 133-150). *)
Definition authn_request_try (self : SamlBackend) (entity_id : pystr)
    (req_args : NameIDPolicy) : M (pystr * pystr * http_args) :=
  emit (EvPickBinding entity_id);;
  '(_binding, destination) ←
     lift (pick_binding (sp self) bindings entity_id);
  satosa_logging "binding: %s, destination: %s";;
  acs ← lift (getitem (endpoints (sp self)) "assertion_consumer_service");
  '(endp, return_binding) ← lift (index acs 0);
  emit (EvCreateAuthnRequest destination);;
  '(req_id, req) ←
     lift (create_authn_request (sp self) destination return_binding req_args);
  relay_state ← rndstr self;
  emit (EvApplyBinding _binding relay_state);;
  ht_args ←
     lift (apply_binding (sp self) _binding req destination relay_state);
  satosa_logging "ht_args: %s";;
  ret (_binding, relay_state, ht_args).

Definition authn_request (self : SamlBackend) (context : Context)
    (entity_id : pystr) (internal_req : InternalRequest) : M Response :=
  let hash_type := default (lit "persistent") (config_hash_type self) in
  let req_args := _create_name_id_policy self hash_type in
  '(_binding, relay_state, ht_args) ←
     try_except (authn_request_try self entity_id req_args)
       except_Exception
       (fun exc =>
          satosa_logging "Failed to construct the AuthnRequest for state";;
          raise (SATOSAAuthenticationError
                   "Failed to construct the AuthnRequest"));
  state_add (name self) relay_state;;
  if bool_decide (_binding = BINDING_HTTP_REDIRECT) then
    match find_location (ht_headers ht_args) with
    | Some value => ret (SeeOther value)
    | None =>
        satosa_logging "Parameter error for state";;
        raise (SATOSAAuthenticationError "Parameter error")
    end
  else ret (PlainResponse (ht_data ht_args) (ht_headers ht_args)).

Definition disco_query (self : SamlBackend) (context : Context)
    (internal_req : InternalRequest) : M Response :=
  let eid := entityid (sp self) in
  disco_resp ← lift (getitem (endpoints (sp self)) "discovery_response");
  first ← lift (index disco_resp 0);
  let ret_url := fst first in
  emit (EvDiscoveryRequest ret_url);;
  loc ← lift (create_discovery_service_request (sp self)
                 (discosrv self) eid ret_url);
  ret (SeeOther loc).

(** The value of the mirrored-entity hint, decoded as [start_auth] does
    (line 89): [urlsafe_b64decode(entity_id).decode("utf-8")]. *)
Definition decode_target_entity_id (hint : pystr) : result pystr :=
  rbind (Base64.urlsafe_b64decode hint) Utf8.decode.

Definition start_auth (self : SamlBackend) (context : Context)
    (internal_req : InternalRequest) : M Response :=
  let idps := identity_providers (sp self) in
  if bool_decide (length idps = 1) then
    idp ← lift (index idps 0);
    authn_request self context idp internal_req
  else
    try_except
      (entity_id ←
         lift (getitem (internal_data context) "mirror.target_entity_id");
       entity_id ← lift (decode_target_entity_id entity_id);
       authn_request self context entity_id internal_req)
      except_KeyError
      (fun _ => disco_query self context internal_req).

Definition _translate_response (self : SamlBackend)
    (response : AuthnResponse) : M InternalResponse :=
  _authn_info ← lift (index (authn_info response) 0);
  timestamp ← lift (index (authn_statement response) 0);
  let issuer := response_issuer response in
  let auth_class_ref := fst _authn_info in
  let auth_info := {| auth_class_ref := auth_class_ref;
                      timestamp := timestamp;
                      issuer := issuer |} in
  let internal_resp :=
    {| auth_info := auth_info;
       user_id := subject response;
       attributes :=
         to_internal self (attribute_profile self) (ava response) |} in
  satosa_logging "received attributes:";;
  ret internal_resp.

Definition authn_response (self : SamlBackend) (context : Context)
    (binding : pystr) : M Response :=
  let _authn_response := request context in
  payload ← lift (getitem _authn_response "SAMLResponse");
  if bool_decide (payload = []) then
    satosa_logging "Missing Response for state";;
    raise (SATOSAAuthenticationError "Missing Response")
  else
    _response ←
      try_except
        (payload ← lift (getitem _authn_response "SAMLResponse");
         emit (EvParseResponse payload binding);;
         lift (parse_authn_request_response (sp self) payload binding))
        except_Exception
        (fun err =>
           satosa_logging "Failed to parse authn request for state";;
           raise (SATOSAAuthenticationError "Failed to parse authn request"));
    stored ← state_get (name self);
    relay_state ← lift (getitem _authn_response "RelayState");
    if bool_decide (stored <> Some relay_state) then
      satosa_logging "State did not match relay state for state";;
      raise (SATOSAAuthenticationError "State did not match relay state")
    else
      state_remove (name self);;
      internal_resp ← _translate_response self _response;
      call_auth_callback_func self context internal_resp.

Definition disco_response (self : SamlBackend) (context : Context)
    : M Response :=
  let info := request context in
  match getitem info "entityID" with
  | Raise KeyError =>
      satosa_logging "No IDP chosen for state";;
      raise (SATOSAAuthenticationError "No IDP chosen")
  | Raise e => raise e
  | Ok entity_id =>
      let request_info :=
        {| user_id_hash_type := None; requestor := None |} in
      authn_request self context entity_id request_info
  end.

(** ** Metadata descriptions *)

(** The classes of [satosa.metadata_creation.description] are not among
    the sources; section 3 of the spec gives their content. *)
Module Desc.
(** Modelled from the spec: [OrganizationDesc] is missing; it holds
    names, display names and URLs, each with a language. *)
Record OrganizationDesc := {
  org_name : list (pystr * pystr);
  org_display_name : list (pystr * pystr);
  org_url : list (pystr * pystr)
}.

(** Modelled from the spec: [ContactPersonDesc] is missing; it holds a
    type, e-mail addresses, a given name and a surname. *)
Record ContactPersonDesc := {
  contact_type : option pystr;
  email_address : list pystr;
  given_name : option pystr;
  sur_name : option pystr
}.

(** Modelled from the spec: [UIInfoDesc] is missing; it holds
    descriptions and display names with a language, and logos with
    width, height and language. *)
Record UIInfoDesc := {
  ui_description : list (pystr * pystr);
  ui_display_name : list (pystr * pystr);
  ui_logo : list (pystr * pystr * pystr * pystr)
}.

(** Modelled from the spec: [MetadataDescription] is missing; it is keyed
    by the encoded entity id and holds an optional organization, a
    sequence of contact persons and an optional UI info. *)
Record MetadataDescription := {
  entity_id : pystr;
  organization : option OrganizationDesc;
  contact_person : list ContactPersonDesc;
  ui_info : option UIInfoDesc
}.

(** [MetadataDescription(entity_id)] *)
Definition new (entity_id : pystr) : MetadataDescription :=
  {| entity_id := entity_id; organization := None;
     contact_person := []; ui_info := None |}.

Definition set_organization (o : OrganizationDesc)
    (d : MetadataDescription) : MetadataDescription :=
  {| entity_id := entity_id d; organization := Some o;
     contact_person := contact_person d; ui_info := ui_info d |}.

Definition add_contact_person (p : ContactPersonDesc)
    (d : MetadataDescription) : MetadataDescription :=
  {| entity_id := entity_id d; organization := organization d;
     contact_person := contact_person d ++ [p]; ui_info := ui_info d |}.

Definition set_ui_info (u : UIInfoDesc)
    (d : MetadataDescription) : MetadataDescription :=
  {| entity_id := entity_id d; organization := organization d;
     contact_person := contact_person d; ui_info := Some u |}.

(** [OrganizationDesc()] and its [add_*] methods *)
Definition new_organization : OrganizationDesc :=
  {| org_name := []; org_display_name := []; org_url := [] |}.
Definition add_name (t l : pystr) (o : OrganizationDesc) :=
  {| org_name := org_name o ++ [(t, l)];
     org_display_name := org_display_name o; org_url := org_url o |}.
Definition add_display_name (t l : pystr) (o : OrganizationDesc) :=
  {| org_name := org_name o;
     org_display_name := org_display_name o ++ [(t, l)];
     org_url := org_url o |}.
Definition add_url (t l : pystr) (o : OrganizationDesc) :=
  {| org_name := org_name o; org_display_name := org_display_name o;
     org_url := org_url o ++ [(t, l)] |}.

(** [ContactPersonDesc()] and its setters *)
Definition new_person : ContactPersonDesc :=
  {| contact_type := None; email_address := [];
     given_name := None; sur_name := None |}.
Definition set_contact_type (v : pystr) (p : ContactPersonDesc) :=
  {| contact_type := Some v; email_address := email_address p;
     given_name := given_name p; sur_name := sur_name p |}.
Definition add_email_address (v : pystr) (p : ContactPersonDesc) :=
  {| contact_type := contact_type p;
     email_address := email_address p ++ [v];
     given_name := given_name p; sur_name := sur_name p |}.
Definition set_given_name (v : pystr) (p : ContactPersonDesc) :=
  {| contact_type := contact_type p; email_address := email_address p;
     given_name := Some v; sur_name := sur_name p |}.
Definition set_sur_name (v : pystr) (p : ContactPersonDesc) :=
  {| contact_type := contact_type p; email_address := email_address p;
     given_name := given_name p; sur_name := Some v |}.

(** [UIInfoDesc()] and its [add_*] methods *)
Definition new_ui_info : UIInfoDesc :=
  {| ui_description := []; ui_display_name := []; ui_logo := [] |}.
Definition add_description (t l : pystr) (u : UIInfoDesc) :=
  {| ui_description := ui_description u ++ [(t, l)];
     ui_display_name := ui_display_name u; ui_logo := ui_logo u |}.
Definition add_ui_display_name (t l : pystr) (u : UIInfoDesc) :=
  {| ui_description := ui_description u;
     ui_display_name := ui_display_name u ++ [(t, l)];
     ui_logo := ui_logo u |}.
Definition add_logo (t w h l : pystr) (u : UIInfoDesc) :=
  {| ui_description := ui_description u;
     ui_display_name := ui_display_name u;
     ui_logo := ui_logo u ++ [(t, w, h, l)] |}.
End Desc.

(** A [for] loop whose body updates an object and may raise: the loop
    stops at the first exception, and what the completed iterations did
    to the object stays done. *)
Fixpoint for_each {A S} (l : list A) (body : A -> S -> result S) (s : S)
  : S * result unit :=
  match l with
  | [] => (s, Ok tt)
  | x :: rest =>
      match body x s with
      | Ok s' => for_each rest body s'
      | Raise e => (s, Raise e)
      end
  end.

(** A [for] loop over a local object: an exception leaves nothing. *)
Definition for_local {A S} (l : list A) (body : A -> S -> result S) (s : S)
  : result S :=
  match for_each l body s with
  | (s', Ok _) => Ok s'
  | (_, Raise e) => Raise e
  end.

(** [try: ... except <handled>: pass] around code that updates an
    object. *)
Definition try_pass {S} (handled : exn -> bool) (r : S * result unit)
  : result S :=
  match r with
  | (s, Ok _) => Ok s
  | (s, Raise e) => if handled e then Ok s else Raise e
  end.

Definition UI_NAMESPACE : pystr := lit "urn:oasis:names:tc:SAML:metadata:ui".

(** The key of a description (lines 309-310):
    [urlsafe_b64encode(entity_id.encode("utf-8")).decode("utf-8")]. *)
Definition encode_entity_id (entity_id : pystr) : result pystr :=
  bs ← Utf8.encode entity_id;
  Utf8.decode (Base64.urlsafe_b64encode bs).

(** Lines 313-327: the organization block. *)
Definition organization_block (entity : gmap pystr Md.entity_info)
    (entity_id : pystr) : result Desc.OrganizationDesc :=
  let organization := Desc.new_organization in
  info ← key (entity !! entity_id);
  organization_info ← key (Md.organization info);
  organization ←
    for_local (default [] (Md.organization_name organization_info))
      (fun name_info o =>
         t ← key (Md.text name_info); l ← key (Md.lang name_info);
         Ok (Desc.add_name t l o))
      organization;
  organization ←
    for_local (default [] (Md.organization_display_name organization_info))
      (fun display_name_info o =>
         t ← key (Md.text display_name_info);
         l ← key (Md.lang display_name_info);
         Ok (Desc.add_display_name t l o))
      organization;
  organization ←
    for_local (default [] (Md.organization_url organization_info))
      (fun url_info o =>
         t ← key (Md.text url_info); l ← key (Md.lang url_info);
         Ok (Desc.add_url t l o))
      organization;
  Ok organization.

Definition add_organization_info (entity : gmap pystr Md.entity_info)
    (entity_id : pystr) (description : Desc.MetadataDescription)
  : result Desc.MetadataDescription :=
  try_pass except_Exception
    match organization_block entity entity_id with
    | Ok organization =>
        (Desc.set_organization organization description, Ok tt)
    | Raise e => (description, Raise e)
    end.

(** Lines 333-344: the body of the loop over the contact persons. *)
Definition contact_person_body (cont_pers : Md.contact_person)
    (description : Desc.MetadataDescription)
  : result Desc.MetadataDescription :=
  let person := Desc.new_person in
  let person :=
    match Md.contact_type cont_pers with
    | Some v => Desc.set_contact_type v person
    | None => person
    end in
  person ←
    for_local (default [] (Md.email_address cont_pers))
      (fun address p => t ← key (Md.text address);
                        Ok (Desc.add_email_address t p))
      person;
  person ←
    match Md.given_name cont_pers with
    | Some g => t ← key (Md.text g); Ok (Desc.set_given_name t person)
    | None => Ok person
    end;
  person ←
    match Md.sur_name cont_pers with
    | Some g => t ← key (Md.text g); Ok (Desc.set_sur_name t person)
    | None => Ok person
    end;
  Ok (Desc.add_contact_person person description).

Definition add_contact_person_info (entity : gmap pystr Md.entity_info)
    (entity_id : pystr) (description : Desc.MetadataDescription)
  : result Desc.MetadataDescription :=
  try_pass except_KeyError
    match (info ← key (entity !! entity_id); key (Md.contact_persons info)) with
    | Ok contact_persons =>
        for_each contact_persons contact_person_body description
    | Raise e => (description, Raise e)
    end.

(** Lines 355-364: the loop over the extension elements. *)
Definition ui_element_body (element : Md.element) (ui_info : Desc.UIInfoDesc)
  : result Desc.UIInfoDesc :=
  class ← key (Md.class element);
  if bool_decide (class ≠ UI_NAMESPACE ++ lit "&UIInfo") then Ok ui_info
  else
    ui_info ←
      for_local (default [] (Md.el_description element))
        (fun desc u => t ← key (Md.text desc); l ← key (Md.lang desc);
                       Ok (Desc.add_description t l u))
        ui_info;
    ui_info ←
      for_local (default [] (Md.el_display_name element))
        (fun name u => t ← key (Md.text name); l ← key (Md.lang name);
                       Ok (Desc.add_ui_display_name t l u))
        ui_info;
    for_local (default [] (Md.el_logo element))
      (fun logo u =>
         t ← key (Md.logo_text logo); w ← key (Md.logo_width logo);
         h ← key (Md.logo_height logo); l ← key (Md.logo_lang logo);
         Ok (Desc.add_logo t w h l u))
      ui_info.

(** Lines 350-366: the body of the loop over the IdP SSO descriptors. *)
Definition idpsso_desc_body (idpsso_desc : Md.idpsso_descriptor)
    (description : Desc.MetadataDescription)
  : result Desc.MetadataDescription :=
  extensions ← key (Md.idpsso_extensions idpsso_desc);
  ui_elements ← key (Md.extension_elements extensions);
  ui_info ← for_local ui_elements ui_element_body Desc.new_ui_info;
  Ok (Desc.set_ui_info ui_info description).

Definition add_ui_info (entity : gmap pystr Md.entity_info)
    (entity_id : pystr) (description : Desc.MetadataDescription)
  : result Desc.MetadataDescription :=
  try_pass except_KeyError
    match (info ← key (entity !! entity_id);
           key (Md.idpsso_descriptors info)) with
    | Ok descriptors => for_each descriptors idpsso_desc_body description
    | Raise e => (description, Raise e)
    end.

(** Lines 298-304: the entity ids of one metadata source. *)
Definition entity_ids_of (metadata_file : Md.metadata_file)
  : result (list pystr) :=
  match Md.entity_descr metadata_file with
  | None =>
      match Md.entities_descr metadata_file with
      | Some entities_descr =>
          Ok (map Md.entity_id (Md.entity_descriptor entities_descr))
      | None => Raise AttributeError
      end
  | Some entity_descr => Ok [Md.entity_id entity_descr]
  end.

(** Lines 307-370: the description of one entity. *)
Definition describe_entity (entity : gmap pystr Md.entity_info)
    (entity_id : pystr) : result Desc.MetadataDescription :=
  k ← encode_entity_id entity_id;
  let description := Desc.new k in
  description ← add_organization_info entity entity_id description;
  description ← add_contact_person_info entity entity_id description;
  description ← add_ui_info entity entity_id description;
  Ok description.

Definition describe_file (metadata_file : Md.metadata_file)
    (metadata_desc : list Desc.MetadataDescription)
  : result (list Desc.MetadataDescription) :=
  entity_ids ← entity_ids_of metadata_file;
  let entity := Md.entity metadata_file in
  for_local entity_ids
    (fun entity_id acc =>
       description ← describe_entity entity entity_id;
       Ok (acc ++ [description]))
    metadata_desc.

Definition get_metadata_desc (self : SamlBackend)
  : result (list Desc.MetadataDescription) :=
  for_local (metadata (sp self))
    (fun metadata_file acc => describe_file (snd metadata_file) acc)
    [].

(** Every (source, entity id) pair [get_metadata_desc] visits, in order. *)
Definition entities_of (files : list (string * Md.metadata_file))
  : list (Md.metadata_file * pystr) :=
  concat (map (fun f => match entity_ids_of (snd f) with
                        | Ok ids => map (pair (snd f)) ids
                        | Raise _ => []
                        end) files).

(** What the three blocks leave in the description of one entity: each
    section comes from its own block, and a block that raised leaves the
    section as far as it got. *)
Definition sections_of (entity : gmap pystr Md.entity_info)
    (entity_id k : pystr) : Desc.MetadataDescription :=
  {| Desc.entity_id := k;
     Desc.organization :=
       match organization_block entity entity_id with
       | Ok o => Some o
       | Raise _ => None
       end;
     Desc.contact_person :=
       match (entity !! entity_id) ≫= Md.contact_persons with
       | Some l =>
           Desc.contact_person
             (fst (for_each l contact_person_body (Desc.new k)))
       | None => []
       end;
     Desc.ui_info :=
       match (entity !! entity_id) ≫= Md.idpsso_descriptors with
       | Some l =>
           Desc.ui_info (fst (for_each l idpsso_desc_body (Desc.new k)))
       | None => None
       end |}.

(** A Python [str] that holds text: every code point is a Unicode scalar
    value (no lone surrogate). *)
Definition is_text (s : pystr) : Prop :=
  Forall (fun c => (c < 0x110000)%N /\ Utf8.is_surrogate c = false) s.

(** The name-id policy [authn_request] asks for (lines 129-130). *)
Definition req_args_of (self : SamlBackend) : NameIDPolicy :=
  _create_name_id_policy self
    (default (lit "persistent") (config_hash_type self)).

(** ** A concrete deployment, for evaluating the handlers *)

Module Demo.
Definition idp1 : pystr := lit "https://idp1.example/idp".
Definition idp2 : pystr := lit "https://idp2.example/idp".

Definition response_ok : AuthnResponse :=
  {| authn_info :=
       [(lit "urn:oasis:names:tc:SAML:2.0:ac:classes:Password", [])];
     authn_statement := [lit "2016-01-01T10:00:00Z"];
     response_issuer := idp1;
     subject := lit "user-1";
     ava := [(lit "mail", [lit "user@example.org"])] |}.

Definition file1 : Md.metadata_file :=
  {| Md.entity_descr := Some {| Md.entity_id := idp1 |};
     Md.entities_descr := None;
     Md.entity :=
       {[ idp1 :=
            {| Md.organization :=
                 Some {| Md.organization_name :=
                           Some [ {| Md.text := Some (lit "Example");
                                     Md.lang := None |} ];
                         Md.organization_display_name := None;
                         Md.organization_url := None |};
               Md.contact_persons :=
                 Some [ {| Md.contact_type := Some (lit "technical");
                           Md.email_address :=
                             Some [ {| Md.text := Some (lit "a@example.org");
                                       Md.lang := None |} ];
                           Md.given_name := None;
                           Md.sur_name := None |};
                        {| Md.contact_type := Some (lit "support");
                           Md.email_address := None;
                           Md.given_name :=
                             Some {| Md.text := None; Md.lang := None |};
                           Md.sur_name := None |} ];
               Md.idpsso_descriptors := None |} ]} |}.

(** The client of a proxy that knows the given IdPs: every request is
    sent with the redirect binding, and a payload is accepted unless it
    is the word "garbage". *)
Definition sp_of (idps : list pystr) (location : bool) : SP :=
  {| identity_providers := idps;
     entityid := lit "https://proxy.example/sp";
     endpoints :=
       {[ "assertion_consumer_service" :=
            [(lit "https://proxy.example/acs/post", BINDING_HTTP_POST)];
          "discovery_response" :=
            [(lit "https://proxy.example/disco", lit "disco")] ]};
     pick_binding := fun _ entity_id =>
       if bool_decide (entity_id ∈ idps)
       then Ok (BINDING_HTTP_REDIRECT, entity_id ++ lit "/sso")
       else Raise (ExternalError 1);
     create_authn_request := fun destination _ _ =>
       Ok (lit "id-1", lit "<AuthnRequest/>");
     apply_binding := fun _ _ destination relay_state =>
       Ok {| ht_headers :=
               if location
               then [(lit "Content-Type", lit "text/html");
                     (lit "Location",
                      destination ++ lit "?RelayState=" ++ relay_state)]
               else [(lit "Content-Type", lit "text/html")];
             ht_data := [] |};
     parse_authn_request_response := fun payload _ =>
       if bool_decide (payload = lit "garbage")
       then Raise (ExternalError 2) else Ok response_ok;
     create_discovery_service_request := fun url eid return_url =>
       Ok (default [] url ++ lit "?entityID=" ++ eid
           ++ lit "&return=" ++ return_url);
     metadata := [("idp1.xml", file1)] |}.

Definition backend_of (idps : list pystr) (location : bool) : SamlBackend :=
  {| name := "Saml2";
     sp := sp_of idps location;
     config_hash_type := None;
     attribute_profile := lit "saml";
     discosrv := Some (lit "https://ds.example/role/idp.ds");
     auth_callback_func := fun _ _ st => (Ok (CallbackResponse 200), st);
     to_internal := fun _ a => a;
     get_saml_name_id_format := fun _ =>
       lit "urn:oasis:names:tc:SAML:2.0:nameid-format:persistent";
     rndstr_source := fun n => lit "token-" ++ [48 + N.of_nat n]%N |}.

Definition backend : SamlBackend := backend_of [idp1; idp2] true.
Definition single : SamlBackend := backend_of [idp1] true.
Definition no_location : SamlBackend := backend_of [idp1] false.

Definition world0 : world :=
  {| w_state := ∅; w_trace := []; w_rnd := 0 |}.

(** A session in which the token "Y" is pending. *)
Definition pending : world :=
  {| w_state := {[ "Saml2" := lit "Y" ]}; w_trace := []; w_rnd := 1 |}.

Definition context_of (req data : list (string * pystr)) : Context :=
  {| request := list_to_map req; internal_data := list_to_map data |}.

Definition no_request : InternalRequest :=
  {| user_id_hash_type := None; requestor := None |}.
End Demo.

(** ** Notions used in the statements *)

(** The errors of section 7, as the handlers raise them. *)
Definition CONSTRUCTION_FAILED : exn :=
  SATOSAAuthenticationError "Failed to construct the AuthnRequest".
Definition PARAMETER_ERROR : exn :=
  SATOSAAuthenticationError "Parameter error".
Definition MISSING_RESPONSE : exn :=
  SATOSAAuthenticationError "Missing Response".
Definition PARSE_FAILED : exn :=
  SATOSAAuthenticationError "Failed to parse authn request".
Definition RELAY_STATE_MISMATCH : exn :=
  SATOSAAuthenticationError "State did not match relay state".
Definition NO_IDP_CHOSEN : exn :=
  SATOSAAuthenticationError "No IDP chosen".

(** Appending events to the trace of a world. *)
Definition logged (w : world) (evs : list event) : world :=
  {| w_state := w_state w; w_trace := w_trace w ++ evs; w_rnd := w_rnd w |}.

(** The session state with the token of the backend removed. *)
Definition cleared (self : SamlBackend) (w : world) : world :=
  {| w_state := State.remove (name self) (w_state w);
     w_trace := w_trace w; w_rnd := w_rnd w |}.

(** What [authn_response] does once the relay state was accepted and
    removed (line 205). *)
Definition deliver (self : SamlBackend) (ctx : Context)
    (resp : AuthnResponse) : M Response :=
  internal_resp ← _translate_response self resp;
  call_auth_callback_func self ctx internal_resp.

(** A computation that can raise nothing but [KeyError]. *)
Definition only_KeyError {A} (r : result A) : Prop :=
  forall e, r = Raise e -> e = KeyError.

(** The contact persons a loop adds go after those already there, and
    nothing else of the description changes. *)
Definition with_contacts (d d0 : Desc.MetadataDescription)
  : Desc.MetadataDescription :=
  {| Desc.entity_id := Desc.entity_id d;
     Desc.organization := Desc.organization d;
     Desc.contact_person := Desc.contact_person d ++ Desc.contact_person d0;
     Desc.ui_info := Desc.ui_info d |}.

(** The UI info a loop sets replaces the one there, and nothing else of
    the description changes. *)
Definition with_ui (d d0 : Desc.MetadataDescription)
  : Desc.MetadataDescription :=
  {| Desc.entity_id := Desc.entity_id d;
     Desc.organization := Desc.organization d;
     Desc.contact_person := Desc.contact_person d;
     Desc.ui_info := match Desc.ui_info d0 with
                     | Some u => Some u
                     | None => Desc.ui_info d
                     end |}.

(** The relation between a visited entity and its description. *)
Definition described (fe : Md.metadata_file * pystr)
    (d : Desc.MetadataDescription) : Prop :=
  exists k, encode_entity_id fe.2 = Ok k
            /\ d = sections_of (Md.entity fe.1) fe.2 k.


(** ** The remaining methods *)

(** [_metadata] (lines 254-264). The response stands for the metadata
    document of the configuration it is built from. *)
Definition _metadata (self : SamlBackend) (context : Context) : M Response :=
  satosa_logging "Sending metadata response";;
  ret (MetadataResponse (entityid (sp self))).

(** What an entry of the URL map dispatches to. *)
Inductive endpoint_handler : Type :=
| HandleAuthnResponse (binding : pystr)
| HandleMetadata
| HandleDiscoResponse.

(** ["^%s$" % parsed.path[1:]], where [urlparse_path] stands for
    [urllib.parse.urlparse(...).path], which may raise [ValueError]. *)
Definition url_pattern (urlparse_path : pystr -> result pystr)
    (url : pystr) : result pystr :=
  path ← urlparse_path url;
  Ok (lit "^" ++ drop 1 path ++ lit "$").

(** The truth value of [self.discosrv]: [None] and the empty string are
    false. *)
Definition truthy (v : option pystr) : bool :=
  match v with
  | Some (_ :: _) => true
  | _ => false
  end.

(** [register_endpoints] (lines 266-287). [publish_metadata] is the entry
    of that name in [self.config], if there is one. *)
Definition register_endpoints (self : SamlBackend)
    (publish_metadata : option pystr)
    (urlparse_path : pystr -> result pystr)
  : result (list (pystr * endpoint_handler)) :=
  let url_map := [] in
  let sp_endpoints := endpoints (sp self) in
  acs ← getitem sp_endpoints "assertion_consumer_service";
  url_map ←
    for_local acs
      (fun '(endp, binding) url_map =>
         pattern ← url_pattern urlparse_path endp;
         Ok (url_map ++ [(pattern, HandleAuthnResponse binding)]))
      url_map;
  url_map ←
    match publish_metadata with
    | Some url =>
        pattern ← url_pattern urlparse_path url;
        Ok (url_map ++ [(pattern, HandleMetadata)])
    | None => Ok url_map
    end;
  if truthy (discosrv self) then
    disco ← getitem sp_endpoints "discovery_response";
    for_local disco
      (fun '(endp, binding) url_map =>
         pattern ← url_pattern urlparse_path endp;
         Ok (url_map ++ [(pattern, HandleDiscoResponse)]))
      url_map
  else Ok url_map.

(** ** Notions used in the further statements *)

Definition is_request_step (e : event) : bool :=
  match e with
  | EvCreateAuthnRequest _ | EvApplyBinding _ _ => true
  | _ => false
  end.

(** The internal response [_translate_response] builds from a response
    whose first authentication info and statement are given. *)
Definition translated (self : SamlBackend) (resp : AuthnResponse)
    (info : pystr * list pystr) (instant : pystr) : InternalResponse :=
  {| auth_info := {| auth_class_ref := info.1;
                     timestamp := instant;
                     issuer := response_issuer resp |};
     user_id := subject resp;
     attributes := to_internal self (attribute_profile self) (ava resp) |}.

(** A pattern that matches from the start to the end of a path. *)
Definition anchored (pattern : pystr) : Prop :=
  head pattern = Some 94%N /\ last pattern = Some 36%N
  /\ 2 <= length pattern.

(** The URL map of a backend whose endpoints all have a path: the
    assertion consumer services with their bindings, the metadata
    endpoint if it is published, the discovery responses. *)
Definition url_map_of (path : pystr -> pystr)
    (acs : list (pystr * pystr)) (publish_metadata : option pystr)
    (disco : list (pystr * pystr)) : list (pystr * endpoint_handler) :=
  map (fun eb => (lit "^" ++ drop 1 (path eb.1) ++ lit "$",
                  HandleAuthnResponse eb.2)) acs
  ++ map (fun url => (lit "^" ++ drop 1 (path url) ++ lit "$",
                      HandleMetadata)) (option_list publish_metadata)
  ++ map (fun eb => (lit "^" ++ drop 1 (path eb.1) ++ lit "$",
                     HandleDiscoResponse)) disco.

(** The characters of the URL-safe base64 alphabet, with the pad. *)
Definition is_urlsafe_char (c : N) : bool :=
  ((65 <=? c) && (c <=? 90) || (97 <=? c) && (c <=? 122)
   || (48 <=? c) && (c <=? 57) || (c =? 45) || (c =? 95) || (c =? 61))%N.

(** A localized element with both its text and its language. *)
Definition localized_pair (x : Md.localized) : option (pystr * pystr) :=
  t ← Md.text x; l ← Md.lang x; Some (t, l).

(** The organization a well-formed entry describes: every name,
    display name and URL has a text and a language. *)
Definition organization_of (info : Md.organization_info)
  : option Desc.OrganizationDesc :=
  names ← mapM localized_pair (default [] (Md.organization_name info));
  display_names ←
    mapM localized_pair (default [] (Md.organization_display_name info));
  urls ← mapM localized_pair (default [] (Md.organization_url info));
  Some {| Desc.org_name := names;
          Desc.org_display_name := display_names;
          Desc.org_url := urls |}.

(** The contact person a well-formed entry describes: every e-mail
    address has a text, and so have the given name and the surname when
    they are there. *)
Definition person_of (c : Md.contact_person)
  : option Desc.ContactPersonDesc :=
  emails ← mapM Md.text (default [] (Md.email_address c));
  given ← match Md.given_name c with
          | Some g => Some <$> Md.text g
          | None => Some None
          end;
  sur ← match Md.sur_name c with
        | Some g => Some <$> Md.text g
        | None => Some None
        end;
  Some {| Desc.contact_type := Md.contact_type c;
          Desc.email_address := emails;
          Desc.given_name := given;
          Desc.sur_name := sur |}.

(** The images of the elements of a list up to the first one that has
    none. *)
Fixpoint prefix_map {A B} (f : A -> option B) (l : list A) : list B :=
  match l with
  | [] => []
  | x :: rest =>
      match f x with
      | Some y => y :: prefix_map f rest
      | None => []
      end
  end.


(** An extension element that is a UI info. *)
Definition is_ui_info (element : Md.element) : bool :=
  bool_decide (Md.class element = Some (UI_NAMESPACE ++ lit "&UIInfo")).

(** Further deployments for evaluating the handlers. *)
Module Demo2.
(** A client that sends every request with the POST binding. *)
Definition sp_post : SP :=
  {| identity_providers := [Demo.idp1];
     entityid := entityid (sp Demo.single);
     endpoints := endpoints (sp Demo.single);
     pick_binding := fun _ entity_id =>
       Ok (BINDING_HTTP_POST, entity_id ++ lit "/sso");
     create_authn_request := create_authn_request (sp Demo.single);
     apply_binding := fun _ _ _ relay_state =>
       Ok {| ht_headers := [(lit "Content-Type", lit "text/html")];
             ht_data := lit "<form>" ++ relay_state |};
     parse_authn_request_response :=
       parse_authn_request_response (sp Demo.single);
     create_discovery_service_request :=
       create_discovery_service_request (sp Demo.single);
     metadata := [] |}.

(** A client with the given endpoints and no IdP. *)
Definition sp_with (eps : gmap string (list (pystr * pystr))) : SP :=
  {| identity_providers := [];
     entityid := entityid (sp Demo.single);
     endpoints := eps;
     pick_binding := pick_binding (sp Demo.backend);
     create_authn_request := create_authn_request (sp Demo.single);
     apply_binding := apply_binding (sp Demo.single);
     parse_authn_request_response :=
       parse_authn_request_response (sp Demo.single);
     create_discovery_service_request :=
       create_discovery_service_request (sp Demo.single);
     metadata := [] |}.

(** A client that answers every payload with the given response. *)
Definition sp_answering (resp : AuthnResponse) : SP :=
  {| identity_providers := [Demo.idp1];
     entityid := entityid (sp Demo.single);
     endpoints := endpoints (sp Demo.single);
     pick_binding := pick_binding (sp Demo.single);
     create_authn_request := create_authn_request (sp Demo.single);
     apply_binding := apply_binding (sp Demo.single);
     parse_authn_request_response := fun _ _ => Ok resp;
     create_discovery_service_request :=
       create_discovery_service_request (sp Demo.single);
     metadata := [] |}.

(** A response without any authentication statement. *)
Definition response_bare : AuthnResponse :=
  {| authn_info := authn_info Demo.response_ok;
     authn_statement := [];
     response_issuer := Demo.idp1;
     subject := lit "user-1";
     ava := [] |}.

Definition backend_with (s : SP) (disco : option pystr) : SamlBackend :=
  {| name := "Saml2";
     sp := s;
     config_hash_type := None;
     attribute_profile := lit "saml";
     discosrv := disco;
     auth_callback_func := auth_callback_func Demo.backend;
     to_internal := to_internal Demo.backend;
     get_saml_name_id_format := get_saml_name_id_format Demo.backend;
     rndstr_source := rndstr_source Demo.backend |}.

Definition post : SamlBackend :=
  backend_with sp_post (Some (lit "https://ds.example/role/idp.ds")).

Definition answering_bare : SamlBackend :=
  backend_with (sp_answering response_bare) None.

(** No IdP, no endpoint configured. *)
Definition bare : SamlBackend := backend_with (sp_with ∅) None.

(** A discovery service and no endpoint for its answers. *)
Definition no_disco_endpoint : SamlBackend :=
  backend_with
    (sp_with {[ "assertion_consumer_service" :=
                  [(lit "https://proxy.example/acs/post", BINDING_HTTP_POST)] ]})
    (Some (lit "https://ds.example/role/idp.ds")).

Definition localized_of (t l : string) : Md.localized :=
  {| Md.text := Some (lit t); Md.lang := Some (lit l) |}.

(** A descriptor whose UI info holds one display name. *)
Definition descriptor_named (n : string) : Md.idpsso_descriptor :=
  {| Md.idpsso_extensions :=
       Some {| Md.extension_elements :=
                 Some [ {| Md.class := Some (lit "urn:other&Scope");
                           Md.el_description := None;
                           Md.el_display_name := Some [localized_of "x" "en"];
                           Md.el_logo := None |};
                        {| Md.class := Some (UI_NAMESPACE ++ lit "&UIInfo");
                           Md.el_description := None;
                           Md.el_display_name := Some [localized_of n "en"];
                           Md.el_logo := None |} ] |} |}.

Definition descriptor_bare : Md.idpsso_descriptor :=
  {| Md.idpsso_extensions := None |}.

(** An entity with a well-formed organization and several IdP SSO
    descriptors, the third of which has no extensions. *)
Definition info2 : Md.entity_info :=
  {| Md.organization :=
       Some {| Md.organization_name :=
                 Some [localized_of "Example" "en"; localized_of "Exemple" "fr"];
               Md.organization_display_name := None;
               Md.organization_url :=
                 Some [localized_of "https://example.org" "en"] |};
     Md.contact_persons := None;
     Md.idpsso_descriptors :=
       Some [descriptor_named "A"; descriptor_named "B"; descriptor_bare;
             descriptor_named "C"] |}.

Definition file2 : Md.metadata_file :=
  {| Md.entity_descr := None;
     Md.entities_descr :=
       Some {| Md.entity_descriptor := [ {| Md.entity_id := Demo.idp2 |} ] |};
     Md.entity := {[ Demo.idp2 := info2 ]} |}.

(** A source that holds neither one descriptor nor a list of them. *)
Definition file_empty : Md.metadata_file :=
  {| Md.entity_descr := None; Md.entities_descr := None; Md.entity := ∅ |}.

(** A client with the given metadata sources. *)
Definition sp_reading (files : list (string * Md.metadata_file)) : SP :=
  {| identity_providers := [];
     entityid := entityid (sp Demo.single);
     endpoints := ∅;
     pick_binding := pick_binding (sp Demo.backend);
     create_authn_request := create_authn_request (sp Demo.single);
     apply_binding := apply_binding (sp Demo.single);
     parse_authn_request_response :=
       parse_authn_request_response (sp Demo.single);
     create_discovery_service_request :=
       create_discovery_service_request (sp Demo.single);
     metadata := files |}.

Definition reading_two : SamlBackend :=
  backend_with (sp_reading [("a", Demo.file1); ("b", file2)]) None.

Definition reading_empty : SamlBackend :=
  backend_with (sp_reading [("a", Demo.file1); ("e", file_empty)]) None.

(** An entity with three contact persons, the second of which has a
    given name without text, and one IdP SSO descriptor whose only
    extension element is not a UI info. *)
Definition info3 : Md.entity_info :=
  {| Md.organization := None;
     Md.contact_persons :=
       Some [ {| Md.contact_type := Some (lit "technical");
                 Md.email_address := Some [localized_of "a@example.org" "en"];
                 Md.given_name := None;
                 Md.sur_name := None |};
              {| Md.contact_type := Some (lit "support");
                 Md.email_address := None;
                 Md.given_name := Some {| Md.text := None; Md.lang := None |};
                 Md.sur_name := None |};
              {| Md.contact_type := Some (lit "administrative");
                 Md.email_address := Some [localized_of "c@example.org" "en"];
                 Md.given_name := Some (localized_of "Carol" "en");
                 Md.sur_name := None |} ];
     Md.idpsso_descriptors :=
       Some [ {| Md.idpsso_extensions :=
                   Some {| Md.extension_elements :=
                             Some [ {| Md.class := Some (lit "urn:other&Scope");
                                       Md.el_description := None;
                                       Md.el_display_name := None;
                                       Md.el_logo := None |} ] |} |} ] |}.

Definition file3 : Md.metadata_file :=
  {| Md.entity_descr := Some {| Md.entity_id := Demo.idp1 |};
     Md.entities_descr := None;
     Md.entity := {[ Demo.idp1 := info3 ]} |}.

Definition reading_three : SamlBackend :=
  backend_with (sp_reading [("c", file3)]) None.

(** The path of a URL of the form scheme://host/path. *)
Fixpoint after_slashes (n : nat) (url : pystr) : pystr :=
  match url with
  | [] => []
  | c :: rest =>
      if bool_decide (c = 47%N) then
        match n with
        | O => url
        | S n' => after_slashes n' rest
        end
      else after_slashes n rest
  end.

Definition path_of (url : pystr) : result pystr := Ok (after_slashes 2 url).
End Demo2.

(** ** The listing, stated apart from the code *)

(** A logo with its text, width, height and language. *)
Definition logo_tuple (logo : Md.logo)
  : option (pystr * pystr * pystr * pystr) :=
  t ← Md.logo_text logo; w ← Md.logo_width logo;
  h ← Md.logo_height logo; l ← Md.logo_lang logo;
  Some (t, w, h, l).

(** What one extension element gives the UI info: nothing when it is of
    another class; its descriptions, display names and logos when it is
    a UI info and each of them is whole. An element without a class, or
    a UI info with a malformed entry, cannot be read. *)
Definition element_ui (element : Md.element) : option Desc.UIInfoDesc :=
  class ← Md.class element;
  if bool_decide (class = UI_NAMESPACE ++ lit "&UIInfo") then
    descriptions ← mapM localized_pair (default [] (Md.el_description element));
    display_names ←
      mapM localized_pair (default [] (Md.el_display_name element));
    logos ← mapM logo_tuple (default [] (Md.el_logo element));
    Some {| Desc.ui_description := descriptions;
            Desc.ui_display_name := display_names;
            Desc.ui_logo := logos |}
  else Some Desc.new_ui_info.

(** The UI info of an IdP SSO descriptor whose extension elements can
    all be read: what the elements give, in order. It is empty when no
    element is a UI info. *)
Definition ui_info_of (idpsso_desc : Md.idpsso_descriptor)
  : option Desc.UIInfoDesc :=
  extensions ← Md.idpsso_extensions idpsso_desc;
  elements ← Md.extension_elements extensions;
  parts ← mapM element_ui elements;
  Some {| Desc.ui_description := concat (Desc.ui_description <$> parts);
          Desc.ui_display_name := concat (Desc.ui_display_name <$> parts);
          Desc.ui_logo := concat (Desc.ui_logo <$> parts) |}.

(** The organization section: there only if the entity has an
    organization whose entries are all whole. *)
Definition organization_section (info : option Md.entity_info)
  : option Desc.OrganizationDesc :=
  (info ≫= Md.organization) ≫= organization_of.

(** The contact person section: the persons before the first malformed
    one; none when the entity has no contact persons. *)
Definition contact_person_section (info : option Md.entity_info)
  : list Desc.ContactPersonDesc :=
  match info ≫= Md.contact_persons with
  | Some contact_persons => prefix_map person_of contact_persons
  | None => []
  end.

(** The UI info section: that of the last IdP SSO descriptor before the
    first one that cannot be read; none when there is no such
    descriptor. *)
Definition ui_info_section (info : option Md.entity_info)
  : option Desc.UIInfoDesc :=
  match info ≫= Md.idpsso_descriptors with
  | Some descriptors => last (prefix_map ui_info_of descriptors)
  | None => None
  end.

(** The entity ids a metadata source holds: that of its descriptor, or
    those of its list of descriptors. *)
Definition listed_ids (metadata_file : Md.metadata_file) : list pystr :=
  match Md.entity_descr metadata_file, Md.entities_descr metadata_file with
  | Some entity_descr, _ => [Md.entity_id entity_descr]
  | None, Some entities_descr =>
      Md.entity_id <$> Md.entity_descriptor entities_descr
  | None, None => []
  end.

(** The entities of the sources, in order, each with its source. *)
Definition listed (files : list (string * Md.metadata_file))
  : list (Md.metadata_file * pystr) :=
  f ← files; pair f.2 <$> listed_ids f.2.

(** The description of an entity of a source: its key, and the three
    sections, each from its own part of the metadata of the entity. *)
Definition listed_as (fe : Md.metadata_file * pystr)
    (d : Desc.MetadataDescription) : Prop :=
  encode_entity_id fe.2 = Ok (Desc.entity_id d)
  /\ Desc.organization d = organization_section (Md.entity fe.1 !! fe.2)
  /\ Desc.contact_person d
     = contact_person_section (Md.entity fe.1 !! fe.2)
  /\ Desc.ui_info d = ui_info_section (Md.entity fe.1 !! fe.2).

(** * Proofs *)

Ltac munfold :=
  unfold mbind, M_bind, bind, lift, emit, satosa_logging, rndstr, ret, raise,
    state_add, state_get, state_remove, try_except, call_auth_callback_func
    in *.

(** ** The codecs *)

Ltac elim_divmod a b :=
  let q := fresh "q" in
  let r := fresh "r" in
  let Hdm := fresh "Hdm" in
  let Hlt := fresh "Hlt" in
  pose proof (N.div_mod a b ltac:(lia)) as Hdm;
  pose proof (N.mod_lt a b ltac:(lia)) as Hlt;
  set (q := N.div a b) in *; set (r := N.modulo a b) in *;
  clearbody q r.

Ltac divmod :=
  repeat match goal with
  | |- context [N.div ?a ?b] => elim_divmod a b
  | |- context [N.modulo ?a ?b] => elim_divmod a b
  | H : context [N.div ?a ?b] |- _ => elim_divmod a b
  | H : context [N.modulo ?a ?b] |- _ => elim_divmod a b
  end.

Ltac cmp_step :=
  match goal with
  | |- context [N.ltb ?a ?b] =>
      first [ rewrite (proj2 (N.ltb_lt a b)) by lia
            | rewrite (proj2 (N.ltb_ge a b)) by lia ]
  | |- context [N.leb ?a ?b] =>
      first [ rewrite (proj2 (N.leb_le a b)) by lia
            | rewrite (proj2 (N.leb_gt a b)) by lia ]
  | |- context [N.eqb ?a ?b] =>
      first [ rewrite (proj2 (N.eqb_eq a b)) by lia
            | rewrite (proj2 (N.eqb_neq a b)) by lia ]
  end.

Ltac cmp := repeat (cmp_step; cbn [andb orb negb]).


Section utf8_facts.
Local Open Scope N_scope.

Lemma decode_encode_cp c bs rest :
  Utf8.encode_cp c = Ok bs ->
  Utf8.decode (bs ++ rest) = rmap (cons c) (Utf8.decode rest).
Proof.
  unfold Utf8.encode_cp, Utf8.is_surrogate.
  destruct (N.ltb_spec c 0x80).
  { intros [= <-]. simpl. by cmp. }
  destruct (N.ltb_spec c 0x800).
  { intros [= <-]. cbn [app Utf8.decode]. unfold Utf8.is_cont.
    divmod. cmp. do 2 f_equal. lia. }
  destruct (N.ltb_spec c 0x10000).
  { destruct (N.leb_spec 0xD800 c); destruct (N.leb_spec c 0xDFFF); simpl;
     try discriminate; intros [= <-]; cbn [app Utf8.decode]; cbv zeta;
      unfold Utf8.is_cont, Utf8.is_surrogate;
    divmod; cmp; do 2 f_equal; lia. }
  destruct (N.ltb_spec c 0x110000); [|discriminate].
  intros [= <-]; cbn [app Utf8.decode]; cbv zeta;
      unfold Utf8.is_cont, Utf8.is_surrogate;
    divmod; cmp; do 2 f_equal; lia.
Qed.

Lemma decode_encode s bs : Utf8.encode s = Ok bs -> Utf8.decode bs = Ok s.
Proof.
  revert bs. induction s as [|c s IH]; intros bs; simpl.
  - by intros [= <-].
  - destruct (Utf8.encode_cp c) as [b|] eqn:Ec; simpl; [|done].
    destruct (Utf8.encode s) as [bs'|]; simpl; [|done].
    intros [= <-]. rewrite (decode_encode_cp _ _ _ Ec), (IH _ eq_refl). done.
Qed.

Lemma encode_cp_bytes c bs : Utf8.encode_cp c = Ok bs -> Forall (fun b => b < 256) bs.
Proof.
  unfold Utf8.encode_cp, Utf8.is_surrogate.
  repeat match goal with |- context [N.ltb ?a ?b] => destruct (N.ltb_spec a b) end;
  try match goal with |- context [(?a && ?b)%bool] => destruct (a && b)%bool end;
  try discriminate; intros [= <-]; divmod; repeat constructor; lia.
Qed.

Lemma encode_total s :
  Forall (fun c => c < 0x110000 /\ Utf8.is_surrogate c = false) s ->
  exists bs, Utf8.encode s = Ok bs.
Proof.
  induction 1 as [|c s [Hc Hs] _ [bs IH]]; simpl; [by eexists|].
  rewrite IH. unfold Utf8.encode_cp. rewrite Hs.
  repeat match goal with |- context [N.ltb ?a ?b] => destruct (N.ltb_spec a b) end;
   simpl; try by eexists. lia.
Qed.

Lemma decode_ascii s :
  forallb (fun c => c <? 128) s = true -> Utf8.decode s = Ok s.
Proof.
  induction s as [|c s IH]; simpl; [done|].
  intros [Hc Hs]%andb_prop. rewrite Hc, (IH Hs). done.
Qed.

End utf8_facts.

Section base64_facts.
Local Open Scope N_scope.
Import Base64.

Lemma table_b2a_cases i :
  i < 64 ->
  (i < 26 /\ table_b2a i = 65 + i) \/ (26 <= i < 52 /\ table_b2a i = 71 + i)
  \/ (52 <= i < 62 /\ table_b2a i = i - 4) \/ (i = 62 /\ table_b2a i = 43)
  \/ (i = 63 /\ table_b2a i = 47).
Proof.
  intros Hi. unfold table_b2a.
  destruct (N.ltb_spec i 26); [lia|].
  destruct (N.ltb_spec i 52); [lia|].
  destruct (N.ltb_spec i 62); [lia|].
  destruct (N.eqb_spec i 62); lia.
Qed.

Lemma table_a2b_b2a i : i < 64 -> table_a2b (table_b2a i) = Some i.
Proof.
  intros Hi. unfold table_a2b.
  destruct (table_b2a_cases i Hi) as [[? ->]|[[? ->]|[[? ->]|[[? ->]|[? ->]]]]];
    cmp; f_equal; lia.
Qed.

Lemma table_b2a_not_pad i : i < 64 -> (table_b2a i =? BASE64_PAD) = false.
Proof.
  intros Hi. unfold BASE64_PAD.
  destruct (table_b2a_cases i Hi) as [[? ->]|[[? ->]|[[? ->]|[[? ->]|[? ->]]]]];
    apply N.eqb_neq; lia.
Qed.

Lemma urlsafe_translation_inv i :
  i < 64 ->
  urlsafe_decode_translation (urlsafe_encode_translation (table_b2a i))
  = table_b2a i.
Proof.
  intros Hi. unfold urlsafe_decode_translation, urlsafe_encode_translation.
  destruct (table_b2a_cases i Hi) as [[? ->]|[[? ->]|[[? ->]|[[? ->]|[? ->]]]]];
    cmp; lia.
Qed.

Lemma urlsafe_char_ascii i :
  i < 64 -> (urlsafe_encode_translation (table_b2a i) <? 128) = true.
Proof.
  intros Hi. unfold urlsafe_encode_translation.
  destruct (table_b2a_cases i Hi) as [[? ->]|[[? ->]|[[? ->]|[[? ->]|[? ->]]]]];
    by cmp.
Qed.

Lemma a2b_loop_data i r quad_pos leftchar pads :
  i < 64 ->
  a2b_loop (table_b2a i :: r) quad_pos leftchar pads =
    if quad_pos =? 0 then a2b_loop r 1 i 0
    else if quad_pos =? 1 then
      rmap (cons (leftchar * 4 + i / 16)) (a2b_loop r 2 (i mod 16) 0)
    else if quad_pos =? 2 then
      rmap (cons (leftchar * 16 + i / 4)) (a2b_loop r 3 (i mod 4) 0)
    else rmap (cons (leftchar * 64 + i)) (a2b_loop r 0 0 0).
Proof.
  intros Hi. cbn [a2b_loop].
  by rewrite (table_b2a_not_pad i Hi), (table_a2b_b2a i Hi).
Qed.

Lemma sextet_bounds a b c :
  a < 256 -> b < 256 -> c < 256 ->
  a / 4 < 64 /\ (a mod 4) * 16 + b / 16 < 64
  /\ (b mod 16) * 4 + c / 64 < 64 /\ c mod 64 < 64
  /\ (a mod 4) * 16 < 64 /\ (b mod 16) * 4 < 64.
Proof. intros. divmod. lia. Qed.

Lemma rmap_rmap {A B C} (f : A -> B) (g : B -> C) r :
  rmap g (rmap f r) = rmap (fun x => g (f x)) r.
Proof. by destruct r. Qed.

Lemma a2b_b2a_triple a b c r :
  a < 256 -> b < 256 -> c < 256 ->
  a2b_loop (b2a_base64 (a :: b :: c :: r)) 0 0 0
  = rmap (fun t => a :: b :: c :: t) (a2b_loop (b2a_base64 r) 0 0 0).
Proof.
  intros Ha Hb Hc.
  destruct (sextet_bounds a b c Ha Hb Hc) as (H1 & H2 & H3 & H4 & _).
  cbn [b2a_base64].
  do 4 (rewrite a2b_loop_data by done; cbn [N.eqb Pos.eqb]).
  rewrite !rmap_rmap.
  destruct (a2b_loop (b2a_base64 r) 0 0 0); cbn; [|done].
  f_equal. clear H1 H2 H3 H4. f_equal; [|f_equal; [|f_equal]]; divmod; lia.
Qed.

Lemma a2b_b2a_one a : a < 256 -> a2b_loop (b2a_base64 [a]) 0 0 0 = Ok [a].
Proof.
  intros Ha.
  destruct (sextet_bounds a 0 0 Ha) as (H1 & _ & _ & _ & H2 & _); [lia..|].
  cbn [b2a_base64].
  do 2 (rewrite a2b_loop_data by done; cbn [N.eqb Pos.eqb]).
  cbn. cmp. cbn. do 2 f_equal. divmod. lia.
Qed.

Lemma a2b_b2a_two a b :
  a < 256 -> b < 256 -> a2b_loop (b2a_base64 [a; b]) 0 0 0 = Ok [a; b].
Proof.
  intros Ha Hb.
  destruct (sextet_bounds a b 0 Ha Hb) as (H1 & H2 & _ & _ & _ & H3); [lia|].
  cbn [b2a_base64].
  do 3 (rewrite a2b_loop_data by done; cbn [N.eqb Pos.eqb]).
  cbn. cmp. cbn. f_equal. f_equal; [|f_equal]; divmod; lia.
Qed.

Lemma a2b_b2a bs :
  Forall (fun b => b < 256) bs -> a2b_base64 (b2a_base64 bs) = Ok bs.
Proof.
  unfold a2b_base64.
  remember (length bs) as n eqn:Hn. revert bs Hn.
  induction n as [n IH] using (well_founded_induction lt_wf).
  intros [|a [|b [|c r]]] Hn Hall.
  - done.
  - inversion_clear Hall. by apply a2b_b2a_one.
  - inversion_clear Hall as [|?? Ha Hall']. inversion_clear Hall'.
    by apply a2b_b2a_two.
  - inversion_clear Hall as [|?? Ha Hall']. inversion_clear Hall' as [|?? Hb Hall''].
    inversion_clear Hall'' as [|?? Hc Hr].
    rewrite a2b_b2a_triple by done.
    rewrite (IH (length r)); [done| |done|done]. subst n. simpl. lia.
Qed.

Lemma b2a_sextets bs :
  Forall (fun b => b < 256) bs ->
  Forall (fun ch => ch = BASE64_PAD \/ exists i, i < 64 /\ ch = table_b2a i)
         (b2a_base64 bs).
Proof.
  remember (length bs) as n eqn:Hn. revert bs Hn.
  induction n as [n IH] using (well_founded_induction lt_wf).
  intros [|a [|b [|c r]]] Hn Hall; cbn [b2a_base64].
  - constructor.
  - inversion_clear Hall as [|?? Ha _].
    destruct (sextet_bounds a 0 0 Ha) as (H1 & _ & _ & _ & H2 & _); [lia..|].
    repeat (constructor; [by eauto|]). constructor.
  - inversion_clear Hall as [|?? Ha Hall']. inversion_clear Hall' as [|?? Hb _].
    destruct (sextet_bounds a b 0 Ha Hb) as (H1 & H2 & _ & _ & _ & H3); [lia|].
    repeat (constructor; [by eauto|]). constructor.
  - inversion_clear Hall as [|?? Ha Hall']. inversion_clear Hall' as [|?? Hb Hall''].
    inversion_clear Hall'' as [|?? Hc Hr].
    destruct (sextet_bounds a b c Ha Hb Hc) as (H1 & H2 & H3 & H4 & _).
    repeat (constructor; [by eauto|]).
    apply (IH (length r)); [|done|done]. subst n. simpl. lia.
Qed.

Lemma urlsafe_roundtrip_chars bs :
  Forall (fun b => b < 256) bs ->
  map urlsafe_decode_translation (urlsafe_b64encode bs) = b2a_base64 bs
  /\ forallb (fun c => c <? 128) (urlsafe_b64encode bs) = true.
Proof.
  intros Hall. unfold urlsafe_b64encode.
  induction (b2a_sextets bs Hall) as [|ch l [->|(i & Hi & ->)] _ [IH1 IH2]];
    cbn [map forallb].
  - done.
  - by rewrite IH1, IH2.
  - by rewrite IH1, IH2, urlsafe_translation_inv, urlsafe_char_ascii.
Qed.

Lemma urlsafe_b64decode_encode bs :
  Forall (fun b => b < 256) bs ->
  urlsafe_b64decode (urlsafe_b64encode bs) = Ok bs.
Proof.
  intros Hall. destruct (urlsafe_roundtrip_chars bs Hall) as [H1 H2].
  unfold urlsafe_b64decode, bytes_from_decode_types. rewrite H2. cbn.
  rewrite H1. by apply a2b_b2a.
Qed.

End base64_facts.

(** The codecs on a few inputs, as the Python library answers them. *)
Example urlsafe_b64encode_ex :
  Base64.urlsafe_b64encode (lit "hi?") = lit "aGk_".
Proof. reflexivity. Qed.

Example urlsafe_b64decode_ex :
  Base64.urlsafe_b64decode (lit "aGk_") = Ok (lit "hi?")
  /\ Base64.urlsafe_b64decode (lit "_w==") = Ok [255%N]
  /\ Base64.urlsafe_b64decode (lit "AA==AA") = Ok [0%N]
  /\ Base64.urlsafe_b64decode (lit "====") = Ok []
  /\ Base64.urlsafe_b64decode (lit "A") = Raise BinasciiError
  /\ Base64.urlsafe_b64decode (lit "AA=") = Raise BinasciiError
  /\ Base64.urlsafe_b64decode (lit "AA=A") = Raise BinasciiError
  /\ Base64.urlsafe_b64decode [233%N] = Raise ValueError.
Proof. vm_compute. repeat split. Qed.

Example utf8_ex :
  Utf8.encode [0x20AC%N] = Ok [0xE2; 0x82; 0xAC]%N
  /\ Utf8.decode [0xE2; 0x82; 0xAC]%N = Ok [0x20AC%N]
  /\ Utf8.decode [255%N] = Raise UnicodeDecodeError
  /\ Utf8.decode [0xC0; 0x80]%N = Raise UnicodeDecodeError
  /\ Utf8.decode [0xED; 0xA0; 0x80]%N = Raise UnicodeDecodeError
  /\ Utf8.encode [0xD800%N] = Raise UnicodeEncodeError.
Proof. vm_compute. repeat split. Qed.

(** ** The mirrored-entity hint *)

Lemma utf8_encode_bytes s bs :
  Utf8.encode s = Ok bs -> Forall (fun b => (b < 256)%N) bs.
Proof.
  revert bs. induction s as [|c s IH]; intros bs; simpl.
  - intros [= <-]. constructor.
  - destruct (Utf8.encode_cp c) as [b|] eqn:Ec; simpl; [|done].
    destruct (Utf8.encode s) as [bs'|]; simpl; [|done].
    intros [= <-]. apply Forall_app. split; [by eapply encode_cp_bytes|].
    by apply IH.
Qed.

(** C5: the key under which [get_metadata_desc] lists an entity decodes,
    the way [start_auth] decodes the hint, to the entity id it was made
    from. *)
Theorem entity_id_roundtrip entity_id hint :
  encode_entity_id entity_id = Ok hint ->
  decode_target_entity_id hint = Ok entity_id.
Proof.
  unfold encode_entity_id, decode_target_entity_id, mbind, result_bind.
  destruct (Utf8.encode entity_id) as [bs|] eqn:Henc; cbn [rbind]; [|done].
  pose proof (utf8_encode_bytes _ _ Henc) as Hbytes.
  destruct (urlsafe_roundtrip_chars bs Hbytes) as [_ Hascii].
  rewrite (decode_ascii _ Hascii). intros [= <-].
  rewrite (urlsafe_b64decode_encode bs Hbytes). cbn [rbind].
  by apply decode_encode.
Qed.

Lemma entity_id_roundtrip_witness :
  encode_entity_id [0x68; 0xE9; 0x20AC; 0x1F600]%N = Ok (lit "aMOp4oKs8J-YgA==")
  /\ decode_target_entity_id (lit "aMOp4oKs8J-YgA==")
     = Ok [0x68; 0xE9; 0x20AC; 0x1F600]%N.
Proof.
  split.
  - vm_compute. reflexivity.
  - apply entity_id_roundtrip. vm_compute. reflexivity.
Defined.

(** Text is always encodable. *)
Lemma encode_entity_id_total entity_id :
  is_text entity_id -> exists k, encode_entity_id entity_id = Ok k.
Proof.
  intros Htext. destruct (encode_total _ Htext) as [bs Henc].
  unfold encode_entity_id, mbind, result_bind. rewrite Henc. cbn [rbind].
  destruct (urlsafe_roundtrip_chars bs (utf8_encode_bytes _ _ Henc))
    as [_ Hascii].
  eexists. by apply decode_ascii.
Qed.

(** ** The handlers *)

Section handlers.
Context (self : SamlBackend).

Lemma authn_request_try_state e pol w :
  w_state (authn_request_try self e pol w).2 = w_state w.
Proof.
  unfold authn_request_try. munfold. simpl.
  repeat (case_match; simplify_eq/=); done.
Qed.

Lemma authn_request_try_discovery e pol w :
  filter is_discovery (w_trace (authn_request_try self e pol w).2)
  = filter is_discovery (w_trace w).
Proof.
  unfold authn_request_try. munfold. simpl.
  repeat (case_match; simplify_eq/=); rewrite ?filter_app; simpl;
    rewrite ?app_nil_r; done.
Qed.

(** [authn_request], with the [try] block taken as one step. *)
Lemma authn_request_unfold ctx e req w :
  authn_request self ctx e req w =
  match authn_request_try self e (req_args_of self) w with
  | (Ok (_binding, relay_state, ht_args), w1) =>
      let w2 :=
        {| w_state := State.add (name self) relay_state (w_state w1);
           w_trace := w_trace w1; w_rnd := w_rnd w1 |} in
      if bool_decide (_binding = BINDING_HTTP_REDIRECT) then
        match find_location (ht_headers ht_args) with
        | Some value => (Ok (SeeOther value), w2)
        | None =>
            (Raise PARAMETER_ERROR, logged w2 [EvLog "Parameter error for state"])
        end
      else (Ok (PlainResponse (ht_data ht_args) (ht_headers ht_args)), w2)
  | (Raise exc, w1) =>
      (Raise CONSTRUCTION_FAILED,
       logged w1 [EvLog "Failed to construct the AuthnRequest for state"])
  end.
Proof.
  unfold authn_request, req_args_of.
  unfold mbind at 1, M_bind at 1, bind at 1, try_except.
  destruct (authn_request_try _ _ _ w) as [[[[b rs] ht]|exc] w1]; simpl.
  - munfold. simpl. repeat case_match; done.
  - munfold. done.
Qed.

(** The context is only a handle on the session state. *)
Lemma authn_request_context ctx ctx' e req req' w :
  authn_request self ctx e req w = authn_request self ctx' e req' w.
Proof. reflexivity. Qed.

Lemma authn_request_raises ctx e req w exc :
  (authn_request self ctx e req w).1 = Raise exc ->
  exc = CONSTRUCTION_FAILED \/ exc = PARAMETER_ERROR.
Proof.
  rewrite authn_request_unfold.
  destruct (authn_request_try _ _ _ w) as [[[[b rs] ht]|exc'] w1]; simpl.
  - repeat case_match; simpl; intros; simplify_eq; auto.
  - intros; simplify_eq; auto.
Qed.

Lemma authn_request_discovery ctx e req w :
  filter is_discovery (w_trace (authn_request self ctx e req w).2)
  = filter is_discovery (w_trace w).
Proof.
  rewrite authn_request_unfold.
  pose proof (authn_request_try_discovery e (req_args_of self) w) as H.
  destruct (authn_request_try _ _ _ w) as [[[[b rs] ht]|exc'] w1];
    simpl in *; repeat case_match; simpl;
    rewrite ?filter_app, ?app_nil_r; done.
Qed.

(** When the [try] block succeeded, the token it drew is stored under
    the name of the backend. *)
Lemma authn_request_stores_token ctx e req w b rs ht w1 :
  authn_request_try self e (req_args_of self) w = (Ok (b, rs, ht), w1) ->
  w_state (authn_request self ctx e req w).2
  = State.add (name self) rs (w_state w).
Proof.
  intros Htry. rewrite authn_request_unfold, Htry.
  pose proof (authn_request_try_state e (req_args_of self) w) as Hst.
  rewrite Htry in Hst. simpl in *.
  repeat case_match; simpl; by rewrite Hst.
Qed.

Lemma find_location_None headers :
  find_location headers = None <->
  ~ exists value, (lit "Location", value) ∈ headers.
Proof.
  induction headers as [|[p v] rest IH]; cbn [find_location].
  - split; [intros _ [v Hv]; by apply elem_of_nil in Hv|done].
  - case_bool_decide as Hp.
    + split; [done|]. intros H. destruct H. exists v. subst p. left.
    + rewrite IH. split.
      * intros H [x Hx]. apply elem_of_cons in Hx as [Hx|Hx].
        -- by simplify_eq.
        -- apply H. by exists x.
      * intros H [x Hx]. apply H. exists x. by right.
Qed.

Lemma find_location_first pre value post :
  (forall p x, (p, x) ∈ pre -> p <> lit "Location") ->
  find_location (pre ++ (lit "Location", value) :: post) = Some value.
Proof.
  induction pre as [|[p x] pre IH]; cbn [app find_location]; intros Hpre.
  - by case_bool_decide.
  - case_bool_decide as Hp.
    + destruct (Hpre p x); [left|done].
    + apply IH. intros p' x' Hin. apply (Hpre p' x'). by right.
Qed.
End handlers.

(** ** authn_request *)

(** C10: when [authn_request] raises the request-construction error, the
    session state is the one the caller supplied: no relay-state token
    has been stored under the name of the backend. *)
Theorem authn_request_failure_keeps_state self ctx e req w :
  (authn_request self ctx e req w).1 = Raise CONSTRUCTION_FAILED ->
  w_state (authn_request self ctx e req w).2 = w_state w.
Proof.
  rewrite authn_request_unfold.
  pose proof (authn_request_try_state self e (req_args_of self) w) as Hst.
  destruct (authn_request_try _ _ _ w) as [[[[b rs] ht]|exc] w1]; simpl in *.
  - repeat case_match; simpl; intros; simplify_eq.
  - done.
Qed.

Lemma authn_request_failure_keeps_state_witness :
  (authn_request Demo.backend (Demo.context_of [] [])
     (lit "https://unknown.example/idp") Demo.no_request Demo.pending).1
  = Raise CONSTRUCTION_FAILED
  /\ w_state
       (authn_request Demo.backend (Demo.context_of [] [])
          (lit "https://unknown.example/idp") Demo.no_request
          Demo.pending).2
     = w_state Demo.pending.
Proof.
  split.
  - vm_compute. reflexivity.
  - apply authn_request_failure_keeps_state. vm_compute. reflexivity.
Defined.

(** C7: after a request was built and serialized with the redirect
    binding, [authn_request] raises the parameter error when the headers
    hold no Location entry, and otherwise answers with a redirect to the
    value of the first Location entry. *)
Theorem authn_request_redirect_location self ctx e req w rs ht w1 :
  authn_request_try self e (req_args_of self) w
    = (Ok (BINDING_HTTP_REDIRECT, rs, ht), w1) ->
  ((~ exists value, (lit "Location", value) ∈ ht_headers ht) ->
   (authn_request self ctx e req w).1 = Raise PARAMETER_ERROR)
  /\ (forall pre value post,
        ht_headers ht = pre ++ (lit "Location", value) :: post ->
        (forall p x, (p, x) ∈ pre -> p <> lit "Location") ->
        (authn_request self ctx e req w).1 = Ok (SeeOther value)).
Proof.
  intros Htry. rewrite authn_request_unfold, Htry. cbv zeta.
  rewrite bool_decide_eq_true_2 by done. split.
  - intros Hno%find_location_None. by rewrite Hno.
  - intros pre value post -> Hpre. by rewrite find_location_first.
Qed.

Lemma authn_request_redirect_location_witness :
  (authn_request Demo.no_location (Demo.context_of [] []) Demo.idp1
     Demo.no_request Demo.world0).1 = Raise PARAMETER_ERROR
  /\ (authn_request Demo.single (Demo.context_of [] []) Demo.idp1
        Demo.no_request Demo.world0).1
     = Ok (SeeOther (Demo.idp1 ++ lit "/sso?RelayState=token-0")).
Proof.
  split.
  - eapply (proj1 (authn_request_redirect_location Demo.no_location
                     (Demo.context_of [] []) Demo.idp1 Demo.no_request
                     Demo.world0 _ _ _ eq_refl)).
    intros [value Hin]. vm_compute in Hin.
    apply list_elem_of_singleton in Hin. discriminate.
  - eapply (proj2 (authn_request_redirect_location Demo.single
                     (Demo.context_of [] []) Demo.idp1 Demo.no_request
                     Demo.world0 _ _ _ eq_refl)
              [(lit "Content-Type", lit "text/html")] _ []).
    + vm_compute. reflexivity.
    + intros p x Hin. apply list_elem_of_singleton in Hin.
      injection Hin as -> _. discriminate.
Defined.

(** ** disco_response *)

(** C9: [disco_response] raises the "no IdP chosen" error exactly when
    the request has no entityID parameter; with one, it is
    [authn_request] for that entity id and an empty internal request. *)
Theorem disco_response_entity_id self ctx w :
  ((disco_response self ctx w).1 = Raise NO_IDP_CHOSEN
   <-> request ctx !! "entityID" = None)
  /\ (forall entity_id,
        request ctx !! "entityID" = Some entity_id ->
        disco_response self ctx w
        = authn_request self ctx entity_id
            {| user_id_hash_type := None; requestor := None |} w).
Proof.
  unfold disco_response, getitem.
  destruct (request ctx !! "entityID") as [entity_id|] eqn:Hreq.
  - split; [|by intros ? [= <-]].
    split; [|done]. intros Hraise.
    by destruct (authn_request_raises _ _ _ _ _ _ Hraise).
  - split; [|done]. split; [done|]. intros _. by munfold.
Qed.

(** ** start_auth *)

(** C4: with exactly one IdP in the metadata, [start_auth] is
    [authn_request] for that IdP: the outcome does not depend on the data
    attached to the request, where the mirrored-entity hint lives, and no
    request to the discovery service is made. *)
Theorem start_auth_single_idp self ctx req w :
  length (identity_providers (sp self)) = 1 ->
  exists idp,
    identity_providers (sp self) = [idp]
    /\ start_auth self ctx req w = authn_request self ctx idp req w
    /\ (forall data,
          start_auth self {| request := request ctx; internal_data := data |}
            req w
          = start_auth self ctx req w)
    /\ filter is_discovery (w_trace (start_auth self ctx req w).2)
       = filter is_discovery (w_trace w).
Proof.
  intros Hlen.
  destruct (identity_providers (sp self)) as [|idp [|]] eqn:Hidps;
    try discriminate.
  exists idp.
  assert (Hstart : forall c, start_auth self c req w
                             = authn_request self c idp req w).
  { intros c. unfold start_auth. rewrite Hidps. by munfold. }
  split; [done|]. split; [apply Hstart|]. split.
  - intros data. rewrite !Hstart. apply authn_request_context.
  - rewrite Hstart. apply authn_request_discovery.
Qed.

Lemma start_auth_single_idp_witness :
  exists idp,
    identity_providers (sp Demo.single) = [idp]
    /\ start_auth Demo.single
         (Demo.context_of [] [("mirror.target_entity_id", lit "_w==")])
         Demo.no_request Demo.world0
       = authn_request Demo.single
           (Demo.context_of [] [("mirror.target_entity_id", lit "_w==")])
           idp Demo.no_request Demo.world0.
Proof.
  destruct (start_auth_single_idp Demo.single
              (Demo.context_of [] [("mirror.target_entity_id", lit "_w==")])
              Demo.no_request Demo.world0 eq_refl)
    as (idp & Hidp & Hstart & _).
  exists idp. split; [exact Hidp|exact Hstart].
Defined.

Lemma a2b_loop_raises s quad_pos leftchar pads e :
  Base64.a2b_loop s quad_pos leftchar pads = Raise e -> e = BinasciiError.
Proof.
  revert quad_pos leftchar pads.
  induction s as [|ch s IH]; intros quad_pos leftchar pads; simpl.
  - by case_match; intros; simplify_eq.
  - repeat case_match; try (intros; by simplify_eq); try apply IH;
      unfold rmap, rbind; case_match eqn:Hr; intros; simplify_eq;
      by eapply IH.
Qed.

Lemma utf8_decode_raises bs e :
  Utf8.decode bs = Raise e -> e = UnicodeDecodeError.
Proof.
  remember (length bs) as n eqn:Hn. revert bs Hn.
  induction n as [n IH] using (well_founded_induction lt_wf).
  intros bs Hn. destruct bs as [|b0 r0]; [done|].
  cbn [Utf8.decode]. cbv zeta.
  assert (Hrec : forall r, length r < n ->
            forall f : pystr -> pystr,
              rmap f (Utf8.decode r) = Raise e -> e = UnicodeDecodeError).
  { intros r Hr f. unfold rmap, rbind.
    destruct (Utf8.decode r) eqn:Hd; [done|].
    intros [= <-]. by eapply (IH (length r)). }
  subst n. simpl in Hrec.
  repeat case_match; try (intros; by simplify_eq);
    apply Hrec; simpl; lia.
Qed.

(** The hint never fails to decode with a [KeyError]. *)
Lemma decode_target_entity_id_raises hint e :
  decode_target_entity_id hint = Raise e ->
  e = ValueError \/ e = BinasciiError \/ e = UnicodeDecodeError.
Proof.
  unfold decode_target_entity_id, Base64.urlsafe_b64decode,
    Base64.bytes_from_decode_types, Base64.a2b_base64.
  destruct (forallb _ hint); cbn [rbind]; [|intros; simplify_eq; auto].
  destruct (Base64.a2b_loop _ _ _ _) eqn:Ha; cbn [rbind].
  - intros ->%utf8_decode_raises. auto.
  - apply a2b_loop_raises in Ha. intros; simplify_eq; auto.
Qed.

(** C3, as amended: with more than one IdP configured, a request without
    the mirrored-entity hint is handed to [disco_query]; a hint that does
    not decode makes [start_auth] raise the decoding error, and nothing
    else happens. *)
Theorem start_auth_without_usable_hint self ctx req w :
  1 < length (identity_providers (sp self)) ->
  (internal_data ctx !! "mirror.target_entity_id" = None ->
   start_auth self ctx req w = disco_query self ctx req w)
  /\ (forall hint e,
        internal_data ctx !! "mirror.target_entity_id" = Some hint ->
        decode_target_entity_id hint = Raise e ->
        start_auth self ctx req w = (Raise e, w)).
Proof.
  intros Hlen. unfold start_auth.
  rewrite bool_decide_eq_false_2 by lia. split.
  - intros Hhint. munfold. unfold getitem. by rewrite Hhint.
  - intros hint e Hhint Hdec. munfold. unfold getitem.
    rewrite Hhint, Hdec.
    by destruct (decode_target_entity_id_raises _ _ Hdec) as [->|[->| ->]].
Qed.

Lemma start_auth_without_usable_hint_witness :
  start_auth Demo.backend (Demo.context_of [] []) Demo.no_request Demo.world0
  = disco_query Demo.backend (Demo.context_of [] []) Demo.no_request
      Demo.world0
  /\ start_auth Demo.backend
       (Demo.context_of [] [("mirror.target_entity_id", lit "_w==")])
       Demo.no_request Demo.world0
     = (Raise UnicodeDecodeError, Demo.world0).
Proof.
  split.
  - apply start_auth_without_usable_hint; [vm_compute; lia|reflexivity].
  - eapply (proj2 (start_auth_without_usable_hint Demo.backend _ _ _ _)).
    + reflexivity.
    + vm_compute. reflexivity.
  Unshelve. vm_compute. lia.
Defined.

(** C3 as first stated fails: two IdPs are configured and the hint
    "_w==" is the base64 of the octet 255, which is not UTF-8; [start_auth]
    raises and the discovery service is not asked. *)
Lemma start_auth_undecodable_hint_raises :
  length (identity_providers (sp Demo.backend)) = 2
  /\ decode_target_entity_id (lit "_w==") = Raise UnicodeDecodeError
  /\ (start_auth Demo.backend
        (Demo.context_of [] [("mirror.target_entity_id", lit "_w==")])
        Demo.no_request Demo.world0).1 = Raise UnicodeDecodeError
  /\ filter is_discovery
       (w_trace
          (start_auth Demo.backend
             (Demo.context_of [] [("mirror.target_entity_id", lit "_w==")])
             Demo.no_request Demo.world0).2) = []
  /\ start_auth Demo.backend
       (Demo.context_of [] [("mirror.target_entity_id", lit "_w==")])
       Demo.no_request Demo.world0
     <> disco_query Demo.backend
          (Demo.context_of [] [("mirror.target_entity_id", lit "_w==")])
          Demo.no_request Demo.world0.
Proof. vm_compute. repeat split; discriminate. Qed.

(** ** authn_response *)

Section authn_response.
Context (self : SamlBackend) (ctx : Context) (binding : pystr).

Lemma authn_response_no_payload w :
  request ctx !! "SAMLResponse" = None ->
  authn_response self ctx binding w = (Raise KeyError, w).
Proof.
  intros Hreq. unfold authn_response. munfold. unfold getitem.
  by rewrite Hreq.
Qed.

Lemma authn_response_empty_payload w :
  request ctx !! "SAMLResponse" = Some [] ->
  authn_response self ctx binding w
  = (Raise MISSING_RESPONSE, logged w [EvLog "Missing Response for state"]).
Proof.
  intros Hreq. unfold authn_response. munfold. unfold getitem.
  by rewrite Hreq.
Qed.

Lemma authn_response_parse_failure w payload e :
  request ctx !! "SAMLResponse" = Some payload -> payload <> [] ->
  parse_authn_request_response (sp self) payload binding = Raise e ->
  authn_response self ctx binding w
  = (Raise PARSE_FAILED,
     logged w [EvParseResponse payload binding;
               EvLog "Failed to parse authn request for state"]).
Proof.
  intros Hreq Hne Hparse. unfold authn_response. munfold. unfold getitem.
  rewrite Hreq. rewrite bool_decide_eq_false_2 by done. simpl.
  rewrite Hparse. unfold logged. simpl. by rewrite <- app_assoc.
Qed.

Lemma authn_response_no_relay_state w payload resp :
  request ctx !! "SAMLResponse" = Some payload -> payload <> [] ->
  parse_authn_request_response (sp self) payload binding = Ok resp ->
  request ctx !! "RelayState" = None ->
  authn_response self ctx binding w
  = (Raise KeyError, logged w [EvParseResponse payload binding]).
Proof.
  intros Hreq Hne Hparse Hrelay. unfold authn_response. munfold.
  unfold getitem. rewrite Hreq. rewrite bool_decide_eq_false_2 by done.
  simpl. by rewrite Hparse, Hrelay.
Qed.

Lemma authn_response_mismatch w payload resp echoed :
  request ctx !! "SAMLResponse" = Some payload -> payload <> [] ->
  parse_authn_request_response (sp self) payload binding = Ok resp ->
  request ctx !! "RelayState" = Some echoed ->
  w_state w !! name self <> Some echoed ->
  authn_response self ctx binding w
  = (Raise RELAY_STATE_MISMATCH,
     logged w [EvParseResponse payload binding;
               EvLog "State did not match relay state for state"]).
Proof.
  intros Hreq Hne Hparse Hrelay Hst. unfold authn_response. munfold.
  unfold getitem, State.get. rewrite Hreq.
  rewrite bool_decide_eq_false_2 by done.
  simpl. rewrite Hparse, Hrelay. rewrite bool_decide_eq_true_2 by done.
  unfold logged. simpl. by rewrite <- app_assoc.
Qed.

Lemma authn_response_match w payload resp echoed :
  request ctx !! "SAMLResponse" = Some payload -> payload <> [] ->
  parse_authn_request_response (sp self) payload binding = Ok resp ->
  request ctx !! "RelayState" = Some echoed ->
  w_state w !! name self = Some echoed ->
  authn_response self ctx binding w
  = deliver self ctx resp
      (cleared self (logged w [EvParseResponse payload binding])).
Proof.
  intros Hreq Hne Hparse Hrelay Hst. unfold authn_response. munfold.
  unfold getitem, State.get. rewrite Hreq.
  rewrite bool_decide_eq_false_2 by done.
  simpl. rewrite Hparse, Hrelay.
  rewrite bool_decide_eq_false_2 by (by intros []).
  reflexivity.
Qed.

Lemma _translate_response_cases resp w :
  _translate_response self resp w = (Raise IndexError, w)
  \/ exists ir,
       _translate_response self resp w
       = (Ok ir, logged w [EvLog "received attributes:"]).
Proof.
  unfold _translate_response. munfold. unfold index.
  destruct (authn_info resp !! 0) as [ai|]; [|by left].
  destruct (authn_statement resp !! 0) as [ts|]; [|by left].
  right. eexists. reflexivity.
Qed.

(** [deliver] either stops in the translation, without a call to the
    callback and with the state it was given, or calls the callback
    once on the state it was given. *)
Lemma deliver_cases resp w :
  deliver self ctx resp w = (Raise IndexError, w)
  \/ exists ir,
       deliver self ctx resp w
       = ((auth_callback_func self ctx ir (w_state w)).1,
          {| w_state := (auth_callback_func self ctx ir (w_state w)).2;
             w_trace := w_trace w
                        ++ [EvLog "received attributes:"; EvCallback ir];
             w_rnd := w_rnd w |}).
Proof.
  unfold deliver.
  destruct (_translate_response_cases resp w) as [Htr|[ir Htr]].
  - left. unfold mbind, M_bind, bind. by rewrite Htr.
  - right. exists ir. unfold mbind, M_bind, bind. rewrite Htr.
    unfold call_auth_callback_func, logged. simpl.
    destruct (auth_callback_func self ctx ir (w_state w)). simpl.
    by rewrite <- app_assoc.
Qed.
End authn_response.

Lemma filter_callback_grows (t evs : list event) ir :
  filter is_callback (t ++ evs ++ [EvCallback ir]) <> filter is_callback t.
Proof.
  rewrite !filter_app. intros Heq.
  apply (f_equal length) in Heq. rewrite !length_app in Heq.
  simpl in Heq. lia.
Qed.

(** C2: once a response was parsed, the relay state it echoes is
    rejected, with the mismatch error and without a call to the callback,
    exactly when it is not the token stored under the name of the backend;
    when it is the stored token, the token is removed and the response is
    delivered; in particular a session without a token is rejected. *)
Theorem relay_state_validation self ctx binding w payload resp echoed :
  request ctx !! "SAMLResponse" = Some payload -> payload <> [] ->
  parse_authn_request_response (sp self) payload binding = Ok resp ->
  request ctx !! "RelayState" = Some echoed ->
  (((authn_response self ctx binding w).1 = Raise RELAY_STATE_MISMATCH
    /\ filter is_callback (w_trace (authn_response self ctx binding w).2)
       = filter is_callback (w_trace w))
   <-> w_state w !! name self <> Some echoed)
  /\ (w_state w !! name self = Some echoed ->
      authn_response self ctx binding w
      = deliver self ctx resp
          (cleared self (logged w [EvParseResponse payload binding])))
  /\ (w_state w !! name self = None ->
      (authn_response self ctx binding w).1 = Raise RELAY_STATE_MISMATCH
      /\ filter is_callback (w_trace (authn_response self ctx binding w).2)
         = filter is_callback (w_trace w)).
Proof.
  intros Hreq Hne Hparse Hrelay.
  assert (Hfail : w_state w !! name self <> Some echoed ->
            (authn_response self ctx binding w).1 = Raise RELAY_STATE_MISMATCH
            /\ filter is_callback
                 (w_trace (authn_response self ctx binding w).2)
               = filter is_callback (w_trace w)).
  { intros Hst.
    rewrite (authn_response_mismatch _ _ _ _ _ _ _ Hreq Hne Hparse Hrelay Hst).
    split; [done|]. simpl. rewrite filter_app. simpl. by rewrite app_nil_r. }
  split; [split; [|done]|split].
  - intros [Hres Htrace] Hst.
    rewrite (authn_response_match _ _ _ _ _ _ _ Hreq Hne Hparse Hrelay Hst)
      in Hres, Htrace.
    destruct (deliver_cases self ctx resp
                (cleared self (logged w [EvParseResponse payload binding])))
      as [Hd|[ir Hd]]; rewrite Hd in Hres, Htrace.
    + discriminate.
    + simpl in Htrace. rewrite <- app_assoc in Htrace.
      by apply (filter_callback_grows (w_trace w)
                  ([EvParseResponse payload binding]
                   ++ [EvLog "received attributes:"]) ir).
  - by apply authn_response_match.
  - intros Hnone. apply Hfail. by rewrite Hnone.
Qed.

Lemma relay_state_validation_witness :
  (authn_response Demo.backend
     (Demo.context_of [("SAMLResponse", lit "resp"); ("RelayState", lit "Y")]
        [])
     BINDING_HTTP_POST Demo.world0).1 = Raise RELAY_STATE_MISMATCH
  /\ authn_response Demo.backend
       (Demo.context_of [("SAMLResponse", lit "resp"); ("RelayState", lit "Y")]
          [])
       BINDING_HTTP_POST Demo.pending
     = deliver Demo.backend
         (Demo.context_of
            [("SAMLResponse", lit "resp"); ("RelayState", lit "Y")] [])
         Demo.response_ok
         (cleared Demo.backend
            (logged Demo.pending
               [EvParseResponse (lit "resp") BINDING_HTTP_POST])).
Proof.
  split.
  - apply (relay_state_validation Demo.backend
             (Demo.context_of
                [("SAMLResponse", lit "resp"); ("RelayState", lit "Y")] [])
             BINDING_HTTP_POST Demo.world0 (lit "resp") Demo.response_ok
             (lit "Y")); [reflexivity|discriminate|reflexivity..].
  - apply (relay_state_validation Demo.backend
             (Demo.context_of
                [("SAMLResponse", lit "resp"); ("RelayState", lit "Y")] [])
             BINDING_HTTP_POST Demo.pending (lit "resp") Demo.response_ok
             (lit "Y")); [reflexivity|discriminate|reflexivity..].
Defined.

(** C1 as first stated fails: the response echoes "X" while the session
    holds the token "Y"; [authn_response] raises the mismatch error and
    the token "Y" is still stored under the name of the backend. *)
Lemma authn_response_mismatch_keeps_token :
  (authn_response Demo.backend
     (Demo.context_of [("SAMLResponse", lit "resp"); ("RelayState", lit "X")]
        [])
     BINDING_HTTP_POST Demo.pending).1 = Raise RELAY_STATE_MISMATCH
  /\ w_state
       (authn_response Demo.backend
          (Demo.context_of
             [("SAMLResponse", lit "resp"); ("RelayState", lit "X")] [])
          BINDING_HTTP_POST Demo.pending).2 !! name Demo.backend
     = Some (lit "Y").
Proof. vm_compute. split; reflexivity. Qed.

(** C8: a callback whose request has no SAMLResponse parameter at all
    does not get the "missing response" error: the lookup in line 185
    raises [KeyError]. Nothing was parsed. *)
Lemma authn_response_absent_payload :
  authn_response Demo.backend
    (Demo.context_of [("RelayState", lit "Y")] []) BINDING_HTTP_POST
    Demo.pending
  = (Raise KeyError, Demo.pending).
Proof. apply authn_response_no_payload. reflexivity. Qed.

Lemma disco_response_entity_id_witness :
  (disco_response Demo.backend (Demo.context_of [] []) Demo.world0).1
  = Raise NO_IDP_CHOSEN
  /\ disco_response Demo.backend
       (Demo.context_of [("entityID", Demo.idp2)] []) Demo.world0
     = authn_request Demo.backend
         (Demo.context_of [("entityID", Demo.idp2)] []) Demo.idp2
         {| user_id_hash_type := None; requestor := None |} Demo.world0.
Proof.
  split.
  - apply (disco_response_entity_id Demo.backend (Demo.context_of [] [])
             Demo.world0). reflexivity.
  - apply (disco_response_entity_id Demo.backend
             (Demo.context_of [("entityID", Demo.idp2)] []) Demo.world0).
    reflexivity.
Defined.

(** ** get_metadata_desc *)

Lemma only_KeyError_ok {A} (a : A) : only_KeyError (Ok a).
Proof. by intros e. Qed.

Lemma only_KeyError_key {V} (field : option V) : only_KeyError (key field).
Proof. destruct field; [done|]. by intros e [= <-]. Qed.

Lemma only_KeyError_bind {A B} (r : result A) (k : A -> result B) :
  only_KeyError r -> (forall a, only_KeyError (k a)) ->
  only_KeyError (r ≫= k).
Proof.
  intros Hr Hk e. unfold mbind, result_bind. destruct r as [a|e']; simpl.
  - apply Hk.
  - intros [= <-]. by apply Hr.
Qed.

Lemma only_KeyError_for_each {A S} (body : A -> S -> result S) l s :
  (forall x s', only_KeyError (body x s')) ->
  only_KeyError (for_each l body s).2.
Proof.
  intros Hbody. revert s. induction l as [|x l IH]; intros s; simpl.
  - by intros e.
  - destruct (body x s) as [s'|e'] eqn:Hb; [apply IH|].
    simpl. intros e [= <-]. by apply (Hbody x s).
Qed.

Lemma only_KeyError_for_local {A S} (body : A -> S -> result S) l s :
  (forall x s', only_KeyError (body x s')) ->
  only_KeyError (for_local l body s).
Proof.
  intros Hbody e. unfold for_local.
  pose proof (only_KeyError_for_each body l s Hbody) as H.
  destruct (for_each l body s) as [s' [[]|e']]; [done|].
  intros [= <-]. by apply H.
Qed.

Ltac key_only :=
  repeat first
    [ apply only_KeyError_ok
    | apply only_KeyError_key
    | apply only_KeyError_bind; [|intros ?]
    | apply only_KeyError_for_local; intros ? ?
    | match goal with
      | |- only_KeyError (match ?x with _ => _ end) => destruct x
      end ].

Lemma contact_person_body_raises cont_pers description :
  only_KeyError (contact_person_body cont_pers description).
Proof. unfold contact_person_body. cbv zeta. key_only. Qed.

Lemma ui_element_body_raises element ui_info :
  only_KeyError (ui_element_body element ui_info).
Proof. unfold ui_element_body. key_only. Qed.

Lemma idpsso_desc_body_raises idpsso_desc description :
  only_KeyError (idpsso_desc_body idpsso_desc description).
Proof.
  unfold idpsso_desc_body. key_only.
Qed.

(** The organization block swallows whatever is raised. *)
Lemma add_organization_info_ok entity entity_id description :
  add_organization_info entity entity_id description
  = Ok match organization_block entity entity_id with
       | Ok organization => Desc.set_organization organization description
       | Raise _ => description
       end.
Proof.
  unfold add_organization_info.
  by destruct (organization_block entity entity_id).
Qed.

Lemma add_contact_person_info_ok entity entity_id description :
  add_contact_person_info entity entity_id description
  = Ok match (entity !! entity_id) ≫= Md.contact_persons with
       | Some l => (for_each l contact_person_body description).1
       | None => description
       end.
Proof.
  unfold add_contact_person_info.
  destruct (entity !! entity_id) as [info|]; simpl; [|done].
  destruct (Md.contact_persons info) as [l|]; simpl; [|done].
  pose proof (only_KeyError_for_each contact_person_body l description
                contact_person_body_raises) as H.
  destruct (for_each l contact_person_body description) as [d [[]|e]];
    simpl in *; [done|].
  by rewrite (H e eq_refl).
Qed.

Lemma add_ui_info_ok entity entity_id description :
  add_ui_info entity entity_id description
  = Ok match (entity !! entity_id) ≫= Md.idpsso_descriptors with
       | Some l => (for_each l idpsso_desc_body description).1
       | None => description
       end.
Proof.
  unfold add_ui_info.
  destruct (entity !! entity_id) as [info|]; simpl; [|done].
  destruct (Md.idpsso_descriptors info) as [l|]; simpl; [|done].
  pose proof (only_KeyError_for_each idpsso_desc_body l description
                idpsso_desc_body_raises) as H.
  destruct (for_each l idpsso_desc_body description) as [d [[]|e]];
    simpl in *; [done|].
  by rewrite (H e eq_refl).
Qed.

Ltac split_binds :=
  unfold mbind, result_bind;
  repeat match goal with
  | |- context [rbind ?r _] => destruct r; cbn [rbind rmap]; [|done]
  end.

Lemma contact_person_body_frame cont_pers d d0 :
  contact_person_body cont_pers (with_contacts d d0)
  = rmap (with_contacts d) (contact_person_body cont_pers d0).
Proof.
  unfold contact_person_body. cbv zeta. split_binds.
  unfold with_contacts, Desc.add_contact_person. simpl.
  by rewrite app_assoc.
Qed.

Lemma idpsso_desc_body_frame idpsso_desc d d0 :
  idpsso_desc_body idpsso_desc (with_ui d d0)
  = rmap (with_ui d) (idpsso_desc_body idpsso_desc d0).
Proof. unfold idpsso_desc_body. by split_binds. Qed.

Lemma for_each_frame {A S} (body : A -> S -> result S) (frame : S -> S) l :
  (forall x s, body x (frame s) = rmap frame (body x s)) ->
  forall s,
    for_each l body (frame s)
    = (frame (for_each l body s).1, (for_each l body s).2).
Proof.
  intros Hbody. induction l as [|x l IH]; intros s; simpl; [done|].
  rewrite Hbody. destruct (body x s) as [s'|e]; simpl; [apply IH|done].
Qed.

Lemma with_contacts_new d k :
  with_contacts d (Desc.new k) = d.
Proof. destruct d. unfold with_contacts. simpl. by rewrite app_nil_r. Qed.

Lemma with_ui_new d k : with_ui d (Desc.new k) = d.
Proof. by destruct d. Qed.

Lemma for_each_contacts l d k :
  (for_each l contact_person_body d).1
  = with_contacts d (for_each l contact_person_body (Desc.new k)).1.
Proof.
  rewrite <- (with_contacts_new d k) at 1.
  by rewrite (for_each_frame _ _ _
                (fun x s => contact_person_body_frame x d s)).
Qed.

Lemma for_each_ui l d k :
  (for_each l idpsso_desc_body d).1
  = with_ui d (for_each l idpsso_desc_body (Desc.new k)).1.
Proof.
  rewrite <- (with_ui_new d k) at 1.
  by rewrite (for_each_frame _ _ _ (fun x s => idpsso_desc_body_frame x d s)).
Qed.

(** One entity: the three blocks never raise, and leave [sections_of]. *)
Lemma describe_entity_ok entity entity_id k :
  encode_entity_id entity_id = Ok k ->
  describe_entity entity entity_id = Ok (sections_of entity entity_id k).
Proof.
  intros Hk. unfold describe_entity, mbind at 1, result_bind at 1.
  rewrite Hk. cbn [rbind]. rewrite add_organization_info_ok.
  unfold mbind at 1, result_bind at 1. cbn [rbind].
  rewrite add_contact_person_info_ok.
  unfold mbind at 1, result_bind at 1. cbn [rbind].
  rewrite add_ui_info_ok.
  unfold mbind at 1, result_bind at 1. cbn [rbind]. f_equal.
  unfold sections_of.
  set (d1 := match organization_block entity entity_id with
             | Ok o => Desc.set_organization o (Desc.new k)
             | Raise _ => Desc.new k
             end).
  assert (Hd1 : d1 = {| Desc.entity_id := k;
                        Desc.organization :=
                          match organization_block entity entity_id with
                          | Ok o => Some o
                          | Raise _ => None
                          end;
                        Desc.contact_person := [];
                        Desc.ui_info := None |}).
  { subst d1. by destruct (organization_block entity entity_id). }
  destruct ((entity !! entity_id) ≫= Md.contact_persons) as [cs|];
    destruct ((entity !! entity_id) ≫= Md.idpsso_descriptors) as [us|].
  - rewrite (for_each_ui us _ k), (for_each_contacts cs d1 k), Hd1.
    unfold with_ui, with_contacts. simpl. f_equal.
    by destruct (Desc.ui_info _).
  - rewrite (for_each_contacts cs d1 k), Hd1. by unfold with_contacts.
  - rewrite (for_each_ui us d1 k), Hd1.
    unfold with_ui. simpl. f_equal. by destruct (Desc.ui_info _).
  - by rewrite Hd1.
Qed.

Lemma for_local_cons {A S} (body : A -> S -> result S) x l s :
  for_local (x :: l) body s
  = match body x s with
    | Ok s' => for_local l body s'
    | Raise e => Raise e
    end.
Proof. unfold for_local. simpl. by destruct (body x s). Qed.

Lemma describe_ids_ok file ids acc :
  Forall is_text ids ->
  exists descs,
    for_local ids
      (fun entity_id acc =>
         description ← describe_entity (Md.entity file) entity_id;
         Ok (acc ++ [description])) acc
    = Ok (acc ++ descs)
    /\ Forall2 described (map (pair file) ids) descs.
Proof.
  intros Htext. revert acc.
  induction Htext as [|entity_id ids Hid _ IH]; intros acc.
  - exists []. split; [by rewrite app_nil_r|constructor].
  - destruct (encode_entity_id_total _ Hid) as [k Hk].
    rewrite for_local_cons, (describe_entity_ok _ _ _ Hk).
    unfold mbind at 1, result_bind at 1. cbn [rbind].
    destruct (IH (acc ++ [sections_of (Md.entity file) entity_id k]))
      as (descs & Hrun & Hdescs).
    exists (sections_of (Md.entity file) entity_id k :: descs). split.
    + by rewrite Hrun, <- app_assoc.
    + constructor; [by exists k|done].
Qed.

Lemma describe_file_ok file acc :
  is_Some (Md.entity_descr file) \/ is_Some (Md.entities_descr file) ->
  (forall ids, entity_ids_of file = Ok ids -> Forall is_text ids) ->
  exists ids descs,
    entity_ids_of file = Ok ids
    /\ describe_file file acc = Ok (acc ++ descs)
    /\ Forall2 described (map (pair file) ids) descs.
Proof.
  intros Hshape Htext.
  assert (exists ids, entity_ids_of file = Ok ids) as [ids Hids].
  { unfold entity_ids_of.
    destruct (Md.entity_descr file); [by eexists|].
    destruct (Md.entities_descr file); [by eexists|].
    by destruct Hshape as [[? [=]]|[? [=]]]. }
  destruct (describe_ids_ok file ids acc (Htext ids Hids))
    as (descs & Hrun & Hdescs).
  exists ids, descs. split; [done|]. split; [|done].
  unfold describe_file, mbind at 1, result_bind at 1.
  rewrite Hids. cbn [rbind]. exact Hrun.
Qed.

Lemma describe_files_ok files acc :
  Forall (fun f => is_Some (Md.entity_descr f.2)
                   \/ is_Some (Md.entities_descr f.2)) files ->
  Forall (fun fe => is_text fe.2) (entities_of files) ->
  exists descs,
    for_local files (fun metadata_file acc => describe_file metadata_file.2 acc)
      acc
    = Ok (acc ++ descs)
    /\ Forall2 described (entities_of files) descs.
Proof.
  intros Hshape. revert acc.
  induction Hshape as [|f files Hf _ IH]; intros acc Htext.
  - exists []. split; [by rewrite app_nil_r|constructor].
  - unfold entities_of in Htext. cbn [map concat] in Htext.
    apply Forall_app in Htext as [Hhere Hrest].
    destruct (describe_file_ok f.2 acc Hf) as (ids & descs & Hids & Hrun & Hd).
    { intros ids Hids. rewrite Hids in Hhere.
      rewrite Forall_map in Hhere. exact Hhere. }
    destruct (IH (acc ++ descs) Hrest) as (descs' & Hrun' & Hd').
    exists (descs ++ descs'). split.
    + rewrite for_local_cons, Hrun, Hrun'. by rewrite app_assoc.
    + unfold entities_of. cbn [map concat]. rewrite Hids.
      by apply Forall2_app.
Qed.

(** What the description of the entity of [Demo.file1] holds: the
    organization, whose name has no language, is left out; the first
    contact person is kept and the second, whose given name has no text,
    is left out; there is no UI info. *)
Example get_metadata_desc_demo :
  get_metadata_desc Demo.backend
  = Ok [ {| Desc.entity_id := lit "aHR0cHM6Ly9pZHAxLmV4YW1wbGUvaWRw";
            Desc.organization := None;
            Desc.contact_person :=
              [ {| Desc.contact_type := Some (lit "technical");
                   Desc.email_address := [lit "a@example.org"];
                   Desc.given_name := None;
                   Desc.sur_name := None |} ];
            Desc.ui_info := None |} ].
Proof. vm_compute. reflexivity. Qed.

(** A section whose source is missing is left out. *)
Lemma sections_of_missing entity entity_id k :
  ((entity !! entity_id) ≫= Md.organization = None ->
   Desc.organization (sections_of entity entity_id k) = None)
  /\ ((entity !! entity_id) ≫= Md.contact_persons = None ->
      Desc.contact_person (sections_of entity entity_id k) = [])
  /\ ((entity !! entity_id) ≫= Md.idpsso_descriptors = None ->
      Desc.ui_info (sections_of entity entity_id k) = None).
Proof.
  unfold sections_of. simpl. split; [|split]; try by intros ->.
  unfold organization_block.
  destruct (entity !! entity_id) as [info|]; simpl; [|done].
  by intros ->.
Qed.

(** Each section depends on its own part of the metadata only. *)
Lemma sections_of_independent entity entity' entity_id k :
  ((entity !! entity_id) ≫= Md.organization
   = (entity' !! entity_id) ≫= Md.organization ->
   Desc.organization (sections_of entity entity_id k)
   = Desc.organization (sections_of entity' entity_id k))
  /\ ((entity !! entity_id) ≫= Md.contact_persons
      = (entity' !! entity_id) ≫= Md.contact_persons ->
      Desc.contact_person (sections_of entity entity_id k)
      = Desc.contact_person (sections_of entity' entity_id k))
  /\ ((entity !! entity_id) ≫= Md.idpsso_descriptors
      = (entity' !! entity_id) ≫= Md.idpsso_descriptors ->
      Desc.ui_info (sections_of entity entity_id k)
      = Desc.ui_info (sections_of entity' entity_id k)).
Proof.
  unfold sections_of. simpl. split; [|split]; try by intros ->.
  unfold organization_block.
  destruct (entity !! entity_id) as [info|];
    destruct (entity' !! entity_id) as [info'|]; simpl;
    try destruct (Md.organization info);
    try destruct (Md.organization info'); simpl; intros; by simplify_eq.
Qed.

(** * Further properties of the handlers *)

(** * Further properties of the handlers *)

(** ** authn_request *)

Lemma authn_request_try_token self e pol w b rs ht w1 :
  authn_request_try self e pol w = (Ok (b, rs, ht), w1) ->
  rs = rndstr_source self (w_rnd w) /\ w_rnd w1 = S (w_rnd w).
Proof.
  unfold authn_request_try. munfold. simpl.
  repeat (case_match; simplify_eq/=); intros; by simplify_eq.
Qed.

Lemma authn_request_try_callback self e pol w :
  filter is_callback (w_trace (authn_request_try self e pol w).2)
  = filter is_callback (w_trace w).
Proof.
  unfold authn_request_try. munfold. simpl.
  repeat (case_match; simplify_eq/=); rewrite ?filter_app; simpl;
    rewrite ?app_nil_r; done.
Qed.

Lemma authn_request_token_state self ctx e req w :
  (authn_request self ctx e req w).1 <> Raise CONSTRUCTION_FAILED ->
  w_state (authn_request self ctx e req w).2
  = <[name self := rndstr_source self (w_rnd w)]> (w_state w)
  /\ w_rnd (authn_request self ctx e req w).2 = S (w_rnd w).
Proof.
  rewrite authn_request_unfold.
  pose proof (authn_request_try_state self e (req_args_of self) w) as Hst.
  destruct (authn_request_try _ _ _ w) as [[[[b rs] ht]|exc] w1] eqn:Htry;
    [|done].
  intros _. destruct (authn_request_try_token _ _ _ _ _ _ _ _ Htry) as [-> Hrnd].
  simpl in Hst. unfold State.add.
  repeat case_match; simpl; by rewrite Hst.
Qed.

(** X1: unless the request could not be constructed, [authn_request]
    leaves the session with the next random string stored under the name
    of the backend, and has drawn exactly that one string. This holds
    for the parameter error too. *)
Theorem authn_request_issues_token self ctx e req w :
  (authn_request self ctx e req w).1 <> Raise CONSTRUCTION_FAILED ->
  w_state (authn_request self ctx e req w).2
  = <[name self := rndstr_source self (w_rnd w)]> (w_state w)
  /\ w_rnd (authn_request self ctx e req w).2 = S (w_rnd w).
Proof. apply authn_request_token_state. Qed.

Lemma authn_request_issues_token_witness :
  (authn_request Demo.no_location (Demo.context_of [] []) Demo.idp1
     Demo.no_request Demo.pending).1 = Raise PARAMETER_ERROR
  /\ w_state
       (authn_request Demo.no_location (Demo.context_of [] []) Demo.idp1
          Demo.no_request Demo.pending).2
     = <[ "Saml2" := lit "token-1" ]> (w_state Demo.pending).
Proof.
  split; [vm_compute; reflexivity|].
  apply (authn_request_issues_token Demo.no_location (Demo.context_of [] [])
           Demo.idp1 Demo.no_request Demo.pending).
  vm_compute. discriminate.
Defined.

(** X2: [authn_request] raises nothing but its two own errors, and each
    exactly in its case: the construction error when, and only when,
    something was raised inside the [try] block, whatever it was; the
    parameter error when, and only when, the [try] block succeeded with
    the redirect binding and no header is named Location. *)
Theorem authn_request_error_taxonomy self ctx e req w :
  (forall exc,
     (authn_request self ctx e req w).1 = Raise exc ->
     exc = CONSTRUCTION_FAILED \/ exc = PARAMETER_ERROR)
  /\ ((authn_request self ctx e req w).1 = Raise CONSTRUCTION_FAILED
      <-> exists cause w1,
            authn_request_try self e (req_args_of self) w = (Raise cause, w1))
  /\ ((authn_request self ctx e req w).1 = Raise PARAMETER_ERROR
      <-> exists rs ht w1,
            authn_request_try self e (req_args_of self) w
            = (Ok (BINDING_HTTP_REDIRECT, rs, ht), w1)
            /\ find_location (ht_headers ht) = None).
Proof.
  split; [intros exc; apply authn_request_raises|].
  rewrite authn_request_unfold.
  destruct (authn_request_try _ _ _ w) as [[[[b rs] ht]|cause] w1] eqn:Htry.
  - cbv zeta. split.
    + split; [|by intros (? & ? & ?)].
      repeat case_match; by intros.
    + split.
      * case_bool_decide as Hb; [|done]. subst b.
        destruct (find_location (ht_headers ht)) eqn:Hloc; [done|].
        intros _. by exists rs, ht, w1.
      * intros (rs' & ht' & w1' & [= -> -> -> ->] & Hloc).
        rewrite bool_decide_eq_true_2 by done. by rewrite Hloc.
  - simpl. split.
    + split; [|done]. intros _. by exists cause, w1.
    + split; [done|]. by intros (? & ? & ? & ? & ?).
Qed.

Lemma authn_request_error_taxonomy_witness :
  (authn_request Demo.backend (Demo.context_of [] [])
     (lit "https://unknown.example/idp") Demo.no_request Demo.world0).1
  = Raise CONSTRUCTION_FAILED
  /\ (authn_request Demo.no_location (Demo.context_of [] []) Demo.idp1
        Demo.no_request Demo.world0).1
     = Raise PARAMETER_ERROR.
Proof.
  split.
  - apply (authn_request_error_taxonomy Demo.backend (Demo.context_of [] [])
             (lit "https://unknown.example/idp") Demo.no_request Demo.world0).
    eexists _, _. vm_compute. reflexivity.
  - apply (authn_request_error_taxonomy Demo.no_location
             (Demo.context_of [] []) Demo.idp1 Demo.no_request Demo.world0).
    eexists _, _, _. split; vm_compute; reflexivity.
Defined.

(** X3: when the binding picked is not the redirect binding, the answer
    is the body and the headers [apply_binding] gave, whether or not
    there is a Location among the headers. *)
Theorem authn_request_other_binding self ctx e req w b rs ht w1 :
  authn_request_try self e (req_args_of self) w = (Ok (b, rs, ht), w1) ->
  b <> BINDING_HTTP_REDIRECT ->
  (authn_request self ctx e req w).1
  = Ok (PlainResponse (ht_data ht) (ht_headers ht)).
Proof.
  intros Htry Hb. rewrite authn_request_unfold, Htry. cbv zeta.
  by rewrite bool_decide_eq_false_2.
Qed.

Lemma authn_request_other_binding_witness :
  (authn_request Demo2.post (Demo.context_of [] []) Demo.idp1
     Demo.no_request Demo.world0).1
  = Ok (PlainResponse (lit "<form>token-0")
          [(lit "Content-Type", lit "text/html")]).
Proof.
  apply (authn_request_other_binding Demo2.post (Demo.context_of [] [])
           Demo.idp1 Demo.no_request Demo.world0 BINDING_HTTP_POST
           (lit "token-0")
           {| ht_headers := [(lit "Content-Type", lit "text/html")];
              ht_data := lit "<form>token-0" |}
           _ eq_refl).
  vm_compute. discriminate.
Defined.

(** X4: without a usable assertion consumer service endpoint (no such
    entry, or an empty list) [authn_request] raises the construction
    error before any request is built: no random string is drawn, no
    request is created or serialized, and the session state is left as it
    was. *)
Theorem authn_request_without_acs self ctx e req w :
  endpoints (sp self) !! "assertion_consumer_service" = None
  \/ endpoints (sp self) !! "assertion_consumer_service" = Some [] ->
  (authn_request self ctx e req w).1 = Raise CONSTRUCTION_FAILED
  /\ w_state (authn_request self ctx e req w).2 = w_state w
  /\ w_rnd (authn_request self ctx e req w).2 = w_rnd w
  /\ filter is_request_step (w_trace (authn_request self ctx e req w).2)
     = filter is_request_step (w_trace w).
Proof.
  intros Hacs. rewrite authn_request_unfold.
  unfold authn_request_try. munfold. unfold getitem, index. simpl.
  destruct (pick_binding (sp self) bindings e) as [[b d]|exc]; simpl.
  - destruct Hacs as [-> | ->]; simpl;
      rewrite !filter_app; simpl; by rewrite !app_nil_r.
  - rewrite !filter_app. simpl. by rewrite !app_nil_r.
Qed.

Lemma authn_request_without_acs_witness :
  (authn_request Demo2.bare (Demo.context_of [] []) Demo.idp1
     Demo.no_request Demo.pending).1 = Raise CONSTRUCTION_FAILED
  /\ w_state
       (authn_request Demo2.bare (Demo.context_of [] []) Demo.idp1
          Demo.no_request Demo.pending).2 = w_state Demo.pending.
Proof.
  destruct (authn_request_without_acs Demo2.bare (Demo.context_of [] [])
              Demo.idp1 Demo.no_request Demo.pending (or_introl eq_refl))
    as (H1 & H2 & _).
  split; [exact H1|exact H2].
Defined.

(** ** start_auth and disco_query *)

(** Decoding, as [start_auth] does it, what [get_metadata_desc] made of
    an entity id. *)
Lemma decode_encode_entity_id entity_id hint :
  encode_entity_id entity_id = Ok hint ->
  decode_target_entity_id hint = Ok entity_id.
Proof.
  unfold encode_entity_id, decode_target_entity_id, mbind, result_bind.
  destruct (Utf8.encode entity_id) as [bs|] eqn:Henc; cbn [rbind]; [|done].
  pose proof (utf8_encode_bytes _ _ Henc) as Hbytes.
  destruct (urlsafe_roundtrip_chars bs Hbytes) as [_ Hascii].
  rewrite (decode_ascii _ Hascii). intros [= <-].
  rewrite (urlsafe_b64decode_encode bs Hbytes). cbn [rbind].
  by apply decode_encode.
Qed.

(** X5: when the metadata does not hold exactly one IdP and the request
    carries, as its hint, the key [get_metadata_desc] gives an entity,
    [start_auth] is [authn_request] for that entity: the discovery
    service is not asked. The entity need not be a known IdP. *)
Theorem start_auth_mirrored_entity self ctx req w entity_id hint :
  length (identity_providers (sp self)) <> 1 ->
  internal_data ctx !! "mirror.target_entity_id" = Some hint ->
  encode_entity_id entity_id = Ok hint ->
  start_auth self ctx req w = authn_request self ctx entity_id req w
  /\ filter is_discovery (w_trace (start_auth self ctx req w).2)
     = filter is_discovery (w_trace w).
Proof.
  intros Hlen Hhint Henc.
  assert (Hstart : start_auth self ctx req w
                   = authn_request self ctx entity_id req w).
  { unfold start_auth. rewrite bool_decide_eq_false_2 by done.
    unfold try_except, mbind at 1, M_bind at 1, bind at 1, lift, getitem.
    rewrite Hhint.
    unfold mbind at 1, M_bind at 1, bind at 1, lift.
    rewrite (decode_encode_entity_id _ _ Henc).
    pose proof (authn_request_raises self ctx entity_id req w) as Hexc.
    destruct (authn_request self ctx entity_id req w) as [[r|exc] w'];
      [done|].
    by destruct (Hexc exc eq_refl) as [-> | ->]. }
  split; [done|]. rewrite Hstart. apply authn_request_discovery.
Qed.

Lemma start_auth_mirrored_entity_witness :
  start_auth Demo.backend
    (Demo.context_of []
       [("mirror.target_entity_id", lit "aHR0cHM6Ly9pZHAyLmV4YW1wbGUvaWRw")])
    Demo.no_request Demo.world0
  = authn_request Demo.backend
      (Demo.context_of []
         [("mirror.target_entity_id", lit "aHR0cHM6Ly9pZHAyLmV4YW1wbGUvaWRw")])
      Demo.idp2 Demo.no_request Demo.world0.
Proof.
  apply (start_auth_mirrored_entity Demo.backend
           (Demo.context_of []
              [("mirror.target_entity_id",
                lit "aHR0cHM6Ly9pZHAyLmV4YW1wbGUvaWRw")])
           Demo.no_request Demo.world0 Demo.idp2
           (lit "aHR0cHM6Ly9pZHAyLmV4YW1wbGUvaWRw")).
  - vm_compute. discriminate.
  - reflexivity.
  - vm_compute. reflexivity.
Defined.

Lemma disco_query_world self ctx req w :
  w_state (disco_query self ctx req w).2 = w_state w
  /\ w_rnd (disco_query self ctx req w).2 = w_rnd w
  /\ filter is_callback (w_trace (disco_query self ctx req w).2)
     = filter is_callback (w_trace w).
Proof.
  unfold disco_query. munfold. simpl.
  repeat (case_match; simplify_eq/=); rewrite ?filter_app; simpl;
    rewrite ?app_nil_r; done.
Qed.

(** X6: with no IdP at all in the metadata and no hint, [start_auth]
    does not fail on the empty list: it is [disco_query], and the session
    state is left as it was, with no token issued. *)
Theorem start_auth_no_idp self ctx req w :
  identity_providers (sp self) = [] ->
  internal_data ctx !! "mirror.target_entity_id" = None ->
  start_auth self ctx req w = disco_query self ctx req w
  /\ w_state (start_auth self ctx req w).2 = w_state w.
Proof.
  intros Hidps Hhint.
  assert (Hstart : start_auth self ctx req w = disco_query self ctx req w).
  { unfold start_auth. rewrite Hidps. simpl. munfold. unfold getitem.
    by rewrite Hhint. }
  split; [done|]. rewrite Hstart. apply disco_query_world.
Qed.

Lemma start_auth_no_idp_witness :
  start_auth Demo2.bare (Demo.context_of [] []) Demo.no_request Demo.pending
  = (Raise KeyError, Demo.pending).
Proof.
  destruct (start_auth_no_idp Demo2.bare (Demo.context_of [] [])
              Demo.no_request Demo.pending eq_refl eq_refl) as [H _].
  rewrite H. reflexivity.
Defined.

(** X7: [disco_query] by configuration. Without a discovery response
    endpoint it raises [KeyError] (no such entry) or [IndexError] (empty
    list) and asks nothing; otherwise it asks for one discovery request
    that returns to the location of the first endpoint, and redirects to
    the URL it is given, or raises what the client raised, as it is. In
    no case does it change the session state. *)
Theorem disco_query_outcome self ctx req w :
  (endpoints (sp self) !! "discovery_response" = None ->
   disco_query self ctx req w = (Raise KeyError, w))
  /\ (endpoints (sp self) !! "discovery_response" = Some [] ->
      disco_query self ctx req w = (Raise IndexError, w))
  /\ (forall loc binding rest,
        endpoints (sp self) !! "discovery_response"
        = Some ((loc, binding) :: rest) ->
        disco_query self ctx req w
        = (match create_discovery_service_request (sp self) (discosrv self)
                   (entityid (sp self)) loc with
           | Ok url => Ok (SeeOther url)
           | Raise exc => Raise exc
           end,
           logged w [EvDiscoveryRequest loc]))
  /\ w_state (disco_query self ctx req w).2 = w_state w.
Proof.
  split; [|split; [|split]].
  - intros Hd. unfold disco_query. munfold. unfold getitem. by rewrite Hd.
  - intros Hd. unfold disco_query. munfold. unfold getitem. by rewrite Hd.
  - intros loc binding rest Hd. unfold disco_query. munfold.
    unfold getitem. rewrite Hd. simpl.
    by destruct (create_discovery_service_request _ _ _ _).
  - apply disco_query_world.
Qed.

Lemma disco_query_outcome_witness :
  disco_query Demo2.bare (Demo.context_of [] []) Demo.no_request Demo.world0
  = (Raise KeyError, Demo.world0)
  /\ (disco_query Demo.backend (Demo.context_of [] []) Demo.no_request
        Demo.world0).2
     = logged Demo.world0 [EvDiscoveryRequest (lit "https://proxy.example/disco")].
Proof.
  split.
  - apply (disco_query_outcome Demo2.bare (Demo.context_of [] [])
             Demo.no_request Demo.world0). reflexivity.
  - destruct (disco_query_outcome Demo.backend (Demo.context_of [] [])
                Demo.no_request Demo.world0) as (_ & _ & H & _).
    rewrite (H (lit "https://proxy.example/disco") (lit "disco") []
               eq_refl).
    reflexivity.
Defined.

(** ** authn_response *)

(** X8: the order of the checks. A present but empty payload is the
    "missing response" error with nothing parsed, and a payload the
    client rejects is the parse error, both whatever the request and the
    session say about the relay state; a parsed response in a request
    without a RelayState parameter raises [KeyError]. None of the three
    changes the session state. *)
Theorem authn_response_check_order self ctx binding w :
  (request ctx !! "SAMLResponse" = Some [] ->
   authn_response self ctx binding w
   = (Raise MISSING_RESPONSE, logged w [EvLog "Missing Response for state"]))
  /\ (forall payload exc,
        request ctx !! "SAMLResponse" = Some payload -> payload <> [] ->
        parse_authn_request_response (sp self) payload binding = Raise exc ->
        authn_response self ctx binding w
        = (Raise PARSE_FAILED,
           logged w [EvParseResponse payload binding;
                     EvLog "Failed to parse authn request for state"]))
  /\ (forall payload resp,
        request ctx !! "SAMLResponse" = Some payload -> payload <> [] ->
        parse_authn_request_response (sp self) payload binding = Ok resp ->
        request ctx !! "RelayState" = None ->
        authn_response self ctx binding w
        = (Raise KeyError, logged w [EvParseResponse payload binding])).
Proof.
  split; [|split].
  - apply authn_response_empty_payload.
  - intros payload exc. apply authn_response_parse_failure.
  - intros payload resp. apply authn_response_no_relay_state.
Qed.

Lemma authn_response_check_order_witness :
  authn_response Demo.backend
    (Demo.context_of [("SAMLResponse", lit "garbage")] [])
    BINDING_HTTP_POST Demo.pending
  = (Raise PARSE_FAILED,
     logged Demo.pending
       [EvParseResponse (lit "garbage") BINDING_HTTP_POST;
        EvLog "Failed to parse authn request for state"])
  /\ authn_response Demo.backend
       (Demo.context_of [("SAMLResponse", lit "resp")] [])
       BINDING_HTTP_POST Demo.pending
     = (Raise KeyError,
        logged Demo.pending [EvParseResponse (lit "resp") BINDING_HTTP_POST]).
Proof.
  split.
  - eapply (authn_response_check_order Demo.backend
              (Demo.context_of [("SAMLResponse", lit "garbage")] [])
              BINDING_HTTP_POST Demo.pending);
      [reflexivity|discriminate|reflexivity].
  - eapply (authn_response_check_order Demo.backend
              (Demo.context_of [("SAMLResponse", lit "resp")] [])
              BINDING_HTTP_POST Demo.pending);
      [reflexivity|discriminate|reflexivity|reflexivity].
Defined.

Lemma deliver_translated self ctx resp info instant w :
  authn_info resp !! 0 = Some info ->
  authn_statement resp !! 0 = Some instant ->
  deliver self ctx resp w
  = ((auth_callback_func self ctx (translated self resp info instant)
        (w_state w)).1,
     {| w_state := (auth_callback_func self ctx
                      (translated self resp info instant) (w_state w)).2;
        w_trace := w_trace w
                   ++ [EvLog "received attributes:";
                       EvCallback (translated self resp info instant)];
        w_rnd := w_rnd w |}).
Proof.
  intros Hinfo Hinstant. unfold deliver, _translate_response. munfold.
  unfold index. rewrite Hinfo, Hinstant. simpl.
  unfold translated.
  destruct (auth_callback_func self ctx _ (w_state w)). simpl.
  by rewrite <- app_assoc.
Qed.

Lemma deliver_untranslatable self ctx resp w :
  authn_info resp = [] \/ authn_statement resp = [] ->
  deliver self ctx resp w = (Raise IndexError, w).
Proof.
  intros Hempty. unfold deliver, _translate_response. munfold. unfold index.
  destruct Hempty as [-> | ->]; simpl; [done|].
  by destruct (authn_info resp !! 0).
Qed.

(** C1, as amended: on each failure path of [authn_response] (missing
    response, parse failure, relay-state mismatch) the session state is
    left as it was. When the relay state is accepted the token is removed
    before the response is translated and delivered: a response that
    cannot be translated raises with the token already removed, and the
    callback is run on the session state without the token, its answer
    and the state it leaves being those of [authn_response]; so with a
    callback that does not store under the name of the backend the
    session state holds no token afterwards. *)
Theorem authn_response_relay_state_cleanup self ctx binding w :
  (request ctx !! "SAMLResponse" = Some [] ->
   (authn_response self ctx binding w).1 = Raise MISSING_RESPONSE
   /\ w_state (authn_response self ctx binding w).2 = w_state w)
  /\ (forall payload e,
        request ctx !! "SAMLResponse" = Some payload -> payload <> [] ->
        parse_authn_request_response (sp self) payload binding = Raise e ->
        (authn_response self ctx binding w).1 = Raise PARSE_FAILED
        /\ w_state (authn_response self ctx binding w).2 = w_state w)
  /\ (forall payload resp echoed,
        request ctx !! "SAMLResponse" = Some payload -> payload <> [] ->
        parse_authn_request_response (sp self) payload binding = Ok resp ->
        request ctx !! "RelayState" = Some echoed ->
        w_state w !! name self <> Some echoed ->
        (authn_response self ctx binding w).1 = Raise RELAY_STATE_MISMATCH
        /\ w_state (authn_response self ctx binding w).2 = w_state w)
  /\ (forall payload resp echoed,
        request ctx !! "SAMLResponse" = Some payload -> payload <> [] ->
        parse_authn_request_response (sp self) payload binding = Ok resp ->
        request ctx !! "RelayState" = Some echoed ->
        w_state w !! name self = Some echoed ->
        (authn_info resp = [] \/ authn_statement resp = [] ->
         (authn_response self ctx binding w).1 = Raise IndexError
         /\ w_state (authn_response self ctx binding w).2
            = delete (name self) (w_state w))
        /\ (forall info instant,
              authn_info resp !! 0 = Some info ->
              authn_statement resp !! 0 = Some instant ->
              (authn_response self ctx binding w).1
              = (auth_callback_func self ctx
                   (translated self resp info instant)
                   (delete (name self) (w_state w))).1
              /\ w_state (authn_response self ctx binding w).2
                 = (auth_callback_func self ctx
                      (translated self resp info instant)
                      (delete (name self) (w_state w))).2)
        /\ ((forall c ir st,
               st !! name self = None ->
               (auth_callback_func self c ir st).2 !! name self = None) ->
            w_state (authn_response self ctx binding w).2 !! name self
            = None)).
Proof.
  split; [|split; [|split]].
  - intros Hreq. by rewrite authn_response_empty_payload.
  - intros payload e Hreq Hne Hparse.
    by rewrite (authn_response_parse_failure _ _ _ _ _ _ Hreq Hne Hparse).
  - intros payload resp echoed Hreq Hne Hparse Hrelay Hst.
    by rewrite (authn_response_mismatch _ _ _ _ _ _ _
                  Hreq Hne Hparse Hrelay Hst).
  - intros payload resp echoed Hreq Hne Hparse Hrelay Hst.
    rewrite (authn_response_match _ _ _ _ _ _ _ Hreq Hne Hparse Hrelay Hst).
    split; [|split].
    + intros Hempty. by rewrite (deliver_untranslatable _ _ _ _ Hempty).
    + intros info instant Hinfo Hinstant.
      by rewrite (deliver_translated _ _ _ _ _ _ Hinfo Hinstant).
    + intros Hcb.
      destruct (deliver_cases self ctx resp
                  (cleared self (logged w [EvParseResponse payload binding])))
        as [Hd|[ir Hd]]; rewrite Hd; simpl.
      * apply lookup_delete_eq.
      * apply Hcb. apply lookup_delete_eq.
Qed.

Lemma authn_response_relay_state_cleanup_witness :
  w_state
    (authn_response Demo.backend
       (Demo.context_of [("SAMLResponse", lit "resp"); ("RelayState", lit "X")]
          [])
       BINDING_HTTP_POST Demo.pending).2 = w_state Demo.pending
  /\ w_state
       (authn_response Demo.backend
          (Demo.context_of
             [("SAMLResponse", lit "resp"); ("RelayState", lit "Y")] [])
          BINDING_HTTP_POST Demo.pending).2 !! name Demo.backend = None.
Proof.
  split.
  - eapply (authn_response_relay_state_cleanup Demo.backend
              (Demo.context_of
                 [("SAMLResponse", lit "resp"); ("RelayState", lit "X")] [])
              BINDING_HTTP_POST Demo.pending);
      [reflexivity|discriminate|reflexivity|reflexivity|].
    vm_compute. discriminate.
  - eapply (authn_response_relay_state_cleanup Demo.backend
              (Demo.context_of
                 [("SAMLResponse", lit "resp"); ("RelayState", lit "Y")] [])
              BINDING_HTTP_POST Demo.pending);
      [reflexivity|discriminate|reflexivity|reflexivity|reflexivity|].
    intros c ir st Hst. exact Hst.
Defined.

(** X9: an accepted response is translated and handed to the callback:
    the class reference of the first authentication info, the instant of
    the first authentication statement, the issuer, the subject as user
    id and the converted attributes. The callback runs on the session
    state without the token, and its answer and the state it leaves are
    those of [authn_response]. *)
Theorem authn_response_delivers self ctx binding w payload resp echoed
    info instant :
  request ctx !! "SAMLResponse" = Some payload -> payload <> [] ->
  parse_authn_request_response (sp self) payload binding = Ok resp ->
  request ctx !! "RelayState" = Some echoed ->
  w_state w !! name self = Some echoed ->
  authn_info resp !! 0 = Some info ->
  authn_statement resp !! 0 = Some instant ->
  authn_response self ctx binding w
  = ((auth_callback_func self ctx (translated self resp info instant)
        (delete (name self) (w_state w))).1,
     {| w_state := (auth_callback_func self ctx
                      (translated self resp info instant)
                      (delete (name self) (w_state w))).2;
        w_trace := w_trace w
                   ++ [EvParseResponse payload binding;
                       EvLog "received attributes:";
                       EvCallback (translated self resp info instant)];
        w_rnd := w_rnd w |}).
Proof.
  intros Hreq Hne Hparse Hrelay Hst Hinfo Hinstant.
  rewrite (authn_response_match _ _ _ _ _ _ _ Hreq Hne Hparse Hrelay Hst).
  rewrite (deliver_translated _ _ _ _ _ _ Hinfo Hinstant).
  simpl. unfold State.remove. by rewrite <- app_assoc.
Qed.

Lemma authn_response_delivers_witness :
  (authn_response Demo.backend
     (Demo.context_of [("SAMLResponse", lit "resp"); ("RelayState", lit "Y")]
        [])
     BINDING_HTTP_POST Demo.pending).1 = Ok (CallbackResponse 200).
Proof.
  rewrite (authn_response_delivers Demo.backend
             (Demo.context_of
                [("SAMLResponse", lit "resp"); ("RelayState", lit "Y")] [])
             BINDING_HTTP_POST Demo.pending (lit "resp") Demo.response_ok
             (lit "Y")
             (lit "urn:oasis:names:tc:SAML:2.0:ac:classes:Password", [])
             (lit "2016-01-01T10:00:00Z"));
    [reflexivity|reflexivity|discriminate|reflexivity..].
Defined.

(** X10: an accepted response that holds no authentication info or no
    authentication statement makes [authn_response] raise [IndexError]:
    the callback is not called, and the token has already been removed
    from the session state. *)
Theorem authn_response_untranslatable self ctx binding w payload resp echoed :
  request ctx !! "SAMLResponse" = Some payload -> payload <> [] ->
  parse_authn_request_response (sp self) payload binding = Ok resp ->
  request ctx !! "RelayState" = Some echoed ->
  w_state w !! name self = Some echoed ->
  authn_info resp = [] \/ authn_statement resp = [] ->
  authn_response self ctx binding w
  = (Raise IndexError,
     cleared self (logged w [EvParseResponse payload binding]))
  /\ w_state (authn_response self ctx binding w).2 !! name self = None.
Proof.
  intros Hreq Hne Hparse Hrelay Hst Hempty.
  rewrite (authn_response_match _ _ _ _ _ _ _ Hreq Hne Hparse Hrelay Hst).
  rewrite (deliver_untranslatable _ _ _ _ Hempty).
  split; [done|]. apply lookup_delete_eq.
Qed.

Lemma authn_response_untranslatable_witness :
  authn_response Demo2.answering_bare
    (Demo.context_of [("SAMLResponse", lit "resp"); ("RelayState", lit "Y")]
       [])
    BINDING_HTTP_POST Demo.pending
  = (Raise IndexError,
     cleared Demo2.answering_bare
       (logged Demo.pending [EvParseResponse (lit "resp") BINDING_HTTP_POST])).
Proof.
  apply (authn_response_untranslatable Demo2.answering_bare
           (Demo.context_of
              [("SAMLResponse", lit "resp"); ("RelayState", lit "Y")] [])
           BINDING_HTTP_POST Demo.pending (lit "resp") Demo2.response_bare
           (lit "Y"));
    [reflexivity|discriminate|reflexivity|reflexivity|reflexivity|].
  right. reflexivity.
Defined.

(** ** The relay state from issue to validation *)

(** The state an accepted response leaves holds no token, when the
    callback stores none. *)
Lemma authn_response_accepted_clears self ctx binding w payload resp echoed :
  request ctx !! "SAMLResponse" = Some payload -> payload <> [] ->
  parse_authn_request_response (sp self) payload binding = Ok resp ->
  request ctx !! "RelayState" = Some echoed ->
  w_state w !! name self = Some echoed ->
  (forall c ir st,
     st !! name self = None ->
     (auth_callback_func self c ir st).2 !! name self = None) ->
  w_state (authn_response self ctx binding w).2 !! name self = None.
Proof.
  intros Hreq Hne Hparse Hrelay Hst Hcb.
  rewrite (authn_response_match _ _ _ _ _ _ _ Hreq Hne Hparse Hrelay Hst).
  destruct (deliver_cases self ctx resp
              (cleared self (logged w [EvParseResponse payload binding])))
    as [Hd|[ir Hd]]; rewrite Hd; simpl.
  - apply lookup_delete_eq.
  - apply Hcb. apply lookup_delete_eq.
Qed.

(** X11: the token [authn_request] issued is the one [authn_response]
    accepts next: a parsed response that echoes the random string drawn
    is delivered with the token removed, and one that echoes anything
    else raises the mismatch error. *)
Theorem issued_token_validates self ctx e req w ctx' binding payload resp
    echoed :
  (authn_request self ctx e req w).1 <> Raise CONSTRUCTION_FAILED ->
  request ctx' !! "SAMLResponse" = Some payload -> payload <> [] ->
  parse_authn_request_response (sp self) payload binding = Ok resp ->
  request ctx' !! "RelayState" = Some echoed ->
  (echoed = rndstr_source self (w_rnd w) ->
   authn_response self ctx' binding (authn_request self ctx e req w).2
   = deliver self ctx' resp
       (cleared self
          (logged (authn_request self ctx e req w).2
             [EvParseResponse payload binding])))
  /\ (echoed <> rndstr_source self (w_rnd w) ->
      (authn_response self ctx' binding (authn_request self ctx e req w).2).1
      = Raise RELAY_STATE_MISMATCH).
Proof.
  intros Hok Hreq Hne Hparse Hrelay.
  destruct (authn_request_token_state self ctx e req w Hok) as [Hst _].
  split.
  - intros ->. apply (authn_response_match _ _ _ _ _ _ _ Hreq Hne Hparse Hrelay).
    rewrite Hst. apply lookup_insert_eq.
  - intros Hother.
    rewrite (authn_response_mismatch _ _ _ _ _ _ _ Hreq Hne Hparse Hrelay);
      [done|].
    rewrite Hst, lookup_insert_eq. congruence.
Qed.

Lemma issued_token_validates_witness :
  (authn_response Demo.single
     (Demo.context_of
        [("SAMLResponse", lit "resp"); ("RelayState", lit "token-0")] [])
     BINDING_HTTP_POST
     (authn_request Demo.single (Demo.context_of [] []) Demo.idp1
        Demo.no_request Demo.world0).2).1 = Ok (CallbackResponse 200)
  /\ (authn_response Demo.single
        (Demo.context_of
           [("SAMLResponse", lit "resp"); ("RelayState", lit "token-1")] [])
        BINDING_HTTP_POST
        (authn_request Demo.single (Demo.context_of [] []) Demo.idp1
           Demo.no_request Demo.world0).2).1 = Raise RELAY_STATE_MISMATCH.
Proof.
  split.
  - rewrite (proj1 (issued_token_validates Demo.single
                      (Demo.context_of [] []) Demo.idp1 Demo.no_request
                      Demo.world0
                      (Demo.context_of
                         [("SAMLResponse", lit "resp");
                          ("RelayState", lit "token-0")] [])
                      BINDING_HTTP_POST (lit "resp") Demo.response_ok
                      (lit "token-0")
                      ltac:(vm_compute; discriminate) eq_refl
                      ltac:(discriminate) eq_refl eq_refl) eq_refl).
    vm_compute. reflexivity.
  - apply (issued_token_validates Demo.single
             (Demo.context_of [] []) Demo.idp1 Demo.no_request Demo.world0
             (Demo.context_of
                [("SAMLResponse", lit "resp");
                 ("RelayState", lit "token-1")] [])
             BINDING_HTTP_POST (lit "resp") Demo.response_ok (lit "token-1"));
      [vm_compute; discriminate|reflexivity|discriminate|reflexivity
      |reflexivity|vm_compute; discriminate].
Defined.

(** X12: a token is accepted once. After an accepted response, with a
    callback that stores nothing under the name of the backend, the same
    request presented again raises the mismatch error and the session
    state stays as the first call left it. *)
Theorem accepted_token_is_single_use self ctx binding w payload resp echoed :
  request ctx !! "SAMLResponse" = Some payload -> payload <> [] ->
  parse_authn_request_response (sp self) payload binding = Ok resp ->
  request ctx !! "RelayState" = Some echoed ->
  w_state w !! name self = Some echoed ->
  (forall c ir st,
     st !! name self = None ->
     (auth_callback_func self c ir st).2 !! name self = None) ->
  (authn_response self ctx binding (authn_response self ctx binding w).2).1
  = Raise RELAY_STATE_MISMATCH
  /\ w_state
       (authn_response self ctx binding (authn_response self ctx binding w).2).2
     = w_state (authn_response self ctx binding w).2.
Proof.
  intros Hreq Hne Hparse Hrelay Hst Hcb.
  pose proof (authn_response_accepted_clears _ _ _ _ _ _ _
                Hreq Hne Hparse Hrelay Hst Hcb) as Hclear.
  rewrite (authn_response_mismatch self ctx binding
             (authn_response self ctx binding w).2 payload resp echoed
             Hreq Hne Hparse Hrelay); [done|].
  by rewrite Hclear.
Qed.

Lemma accepted_token_is_single_use_witness :
  (authn_response Demo.backend
     (Demo.context_of [("SAMLResponse", lit "resp"); ("RelayState", lit "Y")]
        [])
     BINDING_HTTP_POST
     (authn_response Demo.backend
        (Demo.context_of
           [("SAMLResponse", lit "resp"); ("RelayState", lit "Y")] [])
        BINDING_HTTP_POST Demo.pending).2).1 = Raise RELAY_STATE_MISMATCH.
Proof.
  apply (accepted_token_is_single_use Demo.backend
           (Demo.context_of
              [("SAMLResponse", lit "resp"); ("RelayState", lit "Y")] [])
           BINDING_HTTP_POST Demo.pending (lit "resp") Demo.response_ok
           (lit "Y"));
    [reflexivity|discriminate|reflexivity|reflexivity|reflexivity|].
  intros c ir st Hst. exact Hst.
Defined.

Lemma authn_request_state_cases self ctx e req w :
  w_state (authn_request self ctx e req w).2 = w_state w
  \/ w_state (authn_request self ctx e req w).2
     = <[name self := rndstr_source self (w_rnd w)]> (w_state w).
Proof.
  rewrite authn_request_unfold.
  pose proof (authn_request_try_state self e (req_args_of self) w) as Hst.
  destruct (authn_request_try _ _ _ w) as [[[[b rs] ht]|exc] w1] eqn:Htry.
  - right. destruct (authn_request_try_token _ _ _ _ _ _ _ _ Htry) as [-> Hrnd].
    simpl in Hst. unfold State.add.
    repeat case_match; simpl; by rewrite Hst.
  - left. simpl in *. repeat case_match; simpl; by rewrite ?Hst.
Qed.

(** X13: the last request wins. After two calls of [authn_request], the
    second of which got past the construction of its request, the
    session state is the original one with the token of the second call
    under the name of the backend, whatever the first call stored. *)
Theorem authn_request_last_writer_wins self ctx1 e1 req1 ctx2 e2 req2 w :
  (authn_request self ctx2 e2 req2 (authn_request self ctx1 e1 req1 w).2).1
  <> Raise CONSTRUCTION_FAILED ->
  w_state
    (authn_request self ctx2 e2 req2 (authn_request self ctx1 e1 req1 w).2).2
  = <[name self :=
        rndstr_source self (w_rnd (authn_request self ctx1 e1 req1 w).2)]>
      (w_state w).
Proof.
  intros Hok.
  destruct (authn_request_token_state self ctx2 e2 req2 _ Hok)
    as [-> _].
  destruct (authn_request_state_cases self ctx1 e1 req1 w) as [->| ->].
  - done.
  - apply insert_insert_eq.
Qed.

Lemma authn_request_last_writer_wins_witness :
  w_state
    (authn_request Demo.backend (Demo.context_of [] []) Demo.idp2
       Demo.no_request
       (authn_request Demo.backend (Demo.context_of [] []) Demo.idp1
          Demo.no_request Demo.world0).2).2
  = <[ "Saml2" := lit "token-1" ]> ∅.
Proof.
  rewrite (authn_request_last_writer_wins Demo.backend
             (Demo.context_of [] []) Demo.idp1 Demo.no_request
             (Demo.context_of [] []) Demo.idp2 Demo.no_request Demo.world0).
  - vm_compute. reflexivity.
  - vm_compute. discriminate.
Defined.

(** ** The URL map *)

Lemma for_local_appends {A B} (g : A -> B)
    (body : A -> list B -> result (list B)) l acc :
  (forall x acc, body x acc = Ok (acc ++ [g x])) ->
  for_local l body acc = Ok (acc ++ map g l).
Proof.
  intros Hbody. revert acc.
  induction l as [|x l IH]; intros acc.
  - by rewrite app_nil_r.
  - rewrite for_local_cons, Hbody, IH. simpl.
    by rewrite <- app_assoc.
Qed.

Lemma for_local_invariant {A S} (I : S -> Prop)
    (body : A -> S -> result S) l s s' :
  (forall x s s', body x s = Ok s' -> I s -> I s') ->
  I s -> for_local l body s = Ok s' -> I s'.
Proof.
  intros Hbody. revert s.
  induction l as [|x l IH]; intros s Hs.
  - unfold for_local. simpl. by intros [= <-].
  - rewrite for_local_cons.
    destruct (body x s) as [s1|exc] eqn:Hx; [|done].
    apply IH. by eapply Hbody.
Qed.

Lemma anchored_pattern body : anchored (lit "^" ++ body ++ lit "$").
Proof.
  change (lit "^" ++ body ++ lit "$") with ((94%N :: body) ++ [36%N]).
  unfold anchored. split; [done|]. split.
  - apply last_snoc.
  - rewrite length_app. simpl. lia.
Qed.

Lemma url_pattern_anchored urlparse_path url pattern :
  url_pattern urlparse_path url = Ok pattern -> anchored pattern.
Proof.
  unfold url_pattern. destruct (urlparse_path url) as [p|exc]; [|done].
  intros [= <-]. apply anchored_pattern.
Qed.

Lemma register_endpoints_paths self publish_metadata urlparse_path path :
  (forall url, urlparse_path url = Ok (path url)) ->
  register_endpoints self publish_metadata urlparse_path
  = (acs ← getitem (endpoints (sp self)) "assertion_consumer_service";
     disco ← (if truthy (discosrv self)
              then getitem (endpoints (sp self)) "discovery_response"
              else Ok []);
     Ok (url_map_of path acs publish_metadata disco)).
Proof.
  intros Hpath. unfold register_endpoints, url_map_of.
  destruct (getitem _ "assertion_consumer_service") as [acs|exc]; [|done].
  cbn [mbind result_bind rbind].
  rewrite (for_local_appends
             (fun eb => (lit "^" ++ drop 1 (path eb.1) ++ lit "$",
                         HandleAuthnResponse eb.2)));
    [|intros [endp binding] acc; unfold url_pattern; by rewrite Hpath].
  cbn [mbind result_bind rbind app].
  assert (forall base : list (pystr * endpoint_handler),
            match publish_metadata with
            | Some url =>
                pattern ← url_pattern urlparse_path url;
                Ok (base ++ [(pattern, HandleMetadata)])
            | None => Ok base
            end
            = Ok (base
                  ++ map (fun url => (lit "^" ++ drop 1 (path url) ++ lit "$",
                                      HandleMetadata))
                       (option_list publish_metadata))) as ->.
  { intros base. destruct publish_metadata as [url|]; simpl.
    - unfold url_pattern. by rewrite Hpath.
    - by rewrite app_nil_r. }
  cbn [mbind result_bind rbind].
  destruct (truthy (discosrv self)).
  - destruct (getitem _ "discovery_response") as [disco|exc]; [|done].
    cbn [mbind result_bind rbind].
    rewrite (for_local_appends
               (fun eb => (lit "^" ++ drop 1 (path eb.1) ++ lit "$",
                           HandleDiscoResponse)));
      [|intros [endp binding] acc; unfold url_pattern; by rewrite Hpath].
    by rewrite <- app_assoc.
  - cbn [mbind result_bind rbind map]. by rewrite !app_nil_r.
Qed.

(** X14: when every configured URL parses, [register_endpoints] returns,
    in this order, one entry per assertion consumer service carrying the
    binding of that service, the metadata entry if [publish_metadata] is
    configured, and one entry per discovery response endpoint if a
    discovery service is configured. *)
Theorem register_endpoints_url_map self publish_metadata urlparse_path path
    acs disco :
  (forall url, urlparse_path url = Ok (path url)) ->
  endpoints (sp self) !! "assertion_consumer_service" = Some acs ->
  (if truthy (discosrv self)
   then endpoints (sp self) !! "discovery_response" = Some disco
   else disco = []) ->
  register_endpoints self publish_metadata urlparse_path
  = Ok (url_map_of path acs publish_metadata disco)
  /\ length (url_map_of path acs publish_metadata disco)
     = length acs + length (option_list publish_metadata) + length disco.
Proof.
  intros Hpath Hacs Hdisco. split.
  - rewrite (register_endpoints_paths _ _ _ _ Hpath).
    unfold getitem. rewrite Hacs. cbn [mbind result_bind rbind].
    destruct (truthy (discosrv self)).
    + by rewrite Hdisco.
    + by rewrite Hdisco.
  - unfold url_map_of. rewrite !length_app, !length_map. lia.
Qed.

Lemma register_endpoints_url_map_witness :
  register_endpoints Demo.backend (Some (lit "https://proxy.example/metadata"))
    Demo2.path_of
  = Ok [(lit "^acs/post$", HandleAuthnResponse BINDING_HTTP_POST);
        (lit "^metadata$", HandleMetadata);
        (lit "^disco$", HandleDiscoResponse)].
Proof.
  rewrite (proj1 (register_endpoints_url_map Demo.backend
                    (Some (lit "https://proxy.example/metadata"))
                    Demo2.path_of (Demo2.after_slashes 2)
                    [(lit "https://proxy.example/acs/post", BINDING_HTTP_POST)]
                    [(lit "https://proxy.example/disco", lit "disco")]
                    ltac:(reflexivity) ltac:(reflexivity)
                    ltac:(reflexivity))).
  vm_compute. reflexivity.
Defined.

(** X15: every pattern of the URL map [register_endpoints] returns is
    anchored: it starts with a caret and ends with a dollar sign,
    whatever the paths of the configured URLs are. *)
Theorem register_endpoints_anchored self publish_metadata urlparse_path
    url_map :
  register_endpoints self publish_metadata urlparse_path = Ok url_map ->
  Forall (fun entry => anchored entry.1) url_map.
Proof.
  unfold register_endpoints.
  destruct (getitem _ "assertion_consumer_service") as [acs|exc]; [|done].
  cbn [mbind result_bind rbind].
  destruct (for_local acs _ []) as [m1|exc] eqn:H1; [|done].
  cbn [mbind result_bind rbind].
  assert (Forall (fun entry : pystr * endpoint_handler => anchored entry.1) m1)
    as Hm1.
  { eapply (for_local_invariant
              (Forall (fun entry : pystr * endpoint_handler =>
                         anchored entry.1))); [|apply Forall_nil_2|exact H1].
    intros [endp binding] s s' Hb Hs. simpl in Hb.
    destruct (url_pattern urlparse_path endp) as [p|] eqn:Hp; [|done].
    injection Hb as <-. apply Forall_app. split; [done|].
    apply Forall_singleton. simpl. by eapply url_pattern_anchored. }
  destruct (match publish_metadata with Some _ => _ | None => _ end)
    as [m2|exc] eqn:H2; [|done].
  cbn [mbind result_bind rbind].
  assert (Forall (fun entry : pystr * endpoint_handler => anchored entry.1) m2)
    as Hm2.
  { destruct publish_metadata as [url|]; [|by simplify_eq].
    destruct (url_pattern urlparse_path url) as [p|] eqn:Hp; [|done].
    injection H2 as <-. apply Forall_app. split; [done|].
    apply Forall_singleton. simpl. by eapply url_pattern_anchored. }
  destruct (truthy (discosrv self)); [|by intros [= <-]].
  destruct (getitem _ "discovery_response") as [disco|exc]; [|done].
  cbn [mbind result_bind rbind].
  intros H3.
  eapply (for_local_invariant
            (Forall (fun entry : pystr * endpoint_handler =>
                       anchored entry.1))); [|exact Hm2|exact H3].
  intros [endp binding] s s' Hb Hs. simpl in Hb.
  destruct (url_pattern urlparse_path endp) as [p|] eqn:Hp; [|done].
  injection Hb as <-. apply Forall_app. split; [done|].
  apply Forall_singleton. simpl. by eapply url_pattern_anchored.
Qed.

Lemma register_endpoints_anchored_witness :
  Forall (fun entry : pystr * endpoint_handler => anchored entry.1)
    [(lit "^acs/post$", HandleAuthnResponse BINDING_HTTP_POST);
     (lit "^disco$", HandleDiscoResponse)].
Proof.
  apply (register_endpoints_anchored Demo.backend None Demo2.path_of).
  vm_compute. reflexivity.
Defined.

(** X16: [register_endpoints] raises [KeyError] when the configuration
    has no assertion consumer service, and, with URLs that parse, when a
    discovery service is configured without a discovery response
    endpoint. Without a discovery service (none, or an empty string) the
    discovery response endpoints are not read: the call succeeds
    without them and registers no discovery handler. *)
Theorem register_endpoints_missing_endpoints self publish_metadata
    urlparse_path path :
  (forall url, urlparse_path url = Ok (path url)) ->
  (endpoints (sp self) !! "assertion_consumer_service" = None ->
   register_endpoints self publish_metadata urlparse_path = Raise KeyError)
  /\ (forall acs,
        endpoints (sp self) !! "assertion_consumer_service" = Some acs ->
        endpoints (sp self) !! "discovery_response" = None ->
        register_endpoints self publish_metadata urlparse_path
        = if truthy (discosrv self) then Raise KeyError
          else Ok (url_map_of path acs publish_metadata []))
  /\ (truthy (discosrv self) = false ->
      forall url_map,
        register_endpoints self publish_metadata urlparse_path = Ok url_map ->
        Forall (fun entry => entry.2 <> HandleDiscoResponse) url_map).
Proof.
  intros Hpath. rewrite (register_endpoints_paths _ _ _ _ Hpath).
  unfold getitem. repeat split.
  - by intros ->.
  - intros acs -> ->. cbn [mbind result_bind rbind].
    by destruct (truthy (discosrv self)).
  - intros -> url_map.
    destruct (endpoints (sp self) !! "assertion_consumer_service")
      as [acs|]; [|done].
    cbn [mbind result_bind rbind]. intros [= <-].
    unfold url_map_of. rewrite !Forall_app, !Forall_map. simpl.
    repeat split; try apply Forall_nil_2; apply Forall_true; done.
Qed.

Lemma register_endpoints_missing_endpoints_witness :
  register_endpoints Demo2.bare None Demo2.path_of = Raise KeyError
  /\ register_endpoints Demo2.no_disco_endpoint None Demo2.path_of
     = Raise KeyError.
Proof.
  split.
  - apply (register_endpoints_missing_endpoints Demo2.bare None Demo2.path_of
             (Demo2.after_slashes 2) ltac:(reflexivity)).
    reflexivity.
  - apply (proj1 (proj2 (register_endpoints_missing_endpoints
                           Demo2.no_disco_endpoint None Demo2.path_of
                           (Demo2.after_slashes 2) ltac:(reflexivity)))
             [(lit "https://proxy.example/acs/post", BINDING_HTTP_POST)]);
      reflexivity.
Defined.

(** ** The description key and the hint *)

Section key_facts.
Local Open Scope N_scope.
Import Base64.

Lemma urlsafe_alphabet i :
  i < 64 -> is_urlsafe_char (urlsafe_encode_translation (table_b2a i)) = true.
Proof.
  intros Hi. unfold urlsafe_encode_translation, is_urlsafe_char.
  destruct (table_b2a_cases i Hi) as [[? ->]|[[? ->]|[[? ->]|[[? ->]|[? ->]]]]];
    by cmp.
Qed.

Lemma urlsafe_b64encode_alphabet bs :
  Forall (fun b => b < 256) bs ->
  forallb is_urlsafe_char (urlsafe_b64encode bs) = true.
Proof.
  intros Hall. unfold urlsafe_b64encode.
  induction (b2a_sextets bs Hall) as [|ch l [->|(i & Hi & ->)] _ IH];
    cbn [map forallb].
  - done.
  - by rewrite IH.
  - by rewrite IH, urlsafe_alphabet.
Qed.

Lemma b2a_base64_length bs :
  (length (b2a_base64 bs) = 4 * ((length bs + 2) / 3))%nat.
Proof.
  remember (length bs) as n eqn:Hn. revert bs Hn.
  induction n as [n IH] using (well_founded_induction lt_wf).
  intros [|a [|b [|c r]]] Hn; subst n; cbn [b2a_base64 length].
  - done.
  - done.
  - done.
  - rewrite (IH (length r)) by (simpl; lia || done).
    replace (S (S (S (length r))) + 2)%nat
      with ((length r + 2) + 1 * 3)%nat by lia.
    rewrite Nat.div_add by lia. lia.
Qed.

Lemma encode_entity_id_chars entity_id k :
  encode_entity_id entity_id = Ok k ->
  exists bs, Utf8.encode entity_id = Ok bs /\ k = urlsafe_b64encode bs.
Proof.
  unfold encode_entity_id, mbind, result_bind.
  destruct (Utf8.encode entity_id) as [bs|] eqn:Henc; cbn [rbind]; [|done].
  destruct (urlsafe_roundtrip_chars bs (utf8_encode_bytes _ _ Henc))
    as [_ Hascii].
  rewrite (decode_ascii _ Hascii). intros [= <-]. by exists bs.
Qed.

Lemma utf8_decode_text bs s : Utf8.decode bs = Ok s -> is_text s.
Proof.
  remember (length bs) as n eqn:Hn. revert bs s Hn.
  induction n as [n IH] using (well_founded_induction lt_wf).
  intros bs s Hn. destruct bs as [|b0 r0]; [intros [= <-]; constructor|].
  cbn [Utf8.decode]. cbv zeta.
  assert (Hrec : forall r c,
            (length r < n)%nat ->
            c < 0x110000 -> Utf8.is_surrogate c = false ->
            rmap (cons c) (Utf8.decode r) = Ok s -> is_text s).
  { intros r c Hr Hc Hsur. unfold rmap, rbind.
    destruct (Utf8.decode r) as [s'|] eqn:Hd; [|done].
    intros [= <-]. constructor; [done|]. by eapply (IH (length r)). }
  subst n. cbn [length] in Hrec.
  destruct (N.ltb_spec b0 0x80).
  { apply Hrec; [lia|lia|]. unfold Utf8.is_surrogate. by cmp. }
  destruct (N.ltb_spec b0 0xC2); [done|].
  destruct (N.ltb_spec b0 0xE0).
  { destruct r0 as [|b1 r1]; [done|].
    unfold Utf8.is_cont.
    destruct (N.leb_spec 0x80 b1); [|done].
    destruct (N.ltb_spec b1 0xC0); [|done].
    cbn [andb]. apply Hrec; [simpl; lia|lia|].
    unfold Utf8.is_surrogate. by cmp. }
  destruct (N.ltb_spec b0 0xF0).
  { destruct r0 as [|b1 [|b2 r2]]; [done..|].
    unfold Utf8.is_cont.
    destruct (N.leb_spec 0x80 b1); [|done].
    destruct (N.ltb_spec b1 0xC0); [|done].
    destruct (N.leb_spec 0x80 b2); [|done].
    destruct (N.ltb_spec b2 0xC0); [|done].
    cbn [andb].
    destruct (N.ltb_spec ((b0 - 0xE0) * 4096 + (b1 - 0x80) * 64 + (b2 - 0x80))
                0x800); [done|].
    cbn [andb negb].
    destruct (Utf8.is_surrogate _) eqn:Hsur; [done|].
    cbn [negb]. apply Hrec; [simpl; lia|lia|done]. }
  destruct (N.ltb_spec b0 0xF5); [|done].
  destruct r0 as [|b1 [|b2 [|b3 r3]]]; [done..|].
  unfold Utf8.is_cont.
  destruct (N.leb_spec 0x80 b1); [|done].
  destruct (N.ltb_spec b1 0xC0); [|done].
  destruct (N.leb_spec 0x80 b2); [|done].
  destruct (N.ltb_spec b2 0xC0); [|done].
  destruct (N.leb_spec 0x80 b3); [|done].
  destruct (N.ltb_spec b3 0xC0); [|done].
  cbn [andb].
  destruct (N.ltb_spec ((b0 - 0xF0) * 262144 + (b1 - 0x80) * 4096
                        + (b2 - 0x80) * 64 + (b3 - 0x80)) 0x10000); [done|].
  cbn [andb negb].
  destruct (N.ltb_spec ((b0 - 0xF0) * 262144 + (b1 - 0x80) * 4096
                        + (b2 - 0x80) * 64 + (b3 - 0x80)) 0x110000); [|done].
  apply Hrec; [simpl; lia|lia|].
  unfold Utf8.is_surrogate. by cmp.
Qed.

(** Characters that [a2b_base64] skips: neither in the alphabet nor the
    pad. *)
Lemma a2b_loop_skips h1 c h2 quad_pos leftchar pads :
  (c =? BASE64_PAD) = false -> table_a2b c = None ->
  a2b_loop (h1 ++ c :: h2) quad_pos leftchar pads
  = a2b_loop (h1 ++ h2) quad_pos leftchar pads.
Proof.
  intros Hpad Htab. revert quad_pos leftchar pads.
  induction h1 as [|x h1 IH]; intros quad_pos leftchar pads.
  - cbn [app a2b_loop]. by rewrite Hpad, Htab.
  - cbn [app a2b_loop]. repeat case_match; by rewrite ?IH.
Qed.

Lemma foreign_character c :
  is_urlsafe_char c = false -> c <> 43 -> c <> 47 ->
  (urlsafe_decode_translation c =? BASE64_PAD) = false
  /\ table_a2b (urlsafe_decode_translation c) = None.
Proof.
  unfold is_urlsafe_char.
  rewrite !orb_false_iff, !andb_false_iff, !N.leb_gt, !N.eqb_neq.
  intros [[[[[H1 H2] H3] H4] H5] H6] Hplus Hslash.
  unfold urlsafe_decode_translation, BASE64_PAD, table_a2b.
  destruct H1, H2, H3; try lia; by cmp.
Qed.

End key_facts.

(** X17: the key of a description is made of the characters of the
    URL-safe base64 alphabet and the pad only, and its length is a
    multiple of four. *)
Theorem description_key_urlsafe entity_id k :
  encode_entity_id entity_id = Ok k ->
  forallb is_urlsafe_char k = true /\ length k mod 4 = 0.
Proof.
  intros (bs & Henc & ->)%encode_entity_id_chars. split.
  - apply urlsafe_b64encode_alphabet. by eapply utf8_encode_bytes.
  - unfold Base64.urlsafe_b64encode.
    rewrite length_map, b2a_base64_length, Nat.mul_comm.
    apply Nat.Div0.mod_mul.
Qed.

Lemma description_key_urlsafe_witness :
  forallb is_urlsafe_char (lit "aMOp4oKs8J-YgA==") = true
  /\ length (lit "aMOp4oKs8J-YgA==") mod 4 = 0.
Proof.
  apply (description_key_urlsafe [0x68; 0xE9; 0x20AC; 0x1F600]%N).
  vm_compute. reflexivity.
Defined.

(** X18: two entity ids never share a description key. *)
Theorem description_key_injective entity_id entity_id' k :
  encode_entity_id entity_id = Ok k ->
  encode_entity_id entity_id' = Ok k ->
  entity_id = entity_id'.
Proof.
  intros H1%decode_encode_entity_id H2%decode_encode_entity_id. congruence.
Qed.

Lemma description_key_injective_witness :
  Demo.idp1 = Demo.idp1.
Proof.
  apply (description_key_injective Demo.idp1 Demo.idp1
           (lit "aHR0cHM6Ly9pZHAxLmV4YW1wbGUvaWRw"));
    vm_compute; reflexivity.
Defined.

(** X19: whatever entity id [start_auth] decodes from a hint is text, so
    it has a description key, and that key decodes to the same entity
    id. *)
Theorem decoded_hint_has_key hint entity_id :
  decode_target_entity_id hint = Ok entity_id ->
  is_text entity_id
  /\ exists k, encode_entity_id entity_id = Ok k
               /\ decode_target_entity_id k = Ok entity_id.
Proof.
  unfold decode_target_entity_id.
  destruct (Base64.urlsafe_b64decode hint) as [bs|]; cbn [rbind]; [|done].
  intros Htext%utf8_decode_text. split; [done|].
  destruct (encode_entity_id_total _ Htext) as [k Hk].
  exists k. split; [done|]. by apply decode_encode_entity_id.
Qed.

Lemma decoded_hint_has_key_witness :
  is_text [0x68; 0xE9; 0x20AC; 0x1F600]%N
  /\ exists k, encode_entity_id [0x68; 0xE9; 0x20AC; 0x1F600]%N = Ok k
               /\ decode_target_entity_id k
                  = Ok [0x68; 0xE9; 0x20AC; 0x1F600]%N.
Proof.
  apply (decoded_hint_has_key (lit "aMOp 4oKs8J-YgA==")).
  vm_compute. reflexivity.
Defined.

(** X20: the hint is decoded leniently. An ASCII character that is
    neither in the URL-safe alphabet, nor the pad, nor a plus sign or a
    slash, can be put anywhere in a hint without changing what it
    decodes to. *)
Theorem hint_skips_foreign_characters h1 c h2 :
  (c < 128)%N -> is_urlsafe_char c = false -> c <> 43%N -> c <> 47%N ->
  decode_target_entity_id (h1 ++ c :: h2) = decode_target_entity_id (h1 ++ h2).
Proof.
  intros Hc Hforeign Hplus Hslash.
  unfold decode_target_entity_id, Base64.urlsafe_b64decode,
    Base64.bytes_from_decode_types, Base64.a2b_base64.
  rewrite !forallb_app. cbn [forallb].
  rewrite (proj2 (N.ltb_lt c 128) Hc). cbn [andb].
  destruct (forallb _ h1 && forallb _ h2); cbn [rbind]; [|done].
  rewrite !map_app. cbn [map].
  destruct (foreign_character c Hforeign Hplus Hslash) as [Hpad Htab].
  by rewrite a2b_loop_skips.
Qed.

Lemma hint_skips_foreign_characters_witness :
  decode_target_entity_id
    (lit "aHR0cHM6Ly9p" ++ 10%N :: lit "ZHAxLmV4YW1wbGUvaWRw")
  = Ok Demo.idp1.
Proof.
  rewrite (hint_skips_foreign_characters (lit "aHR0cHM6Ly9p") 10
             (lit "ZHAxLmV4YW1wbGUvaWRw") ltac:(reflexivity)
             ltac:(reflexivity) ltac:(discriminate) ltac:(discriminate)).
  vm_compute. reflexivity.
Defined.

(** ** The sections of a description *)

Lemma for_local_mapM {A B S} (f : A -> option B) (add : B -> S -> S)
    (body : A -> S -> result S) l s :
  (forall x s, body x s = match f x with
                          | Some y => Ok (add y s)
                          | None => Raise KeyError
                          end) ->
  for_local l body s
  = match mapM f l with
    | Some ys => Ok (foldl (fun s y => add y s) s ys)
    | None => Raise KeyError
    end.
Proof.
  intros Hbody. revert s. induction l as [|x l IH]; intros s; [done|].
  rewrite for_local_cons, Hbody. cbn [mapM]. unfold mbind, option_bind.
  destruct (f x) as [y|]; [|done].
  rewrite IH. by destruct (mapM f l).
Qed.

Lemma localized_body {S} (add : pystr -> pystr -> S -> S) x (s : S) :
  (t ← key (Md.text x); l ← key (Md.lang x); Ok (add t l s))
  = match localized_pair x with
    | Some p => Ok (add p.1 p.2 s)
    | None => Raise KeyError
    end.
Proof.
  unfold localized_pair. by destruct (Md.text x), (Md.lang x).
Qed.

Lemma foldl_add_name ps o :
  foldl (fun o p => Desc.add_name p.1 p.2 o) o ps
  = {| Desc.org_name := Desc.org_name o ++ ps;
       Desc.org_display_name := Desc.org_display_name o;
       Desc.org_url := Desc.org_url o |}.
Proof.
  revert o. induction ps as [|[t l] ps IH]; intros o; simpl.
  - destruct o. simpl. by rewrite app_nil_r.
  - rewrite IH. simpl. by rewrite <- app_assoc.
Qed.

Lemma foldl_add_display_name ps o :
  foldl (fun o p => Desc.add_display_name p.1 p.2 o) o ps
  = {| Desc.org_name := Desc.org_name o;
       Desc.org_display_name := Desc.org_display_name o ++ ps;
       Desc.org_url := Desc.org_url o |}.
Proof.
  revert o. induction ps as [|[t l] ps IH]; intros o; simpl.
  - destruct o. simpl. by rewrite app_nil_r.
  - rewrite IH. simpl. by rewrite <- app_assoc.
Qed.

Lemma foldl_add_url ps o :
  foldl (fun o p => Desc.add_url p.1 p.2 o) o ps
  = {| Desc.org_name := Desc.org_name o;
       Desc.org_display_name := Desc.org_display_name o;
       Desc.org_url := Desc.org_url o ++ ps |}.
Proof.
  revert o. induction ps as [|[t l] ps IH]; intros o; simpl.
  - destruct o. simpl. by rewrite app_nil_r.
  - rewrite IH. simpl. by rewrite <- app_assoc.
Qed.

Lemma foldl_add_email_address ts p :
  foldl (fun p t => Desc.add_email_address t p) p ts
  = {| Desc.contact_type := Desc.contact_type p;
       Desc.email_address := Desc.email_address p ++ ts;
       Desc.given_name := Desc.given_name p;
       Desc.sur_name := Desc.sur_name p |}.
Proof.
  revert p. induction ts as [|t ts IH]; intros p; simpl.
  - destruct p. simpl. by rewrite app_nil_r.
  - rewrite IH. simpl. by rewrite <- app_assoc.
Qed.

Ltac step_result := unfold mbind at 1, result_bind at 1; cbn [rbind key].

Lemma organization_block_of entity entity_id info organization_info :
  entity !! entity_id = Some info ->
  Md.organization info = Some organization_info ->
  organization_block entity entity_id
  = match organization_of organization_info with
    | Some organization => Ok organization
    | None => Raise KeyError
    end.
Proof.
  intros Hinfo Horg. unfold organization_block, organization_of.
  rewrite Hinfo. step_result. rewrite Horg. step_result.
  rewrite (for_local_mapM localized_pair
             (fun p o => Desc.add_name p.1 p.2 o))
    by (intros; apply localized_body).
  destruct (mapM localized_pair (default [] (Md.organization_name _)))
    as [names|]; [|done].
  step_result.
  rewrite (for_local_mapM localized_pair
             (fun p o => Desc.add_display_name p.1 p.2 o))
    by (intros; apply localized_body).
  destruct (mapM localized_pair (default [] (Md.organization_display_name _)))
    as [display_names|]; [|done].
  step_result.
  rewrite (for_local_mapM localized_pair
             (fun p o => Desc.add_url p.1 p.2 o))
    by (intros; apply localized_body).
  destruct (mapM localized_pair (default [] (Md.organization_url _)))
    as [urls|]; [|done].
  step_result. cbn [mbind option_bind].
  by rewrite foldl_add_url, foldl_add_display_name, foldl_add_name.
Qed.

(** X21: the organization of an entity is listed whole or not at all.
    When every name, display name and URL of the organization has a text
    and a language, the block sets the organization with all of them, in
    order; one entry that lacks either leaves the description without
    the organization. The block never raises. *)
Theorem organization_all_or_nothing entity entity_id info organization_info
    description :
  entity !! entity_id = Some info ->
  Md.organization info = Some organization_info ->
  add_organization_info entity entity_id description
  = Ok match organization_of organization_info with
       | Some organization => Desc.set_organization organization description
       | None => description
       end.
Proof.
  intros Hinfo Horg.
  rewrite add_organization_info_ok,
    (organization_block_of _ _ _ _ Hinfo Horg).
  by destruct (organization_of organization_info).
Qed.

Lemma organization_all_or_nothing_witness :
  add_organization_info (Md.entity Demo2.file2) Demo.idp2 (Desc.new [])
  = Ok {| Desc.entity_id := [];
          Desc.organization :=
            Some {| Desc.org_name := [(lit "Example", lit "en");
                                      (lit "Exemple", lit "fr")];
                    Desc.org_display_name := [];
                    Desc.org_url := [(lit "https://example.org", lit "en")] |};
          Desc.contact_person := [];
          Desc.ui_info := None |}.
Proof.
  rewrite (organization_all_or_nothing (Md.entity Demo2.file2)
             Demo.idp2 Demo2.info2
             {| Md.organization_name :=
                  Some [Demo2.localized_of "Example" "en";
                        Demo2.localized_of "Exemple" "fr"];
                Md.organization_display_name := None;
                Md.organization_url :=
                  Some [Demo2.localized_of "https://example.org" "en"] |}
             (Desc.new []) ltac:(reflexivity) ltac:(reflexivity)).
  reflexivity.
Defined.

Lemma contact_person_body_of cont_pers description :
  contact_person_body cont_pers description
  = match person_of cont_pers with
    | Some person => Ok (Desc.add_contact_person person description)
    | None => Raise KeyError
    end.
Proof.
  unfold contact_person_body, person_of. cbv zeta.
  rewrite (for_local_mapM Md.text Desc.add_email_address)
    by (intros x s; by destruct (Md.text x)).
  unfold mbind at 1, option_bind at 1.
  destruct (mapM Md.text (default [] (Md.email_address cont_pers)))
    as [emails|]; [|done].
  unfold mbind at 1, result_bind at 1. cbn [rbind].
  rewrite foldl_add_email_address.
  destruct (Md.given_name cont_pers) as [g|];
    [destruct (Md.text g) as [gt|]; [|done]|];
    (destruct (Md.sur_name cont_pers) as [s|];
     [destruct (Md.text s) as [st|]; [|done]|]);
    by destruct (Md.contact_type cont_pers).
Qed.

Lemma for_each_prefix_map {A B S} (f : A -> option B) (add : B -> S -> S)
    (body : A -> S -> result S) l s :
  (forall x s, body x s = match f x with
                          | Some y => Ok (add y s)
                          | None => Raise KeyError
                          end) ->
  (for_each l body s).1 = foldl (fun s y => add y s) s (prefix_map f l).
Proof.
  intros Hbody. revert s. induction l as [|x l IH]; intros s; [done|].
  cbn [for_each prefix_map]. rewrite Hbody.
  destruct (f x) as [y|]; [|done]. by rewrite IH.
Qed.

Lemma foldl_add_contact_person ps d :
  foldl (fun d p => Desc.add_contact_person p d) d ps
  = {| Desc.entity_id := Desc.entity_id d;
       Desc.organization := Desc.organization d;
       Desc.contact_person := Desc.contact_person d ++ ps;
       Desc.ui_info := Desc.ui_info d |}.
Proof.
  revert d. induction ps as [|p ps IH]; intros d; simpl.
  - destruct d. simpl. by rewrite app_nil_r.
  - rewrite IH. simpl. by rewrite <- app_assoc.
Qed.

(** X22: the contact persons of an entity are listed in order up to the
    first malformed one. A person is listed with all its e-mail
    addresses, its given name and its surname, or, when one of these has
    no text, not at all, and then no later person is listed either. The
    block never raises and changes nothing else of the description. *)
Theorem contact_persons_up_to_malformed entity entity_id info contact_persons
    description :
  entity !! entity_id = Some info ->
  Md.contact_persons info = Some contact_persons ->
  add_contact_person_info entity entity_id description
  = Ok {| Desc.entity_id := Desc.entity_id description;
          Desc.organization := Desc.organization description;
          Desc.contact_person :=
            Desc.contact_person description
            ++ prefix_map person_of contact_persons;
          Desc.ui_info := Desc.ui_info description |}.
Proof.
  intros Hinfo Hpersons.
  rewrite add_contact_person_info_ok, Hinfo. cbn [mbind option_bind].
  rewrite Hpersons.
  rewrite (for_each_prefix_map person_of Desc.add_contact_person)
    by apply contact_person_body_of.
  by rewrite foldl_add_contact_person.
Qed.

Lemma contact_persons_up_to_malformed_witness :
  add_contact_person_info (Md.entity Demo.file1) Demo.idp1 (Desc.new [])
  = Ok {| Desc.entity_id := [];
          Desc.organization := None;
          Desc.contact_person :=
            [ {| Desc.contact_type := Some (lit "technical");
                 Desc.email_address := [lit "a@example.org"];
                 Desc.given_name := None;
                 Desc.sur_name := None |} ];
          Desc.ui_info := None |}.
Proof.
  rewrite (contact_persons_up_to_malformed (Md.entity Demo.file1) Demo.idp1
             _ _ (Desc.new []) eq_refl eq_refl).
  reflexivity.
Defined.


Lemma foldl_set_ui_info us d :
  foldl (fun d u => Desc.set_ui_info u d) d us
  = {| Desc.entity_id := Desc.entity_id d;
       Desc.organization := Desc.organization d;
       Desc.contact_person := Desc.contact_person d;
       Desc.ui_info := match last us with
                       | Some u => Some u
                       | None => Desc.ui_info d
                       end |}.
Proof.
  revert d. induction us as [|u us IH]; intros d.
  - by destruct d.
  - cbn [foldl]. rewrite IH. cbn [Desc.set_ui_info Desc.entity_id
      Desc.organization Desc.contact_person Desc.ui_info].
    f_equal. destruct us as [|u' us']; [done|].
    change (last (u :: u' :: us')) with (last (u' :: us')).
    destruct (last (u' :: us')) eqn:Hlast; [done|].
    by apply last_None in Hlast.
Qed.



(** X24: extension elements of another class than the UI info are
    skipped, provided each has a class: they add nothing to the UI info.
    *)
Theorem ui_elements_of_other_classes_skipped ui_elements ui_info :
  Forall (fun element => is_Some (Md.class element)) ui_elements ->
  for_local ui_elements ui_element_body ui_info
  = for_local (filter (fun element => is_ui_info element = true) ui_elements)
      ui_element_body ui_info.
Proof.
  intros Hclass. revert ui_info.
  induction Hclass as [|element l [class Hc] _ IH]; intros ui_info; [done|].
  destruct (is_ui_info element) eqn:Hui.
  - rewrite filter_cons_True by done. rewrite !for_local_cons.
    destruct (ui_element_body element ui_info); [apply IH|done].
  - rewrite filter_cons_False by (by rewrite Hui). rewrite for_local_cons.
    unfold ui_element_body at 1. rewrite Hc. step_result.
    unfold is_ui_info in Hui. rewrite Hc in Hui.
    apply bool_decide_eq_false in Hui.
    rewrite bool_decide_eq_true_2 by congruence. apply IH.
Qed.

Lemma ui_elements_of_other_classes_skipped_witness :
  for_local
    [ {| Md.class := Some (lit "urn:other&Scope");
         Md.el_description := None;
         Md.el_display_name := Some [Demo2.localized_of "x" "en"];
         Md.el_logo := None |};
      {| Md.class := Some (UI_NAMESPACE ++ lit "&UIInfo");
         Md.el_description := None;
         Md.el_display_name := Some [Demo2.localized_of "A" "en"];
         Md.el_logo := None |} ]
    ui_element_body Desc.new_ui_info
  = Ok {| Desc.ui_description := [];
          Desc.ui_display_name := [(lit "A", lit "en")];
          Desc.ui_logo := [] |}.
Proof.
  rewrite (ui_elements_of_other_classes_skipped
             [ {| Md.class := Some (lit "urn:other&Scope");
                  Md.el_description := None;
                  Md.el_display_name := Some [Demo2.localized_of "x" "en"];
                  Md.el_logo := None |};
               {| Md.class := Some (UI_NAMESPACE ++ lit "&UIInfo");
                  Md.el_description := None;
                  Md.el_display_name := Some [Demo2.localized_of "A" "en"];
                  Md.el_logo := None |} ]
             Desc.new_ui_info).
  - vm_compute. reflexivity.
  - repeat constructor; by eexists.
Defined.

(** ** When the listing is returned *)

Lemma utf8_encode_cp_text c bs :
  Utf8.encode_cp c = Ok bs ->
  (c < 0x110000)%N /\ Utf8.is_surrogate c = false.
Proof.
  unfold Utf8.encode_cp.
  destruct (N.ltb_spec c 0x80).
  { intros _. split; [lia|]. unfold Utf8.is_surrogate. by cmp. }
  destruct (N.ltb_spec c 0x800).
  { intros _. split; [lia|]. unfold Utf8.is_surrogate. by cmp. }
  destruct (N.ltb_spec c 0x10000).
  { destruct (Utf8.is_surrogate c); [done|]. intros _. split; [lia|done]. }
  destruct (N.ltb_spec c 0x110000); [|done].
  intros _. split; [lia|]. unfold Utf8.is_surrogate. by cmp.
Qed.

Lemma utf8_encode_cp_raises c e :
  Utf8.encode_cp c = Raise e -> e = UnicodeEncodeError.
Proof.
  unfold Utf8.encode_cp. repeat case_match; by intros; simplify_eq.
Qed.

Lemma utf8_encode_text s bs : Utf8.encode s = Ok bs -> is_text s.
Proof.
  revert bs. induction s as [|c s IH]; intros bs; [constructor|].
  cbn [Utf8.encode].
  destruct (Utf8.encode_cp c) as [b|] eqn:Ec; cbn [rbind]; [|done].
  destruct (Utf8.encode s) as [bs'|]; cbn [rmap rbind]; [|done].
  intros _. constructor; [by eapply utf8_encode_cp_text|by eapply IH].
Qed.

Lemma utf8_encode_raises s e :
  Utf8.encode s = Raise e -> e = UnicodeEncodeError.
Proof.
  induction s as [|c s IH]; [done|]. cbn [Utf8.encode].
  destruct (Utf8.encode_cp c) as [b|] eqn:Ec; cbn [rbind].
  - destruct (Utf8.encode s) as [bs'|]; cbn [rmap rbind]; [done|].
    intros [= <-]. by apply IH.
  - intros [= <-]. by eapply utf8_encode_cp_raises.
Qed.

Lemma encode_entity_id_cases entity_id :
  (is_text entity_id /\ exists k, encode_entity_id entity_id = Ok k)
  \/ (~ is_text entity_id
      /\ encode_entity_id entity_id = Raise UnicodeEncodeError).
Proof.
  unfold encode_entity_id, mbind, result_bind.
  destruct (Utf8.encode entity_id) as [bs|e] eqn:Henc; cbn [rbind].
  - left. split; [by eapply utf8_encode_text|].
    destruct (urlsafe_roundtrip_chars bs (utf8_encode_bytes _ _ Henc))
      as [_ Hascii].
    rewrite (decode_ascii _ Hascii). by eexists.
  - right. rewrite (utf8_encode_raises _ _ Henc) in *. split; [|done].
    intros [bs Hbs]%encode_total. congruence.
Qed.

Lemma describe_entity_cases entity entity_id :
  (is_text entity_id /\ exists d, describe_entity entity entity_id = Ok d)
  \/ (~ is_text entity_id
      /\ describe_entity entity entity_id = Raise UnicodeEncodeError).
Proof.
  destruct (encode_entity_id_cases entity_id) as [[Ht [k Hk]]|[Ht Hk]].
  - left. split; [done|]. eexists. by apply describe_entity_ok.
  - right. split; [done|].
    unfold describe_entity, mbind at 1, result_bind at 1. by rewrite Hk.
Qed.

Lemma for_local_Ok_each {A S} (body : A -> S -> result S) l s s' :
  for_local l body s = Ok s' ->
  Forall (fun x => exists s0 s1, body x s0 = Ok s1) l.
Proof.
  revert s. induction l as [|x l IH]; intros s; [constructor|].
  rewrite for_local_cons. destruct (body x s) as [s1|] eqn:Hb; [|done].
  intros Hrest. constructor; [by eauto|by eapply IH].
Qed.

Lemma describe_file_Ok file acc r :
  describe_file file acc = Ok r ->
  (is_Some (Md.entity_descr file) \/ is_Some (Md.entities_descr file))
  /\ forall ids, entity_ids_of file = Ok ids -> Forall is_text ids.
Proof.
  unfold describe_file, mbind at 1, result_bind at 1.
  destruct (entity_ids_of file) as [ids|e] eqn:Hids; cbn [rbind]; [|done].
  intros Hrun. split.
  - revert Hids. unfold entity_ids_of.
    destruct (Md.entity_descr file); [left; by eexists|].
    destruct (Md.entities_descr file); [right; by eexists|done].
  - intros ids' [= <-].
    eapply Forall_impl; [exact (for_local_Ok_each _ _ _ _ Hrun)|].
    intros entity_id (s0 & s1 & Hbody). simpl in Hbody.
    destruct (describe_entity_cases (Md.entity file) entity_id)
      as [[Ht _]|[_ Hraise]]; [done|].
    revert Hbody. unfold mbind, result_bind. by rewrite Hraise.
Qed.

Lemma entities_of_text files :
  Forall (fun f => forall ids, entity_ids_of f.2 = Ok ids ->
                               Forall is_text ids) files ->
  Forall (fun fe => is_text fe.2) (entities_of files).
Proof.
  induction 1 as [|f files Hf _ IH]; [constructor|].
  unfold entities_of. cbn [map concat]. apply Forall_app. split; [|exact IH].
  destruct (entity_ids_of f.2) as [ids|]; [|constructor].
  apply Forall_map. eapply Forall_impl; [by apply Hf|done].
Qed.

(** X25: [get_metadata_desc] returns a listing only if every metadata
    source holds its entities, as one descriptor or as a list of them,
    and every entity id is text; the listing then has one description
    per entity, in order. *)
Theorem get_metadata_desc_returns_only_if self descs :
  get_metadata_desc self = Ok descs ->
  Forall (fun f => is_Some (Md.entity_descr f.2)
                   \/ is_Some (Md.entities_descr f.2)) (metadata (sp self))
  /\ Forall (fun fe => is_text fe.2) (entities_of (metadata (sp self)))
  /\ Forall2 described (entities_of (metadata (sp self))) descs.
Proof.
  unfold get_metadata_desc. intros Hrun.
  pose proof (for_local_Ok_each _ _ _ _ Hrun) as Heach.
  assert (Hshape : Forall (fun f : string * Md.metadata_file =>
                             is_Some (Md.entity_descr f.2)
                             \/ is_Some (Md.entities_descr f.2))
                     (metadata (sp self))).
  { eapply Forall_impl; [exact Heach|].
    intros f (s0 & s1 & Hf). by destruct (describe_file_Ok _ _ _ Hf). }
  assert (Htext : Forall (fun fe : Md.metadata_file * pystr => is_text fe.2)
                    (entities_of (metadata (sp self)))).
  { apply entities_of_text. eapply Forall_impl; [exact Heach|].
    intros f (s0 & s1 & Hf). by destruct (describe_file_Ok _ _ _ Hf). }
  split; [done|]. split; [done|].
  destruct (describe_files_ok _ [] Hshape Htext) as (descs' & Hrun' & Hd).
  rewrite Hrun in Hrun'. by simplify_eq.
Qed.

Lemma get_metadata_desc_returns_only_if_witness :
  Forall (fun fe : Md.metadata_file * pystr => is_text fe.2)
    [(Demo.file1, Demo.idp1); (Demo2.file2, Demo.idp2)].
Proof.
  exact (proj1 (proj2 (get_metadata_desc_returns_only_if Demo2.reading_two _
                         eq_refl))).
Defined.

(** X26: [get_metadata_desc] raises nothing but [AttributeError], for a
    source that holds neither one descriptor nor a list of them, and
    [UnicodeEncodeError], for an entity id that is not text: no
    [KeyError] of the organization, contact person or UI info of an
    entity gets out. *)
Theorem get_metadata_desc_raises self e :
  get_metadata_desc self = Raise e ->
  (e = AttributeError
   /\ Exists (fun f => Md.entity_descr f.2 = None
                       /\ Md.entities_descr f.2 = None) (metadata (sp self)))
  \/ (e = UnicodeEncodeError
      /\ Exists (fun fe => ~ is_text fe.2) (entities_of (metadata (sp self)))).
Proof.
  unfold get_metadata_desc. generalize (@nil Desc.MetadataDescription).
  induction (metadata (sp self)) as [|f files IH]; intros acc; [done|].
  rewrite for_local_cons.
  destruct (describe_file f.2 acc) as [acc'|e'] eqn:Hf.
  - intros [[-> Hex]|[-> Hex]]%IH; [left|right]; (split; [done|]).
    + by apply Exists_cons_tl.
    + unfold entities_of. cbn [map concat]. apply Exists_app. by right.
  - intros [= <-]. revert Hf.
    unfold describe_file, mbind at 1, result_bind at 1.
    destruct (entity_ids_of f.2) as [ids|e] eqn:Hids; cbn [rbind].
    + intros Hrun. right.
      assert (e' = UnicodeEncodeError /\ Exists (fun i => ~ is_text i) ids)
        as [-> Hex].
      { clear Hids. revert acc Hrun.
        induction ids as [|i ids IHi]; intros acc; [done|].
        rewrite for_local_cons.
        destruct (describe_entity_cases (Md.entity f.2) i)
          as [[_ [d Hd]]|[Hi Hd]]; rewrite Hd; step_result.
        - intros [-> Hex]%IHi. split; [done|]. by apply Exists_cons_tl.
        - intros [= <-]. split; [done|]. by apply Exists_cons_hd. }
      split; [done|]. unfold entities_of. cbn [map concat]. rewrite Hids.
      apply Exists_app. left. apply Exists_exists in Hex as (i & Hin & Hi).
      apply Exists_exists. exists (f.2, i). split; [|done].
      by apply list_elem_of_In, (in_map (pair f.2)), list_elem_of_In.
    + intros [= <-]. left. revert Hids. unfold entity_ids_of.
      destruct (Md.entity_descr f.2) eqn:H1; [done|].
      destruct (Md.entities_descr f.2) eqn:H2; [done|].
      intros [= <-]. split; [done|]. by apply Exists_cons_hd.
Qed.

Lemma get_metadata_desc_raises_witness :
  get_metadata_desc Demo2.reading_empty = Raise AttributeError
  /\ Exists (fun f : string * Md.metadata_file =>
               Md.entity_descr f.2 = None /\ Md.entities_descr f.2 = None)
       (metadata (sp Demo2.reading_empty)).
Proof.
  split; [vm_compute; reflexivity|].
  destruct (get_metadata_desc_raises Demo2.reading_empty AttributeError
              ltac:(vm_compute; reflexivity)) as [[_ H]|[H _]];
    [exact H|discriminate H].
Defined.

(** ** The sections of a description, against their statement *)

Lemma logo_body (u : Desc.UIInfoDesc) logo :
  (t ← key (Md.logo_text logo); w ← key (Md.logo_width logo);
   h ← key (Md.logo_height logo); l ← key (Md.logo_lang logo);
   Ok (Desc.add_logo t w h l u))
  = match logo_tuple logo with
    | Some p => Ok (Desc.add_logo p.1.1.1 p.1.1.2 p.1.2 p.2 u)
    | None => Raise KeyError
    end.
Proof.
  unfold logo_tuple.
  by destruct (Md.logo_text logo), (Md.logo_width logo),
    (Md.logo_height logo), (Md.logo_lang logo).
Qed.

Lemma foldl_add_description ps u :
  foldl (fun u p => Desc.add_description p.1 p.2 u) u ps
  = {| Desc.ui_description := Desc.ui_description u ++ ps;
       Desc.ui_display_name := Desc.ui_display_name u;
       Desc.ui_logo := Desc.ui_logo u |}.
Proof.
  revert u. induction ps as [|[t l] ps IH]; intros u; simpl.
  - destruct u. simpl. by rewrite app_nil_r.
  - rewrite IH. simpl. by rewrite <- app_assoc.
Qed.

Lemma foldl_add_ui_display_name ps u :
  foldl (fun u p => Desc.add_ui_display_name p.1 p.2 u) u ps
  = {| Desc.ui_description := Desc.ui_description u;
       Desc.ui_display_name := Desc.ui_display_name u ++ ps;
       Desc.ui_logo := Desc.ui_logo u |}.
Proof.
  revert u. induction ps as [|[t l] ps IH]; intros u; simpl.
  - destruct u. simpl. by rewrite app_nil_r.
  - rewrite IH. simpl. by rewrite <- app_assoc.
Qed.

Lemma foldl_add_logo ps u :
  foldl (fun u p => Desc.add_logo p.1.1.1 p.1.1.2 p.1.2 p.2 u) u ps
  = {| Desc.ui_description := Desc.ui_description u;
       Desc.ui_display_name := Desc.ui_display_name u;
       Desc.ui_logo := Desc.ui_logo u ++ ps |}.
Proof.
  revert u. induction ps as [|[[[t w] h] l] ps IH]; intros u; simpl.
  - destruct u. simpl. by rewrite app_nil_r.
  - rewrite IH. simpl. by rewrite <- app_assoc.
Qed.

(** One element: what it gives goes after what the UI info holds. *)
Lemma ui_element_body_of element u :
  ui_element_body element u
  = match element_ui element with
    | Some p =>
        Ok {| Desc.ui_description :=
                Desc.ui_description u ++ Desc.ui_description p;
              Desc.ui_display_name :=
                Desc.ui_display_name u ++ Desc.ui_display_name p;
              Desc.ui_logo := Desc.ui_logo u ++ Desc.ui_logo p |}
    | None => Raise KeyError
    end.
Proof.
  unfold ui_element_body, element_ui.
  destruct (Md.class element) as [class|]; [|done]. step_result.
  cbn [mbind option_bind].
  destruct (decide (class = UI_NAMESPACE ++ lit "&UIInfo")) as [Hc|Hc].
  - rewrite (bool_decide_eq_false_2 (class <> _)) by (intros H; by apply H).
    rewrite (bool_decide_eq_true_2 (class = _)) by done.
    rewrite (for_local_mapM localized_pair
               (fun p u => Desc.add_description p.1 p.2 u))
      by (intros; apply localized_body).
    destruct (mapM localized_pair (default [] (Md.el_description element)))
      as [ds|]; [|done].
    step_result. cbn [mbind option_bind].
    rewrite (for_local_mapM localized_pair
               (fun p u => Desc.add_ui_display_name p.1 p.2 u))
      by (intros; apply localized_body).
    destruct (mapM localized_pair (default [] (Md.el_display_name element)))
      as [ns|]; [|done].
    step_result. cbn [mbind option_bind].
    rewrite (for_local_mapM logo_tuple
               (fun p u => Desc.add_logo p.1.1.1 p.1.1.2 p.1.2 p.2 u))
      by (intros; apply logo_body).
    destruct (mapM logo_tuple (default [] (Md.el_logo element)))
      as [ls|]; [|done].
    by rewrite foldl_add_logo, foldl_add_ui_display_name,
      foldl_add_description.
  - rewrite (bool_decide_eq_true_2 (class <> _)) by done.
    rewrite (bool_decide_eq_false_2 (class = _)) by done.
    destruct u. simpl. by rewrite !app_nil_r.
Qed.

Lemma ui_elements_of elements u :
  for_local elements ui_element_body u
  = match mapM element_ui elements with
    | Some parts =>
        Ok {| Desc.ui_description :=
                Desc.ui_description u
                ++ concat (Desc.ui_description <$> parts);
              Desc.ui_display_name :=
                Desc.ui_display_name u
                ++ concat (Desc.ui_display_name <$> parts);
              Desc.ui_logo :=
                Desc.ui_logo u ++ concat (Desc.ui_logo <$> parts) |}
    | None => Raise KeyError
    end.
Proof.
  revert u. induction elements as [|element elements IH]; intros u.
  - destruct u. unfold for_local. simpl. by rewrite !app_nil_r.
  - rewrite for_local_cons, ui_element_body_of. cbn [mapM].
    unfold mbind at 1, option_bind at 1.
    destruct (element_ui element) as [p|]; [|done].
    rewrite IH. unfold mbind, option_bind.
    destruct (mapM element_ui elements) as [parts|]; [|done].
    simpl. by rewrite <- !app_assoc.
Qed.

Lemma idpsso_desc_body_ui_info_of idpsso_desc description :
  idpsso_desc_body idpsso_desc description
  = match ui_info_of idpsso_desc with
    | Some ui_info => Ok (Desc.set_ui_info ui_info description)
    | None => Raise KeyError
    end.
Proof.
  unfold idpsso_desc_body, ui_info_of.
  destruct (Md.idpsso_extensions idpsso_desc) as [extensions|]; [|done].
  step_result. cbn [mbind option_bind].
  destruct (Md.extension_elements extensions) as [elements|]; [|done].
  step_result. cbn [mbind option_bind].
  rewrite ui_elements_of.
  by destruct (mapM element_ui elements).
Qed.

Lemma organization_section_of entity entity_id :
  match organization_block entity entity_id with
  | Ok organization => Some organization
  | Raise _ => None
  end = organization_section (entity !! entity_id).
Proof.
  unfold organization_section.
  destruct (entity !! entity_id) as [info|] eqn:Hinfo;
    [|unfold organization_block; by rewrite Hinfo].
  destruct (Md.organization info) as [organization_info|] eqn:Horg.
  - rewrite (organization_block_of _ _ _ _ Hinfo Horg). simpl. rewrite Horg.
    simpl. by destruct (organization_of organization_info).
  - unfold organization_block. rewrite Hinfo. step_result. rewrite Horg.
    simpl. by rewrite Horg.
Qed.

Lemma sections_of_listed_as file entity_id k :
  encode_entity_id entity_id = Ok k ->
  listed_as (file, entity_id) (sections_of (Md.entity file) entity_id k).
Proof.
  intros Hk. unfold listed_as, sections_of. cbn [fst snd Desc.entity_id
    Desc.organization Desc.contact_person Desc.ui_info].
  split; [done|]. split; [apply organization_section_of|]. split.
  - unfold contact_person_section.
    destruct (Md.entity file !! entity_id ≫= Md.contact_persons) as [l|];
      [|done].
    rewrite (for_each_prefix_map person_of Desc.add_contact_person)
      by apply contact_person_body_of.
    by rewrite foldl_add_contact_person.
  - unfold ui_info_section.
    destruct (Md.entity file !! entity_id ≫= Md.idpsso_descriptors) as [l|];
      [|done].
    rewrite (for_each_prefix_map ui_info_of Desc.set_ui_info)
      by apply idpsso_desc_body_ui_info_of.
    rewrite foldl_set_ui_info. simpl.
    by destruct (last (prefix_map ui_info_of l)).
Qed.

Lemma entities_of_listed files : entities_of files = listed files.
Proof.
  unfold entities_of, listed.
  induction files as [|f files IH]; [done|].
  cbn [map concat]. rewrite IH. cbn [mbind list_bind]. f_equal.
  unfold entity_ids_of, listed_ids.
  destruct (Md.entity_descr f.2); [done|].
  by destruct (Md.entities_descr f.2).
Qed.

(** C6, as amended: for metadata sources that hold their entities (one
    descriptor or a list of them) and entity ids that are text,
    [get_metadata_desc] does not raise and gives one description per
    entity, in order. Each section is filled from its own part of the
    metadata, whatever the other parts are: the organization is left out
    unless it is there with every entry whole; the contact persons are
    those before the first malformed one; the UI info is that of the
    last IdP SSO descriptor before the first that cannot be read, and is
    empty, not left out, when that descriptor holds no UI info. *)
Theorem get_metadata_desc_best_effort self :
  Forall (fun f => is_Some (Md.entity_descr f.2)
                   \/ is_Some (Md.entities_descr f.2)) (metadata (sp self)) ->
  Forall (fun fe => is_text fe.2) (listed (metadata (sp self))) ->
  exists descs,
    get_metadata_desc self = Ok descs
    /\ Forall2 listed_as (listed (metadata (sp self))) descs.
Proof.
  intros Hshape Htext. rewrite <- entities_of_listed in *.
  destruct (describe_files_ok _ [] Hshape Htext) as (descs & Hrun & Hd).
  exists descs. split; [done|].
  eapply Forall2_impl; [exact Hd|].
  intros [file entity_id] d (k & Hk & ->).
  by apply sections_of_listed_as.
Qed.

Lemma get_metadata_desc_best_effort_witness :
  exists descs,
    get_metadata_desc Demo2.reading_two = Ok descs
    /\ Forall2 listed_as
         [(Demo.file1, Demo.idp1); (Demo2.file2, Demo.idp2)] descs.
Proof.
  apply (get_metadata_desc_best_effort Demo2.reading_two).
  - constructor; [left; by eexists|].
    constructor; [right; by eexists|constructor].
  - simpl.
    repeat (constructor;
            [unfold is_text; simpl;
             repeat (constructor; [split; reflexivity|]); constructor|]).
    constructor.
Defined.

(** C6 as first stated fails: the entity of [Demo2.file3] has three
    contact persons, of which the second has a given name without text
    and the third is well formed. The description lists the first
    person only: the contact person section is not left out, and the
    third person is not in it. *)
Lemma get_metadata_desc_drops_later_contacts :
  get_metadata_desc Demo2.reading_three
  = Ok [ {| Desc.entity_id := lit "aHR0cHM6Ly9pZHAxLmV4YW1wbGUvaWRw";
            Desc.organization := None;
            Desc.contact_person :=
              [ {| Desc.contact_type := Some (lit "technical");
                   Desc.email_address := [lit "a@example.org"];
                   Desc.given_name := None;
                   Desc.sur_name := None |} ];
            Desc.ui_info := Some Desc.new_ui_info |} ].
Proof. vm_compute. reflexivity. Qed.
